(** * filetwm: stacking, tiling, focus and drag state of the window manager

    A shallow embedding of the window-management core of [filetwm.c]
    (the revision whose [restack] also clears [sel] on removal), and the
    properties of it that the specification states.

    Conventions of the embedding.
    - A C [int] is a [Z]; signed overflow is undefined in C and is not
      modelled: the quantities are pixel coordinates and small counters.
      Integer division [/] is [Z.quot] (truncation toward zero).
    - [unsigned int] bit masks (tags) are non-negative [Z] with [Z.land]
      and [Z.lxor].
    - A [Client *] is an address ([ptr]); the structs live in a heap
      [gmap ptr Client], so that [sel], [pinned], [raised] and the list
      cells alias the same struct. [NULL] is [None].
    - The list linked through [Client.next] is the Rocq list of the
      addresses it visits, head first.
    - The [int] flags [isfloating], [fstate] and [isfullscreen] only ever
      hold 0 or 1 in the program and are [bool].
    - [float] and [double] are IEEE 754 binary32 and binary64 values
      ([spec_float] of the Standard Library), every operation rounded to
      nearest-even in the type C gives it (FLT_EVAL_METHOD 0).
    - Of the X server only what the stated properties observe is kept: the
      root property _NET_CLIENT_LIST_STACKING and whether the pointer is
      grabbed. Requests that only draw, move or configure X windows are
      left out, each noted where it occurs. *)

From Stdlib Require Import ZArith QArith Lia.
From Stdlib Require Import Floats.SpecFloat.
From stdpp Require Import base gmap list.
Local Open Scope Z_scope.

(** ** Floating point *)

Module Flt.

Abbreviation float := spec_float.

(** Conversion of an [int] to [float] and to [double]. *)
Definition f32_of_int (z : Z) : float := binary_normalize 24 128 z 0 false.
Definition f64_of_int (z : Z) : float := binary_normalize 53 1024 z 0 false.

(** Conversion of a [double] to [float]. *)
Definition f32_of_f64 (d : float) : float :=
  match d with
  | S754_finite s m e => binary_round 24 128 s m e
  | _ => d
  end.

Definition f32_mul : float -> float -> float := SFmul 24 128.
Definition f32_div : float -> float -> float := SFdiv 24 128.
Definition f64_div : float -> float -> float := SFdiv 53 1024.
(** A [float] operand of a [double] addition is promoted without
    rounding; [SFadd] aligns the exponents of its arguments itself. *)
Definition f64_add : float -> float -> float := SFadd 53 1024.

(** The real number a zero or finite value stands for. *)
Definition value (f : float) : Q :=
  match f with
  | S754_finite s m e =>
      match e with
      | Zneg p => Qmake (cond_Zopp s (Zpos m)) (2 ^ p)%positive
      | _ => Qmake (cond_Zopp s (Zpos m) * 2 ^ e) 1
      end
  | _ => 0%Q
  end.

(** The relational operators compare the real values, whatever the formats
    of the operands; a NaN compares false with everything. *)
Definition fcompare (a b : float) : option comparison :=
  match a, b with
  | S754_nan, _ | _, S754_nan => None
  | S754_infinity s1, S754_infinity s2 =>
      Some (match s1, s2 with
            | true, false => Lt
            | false, true => Gt
            | _, _ => Eq
            end)
  | S754_infinity s, _ => Some (if s then Lt else Gt)
  | _, S754_infinity s => Some (if s then Gt else Lt)
  | _, _ => Some (Qcompare (value a) (value b))
  end.

Definition flt (a b : float) : bool :=
  match fcompare a b with Some Lt => true | _ => false end.
Definition fgt (a b : float) : bool :=
  match fcompare a b with Some Gt => true | _ => false end.

(** Conversion to [int] discards the fractional part. (Undefined in C for
    NaN, infinities and values out of range; 0 here for the first two.) *)
Definition int_of_float (f : float) : Z :=
  Z.quot (Qnum (value f)) (Zpos (Qden (value f))).

(** The literals of the source. *)
Definition d0_05 : float := f64_div (f64_of_int 5) (f64_of_int 100).
Definition d0_95 : float := f64_div (f64_of_int 95) (f64_of_int 100).
Definition d0_5 : float := f64_div (f64_of_int 1) (f64_of_int 2).
Definition d0_6 : float := f64_div (f64_of_int 6) (f64_of_int 10).
Definition fzero : float := f32_of_int 0.

End Flt.

Import Flt.

(** ** Data *)

(** The address of a [Client] struct, and an X window id. *)
Abbreviation ptr := positive.
Abbreviation Window := Z.

(** [typedef struct { int mx, my, mw, mh; } Monitor;] *)
Module Monitor.
Record t := { mx : Z; my : Z; mw : Z; mh : Z }.
End Monitor.
Abbreviation Monitor := Monitor.t.

#[global] Instance Monitor_inhabited : Inhabited Monitor :=
  populate {| Monitor.mx := 0; Monitor.my := 0; Monitor.mw := 0; Monitor.mh := 0 |}.

(** [struct Client], without [next] (see the conventions above). *)
Module Client.
Record t := {
  mina : float; maxa : float;
  x : Z; y : Z; w : Z; h : Z;
  fx : Z; fy : Z; fw : Z; fh : Z;
  basew : Z; baseh : Z; maxw : Z; maxh : Z; minw : Z; minh : Z;
  bw : Z; fbw : Z;
  isfloating : bool; fstate : bool; isfullscreen : bool;
  tags : Z;
  win : Window
}.

Definition set_geom (c : t) (x' y' w' h' : Z) : t :=
  {| mina := mina c; maxa := maxa c;
     x := x'; y := y'; w := w'; h := h';
     fx := fx c; fy := fy c; fw := fw c; fh := fh c;
     basew := basew c; baseh := baseh c; maxw := maxw c; maxh := maxh c;
     minw := minw c; minh := minh c; bw := bw c; fbw := fbw c;
     isfloating := isfloating c; fstate := fstate c;
     isfullscreen := isfullscreen c; tags := tags c; win := win c |}.

Definition set_fgeom (c : t) (x' y' w' h' : Z) : t :=
  {| mina := mina c; maxa := maxa c;
     x := x c; y := y c; w := w c; h := h c;
     fx := x'; fy := y'; fw := w'; fh := h';
     basew := basew c; baseh := baseh c; maxw := maxw c; maxh := maxh c;
     minw := minw c; minh := minh c; bw := bw c; fbw := fbw c;
     isfloating := isfloating c; fstate := fstate c;
     isfullscreen := isfullscreen c; tags := tags c; win := win c |}.

Definition set_bw (c : t) (v : Z) : t :=
  {| mina := mina c; maxa := maxa c;
     x := x c; y := y c; w := w c; h := h c;
     fx := fx c; fy := fy c; fw := fw c; fh := fh c;
     basew := basew c; baseh := baseh c; maxw := maxw c; maxh := maxh c;
     minw := minw c; minh := minh c; bw := v; fbw := fbw c;
     isfloating := isfloating c; fstate := fstate c;
     isfullscreen := isfullscreen c; tags := tags c; win := win c |}.

Definition set_fbw (c : t) (v : Z) : t :=
  {| mina := mina c; maxa := maxa c;
     x := x c; y := y c; w := w c; h := h c;
     fx := fx c; fy := fy c; fw := fw c; fh := fh c;
     basew := basew c; baseh := baseh c; maxw := maxw c; maxh := maxh c;
     minw := minw c; minh := minh c; bw := bw c; fbw := v;
     isfloating := isfloating c; fstate := fstate c;
     isfullscreen := isfullscreen c; tags := tags c; win := win c |}.

Definition set_isfloating (c : t) (v : bool) : t :=
  {| mina := mina c; maxa := maxa c;
     x := x c; y := y c; w := w c; h := h c;
     fx := fx c; fy := fy c; fw := fw c; fh := fh c;
     basew := basew c; baseh := baseh c; maxw := maxw c; maxh := maxh c;
     minw := minw c; minh := minh c; bw := bw c; fbw := fbw c;
     isfloating := v; fstate := fstate c;
     isfullscreen := isfullscreen c; tags := tags c; win := win c |}.

Definition set_fstate (c : t) (v : bool) : t :=
  {| mina := mina c; maxa := maxa c;
     x := x c; y := y c; w := w c; h := h c;
     fx := fx c; fy := fy c; fw := fw c; fh := fh c;
     basew := basew c; baseh := baseh c; maxw := maxw c; maxh := maxh c;
     minw := minw c; minh := minh c; bw := bw c; fbw := fbw c;
     isfloating := isfloating c; fstate := v;
     isfullscreen := isfullscreen c; tags := tags c; win := win c |}.

Definition set_isfullscreen (c : t) (v : bool) : t :=
  {| mina := mina c; maxa := maxa c;
     x := x c; y := y c; w := w c; h := h c;
     fx := fx c; fy := fy c; fw := fw c; fh := fh c;
     basew := basew c; baseh := baseh c; maxw := maxw c; maxh := maxh c;
     minw := minw c; minh := minh c; bw := bw c; fbw := fbw c;
     isfloating := isfloating c; fstate := fstate c;
     isfullscreen := v; tags := tags c; win := win c |}.

Definition set_tags (c : t) (v : Z) : t :=
  {| mina := mina c; maxa := maxa c;
     x := x c; y := y c; w := w c; h := h c;
     fx := fx c; fy := fy c; fw := fw c; fh := fh c;
     basew := basew c; baseh := baseh c; maxw := maxw c; maxh := maxh c;
     minw := minw c; minh := minh c; bw := bw c; fbw := fbw c;
     isfloating := isfloating c; fstate := fstate c;
     isfullscreen := isfullscreen c; tags := v; win := win c |}.

(** What [calloc] returns. *)
Definition zero : t :=
  {| mina := S754_zero false; maxa := S754_zero false;
     x := 0; y := 0; w := 0; h := 0; fx := 0; fy := 0; fw := 0; fh := 0;
     basew := 0; baseh := 0; maxw := 0; maxh := 0; minw := 0; minh := 0;
     bw := 0; fbw := 0;
     isfloating := false; fstate := false; isfullscreen := false;
     tags := 0; win := 0 |}.
End Client.
Abbreviation Client := Client.t.

#[global] Instance Client_inhabited : Inhabited Client := populate Client.zero.

(** [enum { DragMove, DragSize, DragTile, WinEdge, ZoomStack, CtrlNone };] *)
Inductive DragMode :=
  DragMove | DragSize | DragTile | WinEdge | ZoomStack | CtrlNone.

#[global] Instance DragMode_eq_dec : EqDecision DragMode.
Proof. solve_decision. Defined.

(** [enum { CliPin, CliRaise, CliZoom, CliRemove, BarShow, BarHide, CliNone };] *)
Inductive StackAction :=
  CliPin | CliRaise | CliZoom | CliRemove | BarShow | BarHide | CliNone.

#[global] Instance StackAction_eq_dec : EqDecision StackAction.
Proof. solve_decision. Defined.

(** The configuration that the modelled functions only read: the monitor
    table [mons] ([monslen] is its length), [snap], the screen size
    [sw] x [sh], and [tagslen]. *)
Record Config := {
  mons : list Monitor;
  snap : Z;
  sw : Z;
  sh : Z;
  tagslen : Z
}.

(** The file-scope variables that the modelled functions write, the
    [static] variable [raised] of [restack], and the observed part of the
    X server. *)
Record WM := {
  heap : gmap ptr Client;
  clients : list ptr;
  pinned : option ptr;
  raised : option ptr;
  sel : option ptr;
  barfocus : bool;
  ctrlmode : DragMode;
  tagset : Z;
  mfact : list float;
  nmain : list Z;
  netclistack : list Window;
  pointergrab : bool
}.

Definition set_heap (s : WM) (v : gmap ptr Client) : WM :=
  {| heap := v; clients := clients s; pinned := pinned s; raised := raised s;
     sel := sel s; barfocus := barfocus s; ctrlmode := ctrlmode s;
     tagset := tagset s; mfact := mfact s; nmain := nmain s;
     netclistack := netclistack s; pointergrab := pointergrab s |}.

Definition set_clients (s : WM) (v : list ptr) : WM :=
  {| heap := heap s; clients := v; pinned := pinned s; raised := raised s;
     sel := sel s; barfocus := barfocus s; ctrlmode := ctrlmode s;
     tagset := tagset s; mfact := mfact s; nmain := nmain s;
     netclistack := netclistack s; pointergrab := pointergrab s |}.

Definition set_pinned (s : WM) (v : option ptr) : WM :=
  {| heap := heap s; clients := clients s; pinned := v; raised := raised s;
     sel := sel s; barfocus := barfocus s; ctrlmode := ctrlmode s;
     tagset := tagset s; mfact := mfact s; nmain := nmain s;
     netclistack := netclistack s; pointergrab := pointergrab s |}.

Definition set_raised (s : WM) (v : option ptr) : WM :=
  {| heap := heap s; clients := clients s; pinned := pinned s; raised := v;
     sel := sel s; barfocus := barfocus s; ctrlmode := ctrlmode s;
     tagset := tagset s; mfact := mfact s; nmain := nmain s;
     netclistack := netclistack s; pointergrab := pointergrab s |}.

Definition set_sel (s : WM) (v : option ptr) : WM :=
  {| heap := heap s; clients := clients s; pinned := pinned s;
     raised := raised s; sel := v; barfocus := barfocus s;
     ctrlmode := ctrlmode s; tagset := tagset s; mfact := mfact s;
     nmain := nmain s; netclistack := netclistack s;
     pointergrab := pointergrab s |}.

Definition set_barfocus (s : WM) (v : bool) : WM :=
  {| heap := heap s; clients := clients s; pinned := pinned s;
     raised := raised s; sel := sel s; barfocus := v;
     ctrlmode := ctrlmode s; tagset := tagset s; mfact := mfact s;
     nmain := nmain s; netclistack := netclistack s;
     pointergrab := pointergrab s |}.

Definition set_ctrlmode (s : WM) (v : DragMode) : WM :=
  {| heap := heap s; clients := clients s; pinned := pinned s;
     raised := raised s; sel := sel s; barfocus := barfocus s;
     ctrlmode := v; tagset := tagset s; mfact := mfact s;
     nmain := nmain s; netclistack := netclistack s;
     pointergrab := pointergrab s |}.

Definition set_mfact (s : WM) (v : list float) : WM :=
  {| heap := heap s; clients := clients s; pinned := pinned s;
     raised := raised s; sel := sel s; barfocus := barfocus s;
     ctrlmode := ctrlmode s; tagset := tagset s; mfact := v;
     nmain := nmain s; netclistack := netclistack s;
     pointergrab := pointergrab s |}.

Definition set_nmain (s : WM) (v : list Z) : WM :=
  {| heap := heap s; clients := clients s; pinned := pinned s;
     raised := raised s; sel := sel s; barfocus := barfocus s;
     ctrlmode := ctrlmode s; tagset := tagset s; mfact := mfact s;
     nmain := v; netclistack := netclistack s;
     pointergrab := pointergrab s |}.

Definition set_netclistack (s : WM) (v : list Window) : WM :=
  {| heap := heap s; clients := clients s; pinned := pinned s;
     raised := raised s; sel := sel s; barfocus := barfocus s;
     ctrlmode := ctrlmode s; tagset := tagset s; mfact := mfact s;
     nmain := nmain s; netclistack := v; pointergrab := pointergrab s |}.

Definition set_pointergrab (s : WM) (v : bool) : WM :=
  {| heap := heap s; clients := clients s; pinned := pinned s;
     raised := raised s; sel := sel s; barfocus := barfocus s;
     ctrlmode := ctrlmode s; tagset := tagset s; mfact := mfact s;
     nmain := nmain s; netclistack := netclistack s; pointergrab := v |}.

(** [c->field], and a write to the struct at [c]. *)
Definition deref (s : WM) (c : ptr) : Client := heap s !!! c.
Definition store (s : WM) (c : ptr) (v : Client) : WM :=
  set_heap s (<[c := v]> (heap s)).

#[global] Instance float_inhabited : Inhabited float := populate (S754_zero false).

(** ** The functions of [filetwm.c] *)

Section Model.

Variable cfg : Config.

(** [monslen], and [mons[m]]. *)
Definition monslen : nat := length (mons cfg).
Definition mon (m : nat) : Monitor := mons cfg !!! m.

(** [#define ISVISIBLE(C) ((C->tags & tagset))] *)
Definition ISVISIBLE (s : WM) (c : ptr) : bool :=
  negb (Z.land (Client.tags (deref s c)) (tagset s) =? 0).

(** [#define INMON(X, Y, M)
      (X >= M.mx && X < M.mx + M.mw && Y >= M.my && Y < M.my + M.mh)] *)
Definition INMON (X Y : Z) (M : Monitor) : bool :=
  (Monitor.mx M <=? X) && (X <? Monitor.mx M + Monitor.mw M)
  && (Monitor.my M <=? Y) && (Y <? Monitor.my M + Monitor.mh M).

(** [#define HEIGHT(X) ((X)->h + 2 * (X)->bw)] and [WIDTH]. *)
Definition HEIGHT (cl : Client) : Z := Client.h cl + 2 * Client.bw cl.
Definition WIDTH (cl : Client) : Z := Client.w cl + 2 * Client.bw cl.

(** [#define ONMON(C, M) INMON(C->x + WIDTH(C)/2, C->y + HEIGHT(C)/2, M)] *)
Definition ONMON (cl : Client) (M : Monitor) : bool :=
  INMON (Client.x cl + Z.quot (WIDTH cl) 2) (Client.y cl + Z.quot (HEIGHT cl) 2) M.

(** [#define TAGMASK ((1 << tagslen) - 1)] *)
Definition TAGMASK : Z := Z.shiftl 1 (tagslen cfg) - 1.

(** The three shapes of monitor search. Each is written over the part of
    the table still to visit, [m] being the index of its first entry.

    [for (m = 0; m < monslen-1 && !P(mons[m]); m++);]
    stops at the first monitor satisfying [P], and at the last one
    whatever it satisfies. *)
Fixpoint scan_up (P : Monitor -> bool) (ms : list Monitor) (m : nat) : nat :=
  match ms with
  | [] => m
  | M :: ms' =>
      match ms' with
      | [] => m
      | _ => if P M then m else scan_up P ms' (S m)
      end
  end.

(** [for (m = 0; m < monslen && !P(mons[m]); m++);]
    ends with [m == monslen] when no monitor satisfies [P]. *)
Fixpoint scan_all (P : Monitor -> bool) (ms : list Monitor) (m : nat) : nat :=
  match ms with
  | [] => m
  | M :: ms' => if P M then m else scan_all P ms' (S m)
  end.

(** [for (m = monslen-1; m > 0 && !P(mons[m]); m--);] from index [m]
    downwards: the last monitor satisfying [P], or monitor 0. *)
Fixpoint scan_down (P : Monitor -> bool) (m : nat) : nat :=
  match m with
  | O => O
  | S m' => if P (mon m) then m else scan_down P m'
  end.

(** *** The client list *)

(** [void attach(Client *c) { c->next = clients; clients = c; }] *)
Definition attach (c : ptr) (s : WM) : WM := set_clients s (c :: clients s).

(** [void detach(Client *c)]: the loop walks [tc] along the [next] links
    up to the link that holds [c] (or the last one), and [*tc = c->next]
    unlinks the cell [c]. (Called on a cell that is not in the list, the C
    code appends whatever [c->next] holds; every call site passes a cell
    of the list, and the list is left as it is here.) *)
Fixpoint unlink (c : ptr) (l : list ptr) : list ptr :=
  match l with
  | [] => []
  | p :: l' => if decide (p = c) then l' else p :: unlink c l'
  end.

Definition detach (c : ptr) (s : WM) : WM := set_clients s (unlink c (clients s)).

(** *** resize *)

(** The candidate geometry [x, y, w, h] as [resize] transforms it. *)
Record Rect := { rx : Z; ry : Z; rw : Z; rh : Z }.

(** [w = MAX(1, w); h = MAX(1, h);
     x = MAX(1 - w - 2*c->bw, MIN(sw - 1, x));
     y = MAX(1 - h - 2*c->bw, MIN(sh - 1, y));] *)
Definition fit (cl : Client) (x y w h : Z) : Rect :=
  let w := Z.max 1 w in
  let h := Z.max 1 h in
  {| rx := Z.max (1 - w - 2 * Client.bw cl) (Z.min (sw cfg - 1) x);
     ry := Z.max (1 - h - 2 * Client.bw cl) (Z.min (sh cfg - 1) y);
     rw := w; rh := h |}.

(** The body of [if (c->isfloating && !c->isfullscreen)] after the writes
    to [c->fx .. c->fh]: the monitors of the near and of the far corner,
    then position and size snapped to their edges. *)
Definition snapped (cl : Client) (r : Rect) : Rect :=
  let m1 := mon (scan_up (INMON (rx r + snap cfg) (ry r + snap cfg)) (mons cfg) 0) in
  let m2 := mon (scan_up (INMON (rx r + rw r - snap cfg) (ry r + rh r - snap cfg))
                   (mons cfg) 0) in
  let x := if Z.abs (Monitor.mx m1 - rx r) <? snap cfg then Monitor.mx m1 else rx r in
  let y := if Z.abs (Monitor.my m1 - ry r) <? snap cfg then Monitor.my m1 else ry r in
  let w := if Z.abs ((Monitor.mx m2 + Monitor.mw m2) - (x + rw r + 2 * Client.bw cl)) <? snap cfg
           then Monitor.mx m2 + Monitor.mw m2 - x - 2 * Client.bw cl else rw r in
  let h := if Z.abs ((Monitor.my m2 + Monitor.mh m2) - (y + rh r + 2 * Client.bw cl)) <? snap cfg
           then Monitor.my m2 + Monitor.mh m2 - y - 2 * Client.bw cl else rh r in
  {| rx := x; ry := y; rw := w; rh := h |}.

(** [w -= c->basew; h -= c->baseh;
     if (c->mina > 0 && c->maxa > 0 && !c->isfullscreen) {
       if (c->maxa < (float)w / h) w = h * c->maxa + 0.5;
       else if (c->mina < (float)h / w) h = w * c->mina + 0.5;
     }
     w = MAX(w + c->basew, c->minw); h = MAX(h + c->baseh, c->minh);
     w = (c->maxw && !c->isfullscreen) ? MIN(w, c->maxw) : w;
     h = (c->maxh && !c->isfullscreen) ? MIN(h, c->maxh) : h;] *)
Definition hinted (cl : Client) (r : Rect) : Rect :=
  let w := rw r - Client.basew cl in
  let h := rh r - Client.baseh cl in
  let aspect := fgt (Client.mina cl) fzero && fgt (Client.maxa cl) fzero
                && negb (Client.isfullscreen cl) in
  let wide := flt (Client.maxa cl) (f32_div (f32_of_int w) (f32_of_int h)) in
  let tall := flt (Client.mina cl) (f32_div (f32_of_int h) (f32_of_int w)) in
  let w' := if aspect && wide
            then int_of_float (f64_add (f32_mul (f32_of_int h) (Client.maxa cl)) d0_5)
            else w in
  let h' := if aspect && negb wide && tall
            then int_of_float (f64_add (f32_mul (f32_of_int w) (Client.mina cl)) d0_5)
            else h in
  let w := Z.max (w' + Client.basew cl) (Client.minw cl) in
  let h := Z.max (h' + Client.baseh cl) (Client.minh cl) in
  let w := if negb (Client.maxw cl =? 0) && negb (Client.isfullscreen cl)
           then Z.min w (Client.maxw cl) else w in
  let h := if negb (Client.maxh cl =? 0) && negb (Client.isfullscreen cl)
           then Z.min h (Client.maxh cl) else h in
  {| rx := rx r; ry := ry r; rw := w; rh := h |}.

(** [void resize(Client *c, int x, int y, int w, int h)].
    [XConfigureWindow] and [configure] in the last branch are requests to
    the window only. *)
Definition resize (c : ptr) (x y w h : Z) (s : WM) : WM :=
  let cl := deref s c in
  let r := fit cl x y w h in
  let floats := Client.isfloating cl && negb (Client.isfullscreen cl) in
  let s := if floats then store s c (Client.set_fgeom cl (rx r) (ry r) (rw r) (rh r)) else s in
  let r := if floats then snapped cl r else r in
  let r := hinted cl r in
  if negb (rx r =? Client.x cl) || negb (ry r =? Client.y cl)
     || negb (rw r =? Client.w cl) || negb (rh r =? Client.h cl)
  then store s c (Client.set_geom (deref s c) (rx r) (ry r) (rw r) (rh r))
  else s.

(** *** restack *)

(** [!c->isfloating+2*c->isfullscreen], the layer test of [restack]:
    0 floating, 1 tiled, 2 fullscreen. *)
Definition layer (cl : Client) : Z :=
  (if Client.isfloating cl then 0 else 1) + 2 * (if Client.isfullscreen cl then 1 else 0).

(** [PROPADD(Prepend, root, NetCliStack, XA_WINDOW, 32, &c->win, 1)]:
    the window is put in front of what the property holds. *)
Definition propprepend (s : WM) (c : ptr) (prop : list Window) : list Window :=
  Client.win (deref s c) :: prop.

(** [if (pinned && pinned->isfloating) { detach(pinned); attach(pinned); }] *)
Definition liftpinned (s : WM) : WM :=
  match pinned s with
  | Some p => if Client.isfloating (deref s p) then attach p (detach p s) else s
  | None => s
  end.

(** One pass [for (c = clients; c; c = c->next)] of the layer loop, for
    layer [l]. *)
Definition publishlayer (s : WM) (l : Z) (prop : list Window) : list Window :=
  fold_left
    (fun prop c =>
       if bool_decide (Some c ≠ pinned s) && bool_decide (Some c ≠ raised s)
          && (layer (deref s c) =? l)
       then propprepend s c prop else prop)
    (clients s) prop.

(** What [restack] does after its [switch]: lift the pinned client, delete
    the property, and rebuild it while the windows are stacked. The
    [XRaiseWindow] and [XConfigureWindow] requests, which stack the
    windows and the bar, are not modelled. *)
Definition stackwindows (s : WM) : WM :=
  let s := liftpinned s in
  let prop := [] in
  let prop := match pinned s with Some p => propprepend s p prop | None => prop end in
  let prop := match raised s with Some r => propprepend s r prop | None => prop end in
  let prop := publishlayer s 0 prop in
  let prop := publishlayer s 1 prop in
  let prop := publishlayer s 2 prop in
  set_netclistack s prop.

(** [void focus(Client *c)]. Its last statement is
    [restack(NULL, CliNone)], which matches no [case] of the [switch] and
    is [stackwindows]. Border colours, the button grab, the input focus
    and _NET_ACTIVE_WINDOW are requests not modelled. *)
Definition focus (c : option ptr) (s : WM) : WM :=
  let visible (o : option ptr) :=
    match o with Some p => ISVISIBLE s p | None => false end in
  let c :=
    if visible c then c
    else if visible (sel s) then sel s
    else find (ISVISIBLE s) (clients s) in
  stackwindows (set_sel s c).

(** [void restack(Client *c, int mode)] *)
Definition restack (c : option ptr) (mode : StackAction) (s : WM) : WM :=
  match mode with
  | CliPin =>
      stackwindows (set_pinned s (if bool_decide (pinned s ≠ c) then c else None))
  | CliRemove =>
      let s := match c with Some p => detach p s | None => s end in
      let s := set_pinned s (if bool_decide (pinned s ≠ c) then pinned s else None) in
      let s := set_raised s (if bool_decide (raised s ≠ c) then raised s else None) in
      let s := set_sel s (if bool_decide (sel s ≠ c) then sel s else None) in
      stackwindows s
  | BarHide | BarShow =>
      let show := bool_decide (mode = BarShow) in
      if bool_decide (barfocus s = show) then s
      else
        let s := set_barfocus s show in
        stackwindows (focus (sel s) s)
  | CliZoom =>
      let s := match c with Some p => attach p (detach p s) | None => s end in
      stackwindows (set_raised s c)
  | CliRaise => stackwindows (set_raised s c)
  | CliNone => stackwindows s
  end.

(** *** arrange *)

(** The monitor of a tiled client:
    [for (m = monslen-1; m > 0 && !ONMON(c, mons[m]); m--);] *)
Definition monof (cl : Client) : nat := scan_down (ONMON cl) (monslen - 1).

(** [!c->isfloating && ISVISIBLE(c)] *)
Definition istiled (s : WM) (c : ptr) : bool :=
  negb (Client.isfloating (deref s c)) && ISVISIBLE s c.

(** The first loop: [nm[m]++] for every tiled client, from
    [int nm[32] = {0}]. *)
Definition counttiled (s : WM) : list Z :=
  fold_left
    (fun nm c =>
       if istiled s c
       then let m := monof (deref s c) in <[m := nm !!! m + 1]> nm
       else nm)
    (clients s) (replicate 32 0).

(** The state of the tiling loop: the window manager and the arrays [i],
    [my] and [ty]. *)
Record Tiling := { t_wm : WM; t_i : list Z; t_my : list Z; t_ty : list Z }.

(** The body of the tiling loop for the client [c]. *)
Definition tile (nm : list Z) (st : Tiling) (c : ptr) : Tiling :=
  let s := t_wm st in
  if istiled s c then
    let m := monof (deref s c) in
    let M := mon m in
    let bw := Client.bw (deref s c) in
    let mw := int_of_float
                (if nm !!! m >? nmain s !!! m
                 then f32_mul (f32_of_int (Monitor.mw M)) (mfact s !!! m)
                 else f32_of_int (Monitor.mw M)) in
    if t_i st !!! m <? nmain s !!! m then
      let h := Z.quot (Monitor.mh M - t_my st !!! m)
                      (Z.min (nm !!! m) (nmain s !!! m) - t_i st !!! m) in
      let s' := resize c (Monitor.mx M) (Monitor.my M + t_my st !!! m)
                       (mw - 2 * bw) (h - 2 * bw) s in
      let H := HEIGHT (deref s' c) in
      {| t_wm := s';
         t_i := <[m := t_i st !!! m + 1]> (t_i st);
         t_my := if t_my st !!! m + H <? Monitor.mh M
                 then <[m := t_my st !!! m + H]> (t_my st) else t_my st;
         t_ty := t_ty st |}
    else
      let h := Z.quot (Monitor.mh M - t_ty st !!! m) (nm !!! m - t_i st !!! m) in
      let s' := resize c (Monitor.mx M + mw) (Monitor.my M + t_ty st !!! m)
                       (Monitor.mw M - mw - 2 * bw) (h - 2 * bw) s in
      let H := HEIGHT (deref s' c) in
      {| t_wm := s';
         t_i := <[m := t_i st !!! m + 1]> (t_i st);
         t_my := t_my st;
         t_ty := if t_ty st !!! m + H <? Monitor.mh M
                 then <[m := t_ty st !!! m + H]> (t_ty st) else t_ty st |}
  else st.

(** The tiling loop over the client list. *)
Definition tileall (s : WM) : WM :=
  t_wm (fold_left (tile (counttiled s))
          (clients s)
          {| t_wm := s; t_i := replicate 32 0; t_my := replicate 32 0;
             t_ty := replicate 32 0 |}).

(** [void arrange(void)]. The loop of [XMoveWindow] calls, which moves
    the windows of other workspaces off screen, is not modelled. *)
Definition arrange (s : WM) : WM :=
  let s := focus None s in
  let s := tileall s in
  restack (sel s) CliRaise s.

(** *** The drag state *)

(** [MIN(0.95, MAX(0.05, q))] assigned to a [float], for a [float] [q]:
    both macros compare in [double]; the value kept is the [double]
    0.05, the [double] 0.95 or [q] promoted, and the assignment converts
    it back, which returns a promoted [float] as it was. *)
Definition clampmfact (q : float) : float :=
  if fgt d0_05 q then f32_of_f64 d0_05
  else if flt d0_95 q then f32_of_f64 d0_95
  else q.

(** [void grabresizeabort()] *)
Definition grabresizeabort (s : WM) : WM :=
  if bool_decide (ctrlmode s = CtrlNone) || bool_decide (ctrlmode s = ZoomStack) then s
  else
    let s :=
      match sel s with
      | Some c =>
          if bool_decide (ctrlmode s = DragTile) then
            let cl := deref s c in
            let m := scan_up (INMON (Client.x cl) (Client.y cl)) (mons cfg) 0 in
            let s := set_mfact s
                       (<[m := clampmfact
                                 (f32_div (f32_of_int (WIDTH cl))
                                          (f32_of_int (Monitor.mw (mon m))))]> (mfact s)) in
            let s := set_nmain s
                       (<[m := Z.max 1 (Z.quot (Monitor.mh (mon m)) (HEIGHT cl))]> (nmain s)) in
            arrange s
          else s
      | None => s
      end in
    (* XUngrabPointer *)
    let s := set_pointergrab s false in
    set_ctrlmode s CtrlNone.

(** [void grabresize(const Arg *arg)], for [arg->i] one of the drag
    modes. *)
Definition grabresize (arg : DragMode) (s : WM) : WM :=
  if bool_decide (ctrlmode s = arg) then s
  else
    match sel s with
    | None => s
    | Some c =>
        if Client.isfullscreen (deref s c)
           || (bool_decide (arg = DragMove) && negb (Client.isfloating (deref s c)))
        then s
        else
          let s := set_ctrlmode s arg in
          let s := if bool_decide (ctrlmode s = DragSize)
                      && negb (Client.isfloating (deref s c))
                   then set_ctrlmode s DragTile else s in
          (* XGrabPointer *)
          let s := set_pointergrab s true in
          if bool_decide (ctrlmode s ≠ WinEdge) then restack (sel s) CliRaise s else s
    end.

(** *** Fullscreen *)

(** [void setfullscreen(Client *c, int fullscreen)]. The two [PROPSET]
    calls set _NET_WM_STATE on the client's window and are not
    modelled. *)
Definition setfullscreen (c : ptr) (fullscreen : bool) (s : WM) : WM :=
  if fullscreen && negb (Client.isfullscreen (deref s c)) then
    let cl := deref s c in
    let cl := Client.set_isfullscreen cl true in
    let cl := Client.set_fstate cl (Client.isfloating cl) in
    let cl := Client.set_fbw cl (Client.bw cl) in
    let cl := Client.set_bw cl 0 in
    let cl := Client.set_isfloating cl true in
    let s := store s c cl in
    let m1 := scan_down (INMON (Client.x cl) (Client.y cl)) (monslen - 1) in
    let m2 := scan_all (INMON (Client.x cl + WIDTH cl) (Client.y cl + HEIGHT cl))
                (mons cfg) 0 in
    let m2 := if bool_decide (m2 = monslen)
                 || (Monitor.mx (mon m2) + Monitor.mw (mon m2) <=? Monitor.mx (mon m1))
                 || (Monitor.my (mon m2) + Monitor.mh (mon m2) <=? Monitor.my (mon m1))
              then m1 else m2 in
    let w := Monitor.mx (mon m2) - Monitor.mx (mon m1) + Monitor.mw (mon m2) in
    let h := Monitor.my (mon m2) - Monitor.my (mon m1) + Monitor.mh (mon m2) in
    let s := resize c (Monitor.mx (mon m1)) (Monitor.my (mon m1)) w h s in
    let s := restack (Some c) CliZoom s in
    arrange s
  else if negb fullscreen && Client.isfullscreen (deref s c) then
    let cl := deref s c in
    let cl := Client.set_isfullscreen cl false in
    let cl := Client.set_isfloating cl (Client.fstate cl) in
    let cl := Client.set_bw cl (Client.fbw cl) in
    let s := store s c cl in
    let s := resize c (Client.fx cl) (Client.fy cl) (Client.fw cl) (Client.fh cl) s in
    arrange s
  else arrange s.

(** *** Workspaces *)

(** [void toggletag(const Arg *arg)], for [arg->ui]. *)
Definition toggletag (arg : Z) (s : WM) : WM :=
  match sel s with
  | Some c =>
      let t := Z.lxor (Client.tags (deref s c)) (Z.land arg TAGMASK) in
      if negb (t =? 0) then arrange (store s c (Client.set_tags (deref s c) t))
      else s
  | None => s
  end.

(** *** Removal *)

(** [void unmanage(Client *c)]: [free(c)] removes the struct from the
    heap; the rebuilt _NET_CLIENT_LIST is not modelled. *)
Definition unmanage (c : ptr) (s : WM) : WM :=
  let s := restack (Some c) CliRemove s in
  let s := arrange s in
  set_heap s (delete c (heap s)).

End Model.

(** ** The handlers and actions around the core *)

Definition set_tagset (s : WM) (v : Z) : WM :=
  {| heap := heap s; clients := clients s; pinned := pinned s;
     raised := raised s; sel := sel s; barfocus := barfocus s;
     ctrlmode := ctrlmode s; tagset := v; mfact := mfact s;
     nmain := nmain s; netclistack := netclistack s;
     pointergrab := pointergrab s |}.

(** The size hints of a client, written together. *)
Definition set_sizehints (c : Client)
    (basew' baseh' maxw' maxh' minw' minh' : Z) (mina' maxa' : float) : Client :=
  {| Client.mina := mina'; Client.maxa := maxa';
     Client.x := Client.x c; Client.y := Client.y c;
     Client.w := Client.w c; Client.h := Client.h c;
     Client.fx := Client.fx c; Client.fy := Client.fy c;
     Client.fw := Client.fw c; Client.fh := Client.fh c;
     Client.basew := basew'; Client.baseh := baseh';
     Client.maxw := maxw'; Client.maxh := maxh';
     Client.minw := minw'; Client.minh := minh';
     Client.bw := Client.bw c; Client.fbw := Client.fbw c;
     Client.isfloating := Client.isfloating c; Client.fstate := Client.fstate c;
     Client.isfullscreen := Client.isfullscreen c; Client.tags := Client.tags c;
     Client.win := Client.win c |}.

Definition set_win (c : Client) (v : Window) : Client :=
  {| Client.mina := Client.mina c; Client.maxa := Client.maxa c;
     Client.x := Client.x c; Client.y := Client.y c;
     Client.w := Client.w c; Client.h := Client.h c;
     Client.fx := Client.fx c; Client.fy := Client.fy c;
     Client.fw := Client.fw c; Client.fh := Client.fh c;
     Client.basew := Client.basew c; Client.baseh := Client.baseh c;
     Client.maxw := Client.maxw c; Client.maxh := Client.maxh c;
     Client.minw := Client.minw c; Client.minh := Client.minh c;
     Client.bw := Client.bw c; Client.fbw := Client.fbw c;
     Client.isfloating := Client.isfloating c; Client.fstate := Client.fstate c;
     Client.isfullscreen := Client.isfullscreen c; Client.tags := Client.tags c;
     Client.win := v |}.

(** What [XGetWMNormalHints] fills in of an [XSizeHints]: the four flags
    of [size.flags] that the program tests, and the fields they guard. *)
Record XSizeHints := {
  PBaseSize : bool; PMaxSize : bool; PMinSize : bool; PAspect : bool;
  base_width : Z; base_height : Z;
  max_width : Z; max_height : Z;
  min_width : Z; min_height : Z;
  min_aspect_x : Z; min_aspect_y : Z;
  max_aspect_x : Z; max_aspect_y : Z
}.

(** An entry of the array that [XRRGetMonitors] returns. *)
Record XRRMonitorInfo := {
  inf_x : Z; inf_y : Z; inf_width : Z; inf_height : Z; inf_primary : bool
}.

(** What [XGetWindowAttributes] tells of a window. *)
Record XWindowAttributes := {
  wa_x : Z; wa_y : Z; wa_width : Z; wa_height : Z; wa_override_redirect : bool
}.

(** What [MOUSEINF] tells: the child window under the pointer, the
    pointer position in the root window, and the modifier and button
    mask. *)
Record Pointer := { p_cw : Window; p_rx : Z; p_ry : Z; p_mask : Z }.

(** The state of the window manager together with the launcher flag
    [barcmds], the [static] variables [lx], [ly] and [lastcw] of
    [motion], and the flag [end] of the event loop, here [quitting].
    (The [static] [c] of [motion] is written before each of its uses; the
    launcher text [cmdfilter] and the index [cmdi] only bear on what the
    bar draws.) *)
Record Session := {
  wm : WM;
  barcmds : Z;
  lx : Z; ly : Z;
  lastcw : Window;
  quitting : bool
}.

Definition set_wm (t : Session) (v : WM) : Session :=
  {| wm := v; barcmds := barcmds t; lx := lx t; ly := ly t; lastcw := lastcw t;
     quitting := quitting t |}.

Definition set_barcmds (t : Session) (v : Z) : Session :=
  {| wm := wm t; barcmds := v; lx := lx t; ly := ly t; lastcw := lastcw t;
     quitting := quitting t |}.

Definition set_last (t : Session) (x y : Z) : Session :=
  {| wm := wm t; barcmds := barcmds t; lx := x; ly := y; lastcw := lastcw t;
     quitting := quitting t |}.

Definition set_lastcw (t : Session) (v : Window) : Session :=
  {| wm := wm t; barcmds := barcmds t; lx := lx t; ly := ly t; lastcw := v;
     quitting := quitting t |}.

Definition set_quitting (t : Session) (v : bool) : Session :=
  {| wm := wm t; barcmds := barcmds t; lx := lx t; ly := ly t; lastcw := lastcw t;
     quitting := v |}.

(** An [unsigned int] result: the value modulo 2^32. *)
Definition u32 (z : Z) : Z := z mod 2 ^ 32.

(** [void updatemonitors()], on the monitor table, for the array [inf]
    that [XRRGetMonitors] returns ([n] is its length):
    [for (i = 0; i < n && i < monslen; i++) {
       SETMON(mons[i], inf[i]) if (inf[i].primary) pri = i; }]
    and the exchange of [mons[pri]] and [mons[0]]. *)
Definition SETMON (R : XRRMonitorInfo) : Monitor :=
  {| Monitor.mx := inf_x R; Monitor.my := inf_y R;
     Monitor.mw := inf_width R; Monitor.mh := inf_height R |}.

Fixpoint setmons (inf : list XRRMonitorInfo) (i : nat) (ms : list Monitor) (pri : nat)
  : list Monitor * nat :=
  match inf with
  | [] => (ms, pri)
  | R :: inf' =>
      if bool_decide (i < length ms)%nat
      then setmons inf' (S i) (<[i := SETMON R]> ms) (if inf_primary R then i else pri)
      else (ms, pri)
  end.

Definition updatemonitors (inf : list XRRMonitorInfo) (ms : list Monitor) : list Monitor :=
  let '(ms, pri) := setmons inf 0 ms 0 in
  let m := ms !!! pri in
  let ms := <[pri := ms !!! 0%nat]> ms in
  <[0%nat := m]> ms.

Section Handlers.

Variable cfg : Config.

(** [borderpx], the configured border width, which only [maprequest]
    reads. *)
Variable borderpx : Z.

(** *** Looking a window up *)

(** [Client* wintoclient(Window w)]:
    [for (c = clients; c && c->win != w; c = c->next); return c;] *)
Definition wintoclient (w : Window) (s : WM) : option ptr :=
  find (λ c, bool_decide (Client.win (deref s c) = w)) (clients s).

(** *** Size hints *)

(** [void updatesizehints(Client *c)], for what [XGetWMNormalHints]
    returns: [None] when it fails. *)
Definition updatesizehints (c : ptr) (hints : option XSizeHints) (s : WM) : WM :=
  let cl := set_sizehints (deref s c) 0 0 0 0 0 0 (S754_zero false) (S754_zero false) in
  match hints with
  | None => store s c cl
  | Some size =>
      let cl := if PBaseSize size
                then set_sizehints cl (base_width size) (base_height size)
                       (Client.maxw cl) (Client.maxh cl)
                       (base_width size) (base_height size)
                       (Client.mina cl) (Client.maxa cl)
                else cl in
      let cl := if PMaxSize size
                then set_sizehints cl (Client.basew cl) (Client.baseh cl)
                       (max_width size) (max_height size)
                       (Client.minw cl) (Client.minh cl)
                       (Client.mina cl) (Client.maxa cl)
                else cl in
      let cl := if PMinSize size
                then set_sizehints cl (Client.basew cl) (Client.baseh cl)
                       (Client.maxw cl) (Client.maxh cl)
                       (min_width size) (min_height size)
                       (Client.mina cl) (Client.maxa cl)
                else cl in
      let cl := if PAspect size
                then set_sizehints cl (Client.basew cl) (Client.baseh cl)
                       (Client.maxw cl) (Client.maxh cl)
                       (Client.minw cl) (Client.minh cl)
                       (f32_div (f32_of_int (min_aspect_y size))
                                (f32_of_int (min_aspect_x size)))
                       (f32_div (f32_of_int (max_aspect_x size))
                                (f32_of_int (max_aspect_y size)))
                else cl in
      store s c cl
  end.

(** *** Cycling the selection *)

(** The cells that follow the cell [c] of the list ([c->next] and on),
    the cells before it, and the cells from it on. *)
Fixpoint after (c : ptr) (l : list ptr) : list ptr :=
  match l with
  | [] => []
  | p :: l' => if decide (p = c) then l' else after c l'
  end.

Fixpoint before (c : ptr) (l : list ptr) : list ptr :=
  match l with
  | [] => []
  | p :: l' => if decide (p = c) then [] else p :: before c l'
  end.

Fixpoint from (c : ptr) (l : list ptr) : list ptr :=
  match l with
  | [] => []
  | p :: l' => if decide (p = c) then l else from c l'
  end.

(** [for (...; i = i->next) if (ISVISIBLE(i)) c = i;] over the cells [l],
    entered with [c]. *)
Definition lastvisible (s : WM) (l : list ptr) (c : option ptr) : option ptr :=
  fold_left (λ c i, if ISVISIBLE s i then Some i else c) l c.

(** [void focusstack(const Arg *arg)], for [arg->i]. ([sel] is a cell of
    the list whenever it is set; on a [sel] outside of it the second
    branch of the C code runs off the end of the list.) *)
Definition focusstack (arg : Z) (s : WM) : WM :=
  match sel s with
  | None => s
  | Some p =>
      let c :=
        if 0 <? arg then
          match find (ISVISIBLE s) (after p (clients s)) with
          | Some c => Some c
          | None => find (ISVISIBLE s) (clients s)
          end
        else
          match lastvisible s (before p (clients s)) None with
          | Some c => Some c
          | None => lastvisible s (from p (clients s)) None
          end in
      match c with
      | Some c => restack (Some c) CliRaise (focus (Some c) s)
      | None => s
      end
  end.

(** [void grabstack(const Arg *arg)] *)
Definition grabstack (arg : Z) (s : WM) : WM :=
  focusstack arg (set_ctrlmode s ZoomStack).

(** *** Actions on the selected client *)

(** [void pin(const Arg *arg)]; the border colour of the client pinned
    before is a request not modelled. *)
Definition pin (s : WM) : WM := restack (sel s) CliPin s.

(** [void zoom(const Arg *arg)] *)
Definition zoom (s : WM) : WM := arrange cfg (restack (sel s) CliZoom s).

(** [void tag(const Arg *arg)], for [arg->ui]. *)
Definition tag (arg : Z) (s : WM) : WM :=
  match sel s with
  | Some c =>
      if negb (Z.land arg (TAGMASK cfg) =? 0)
      then arrange cfg (store s c (Client.set_tags (deref s c) (Z.land arg (TAGMASK cfg))))
      else s
  | None => s
  end.

(** [void togglefloating(const Arg *arg)] *)
Definition togglefloating (s : WM) : WM :=
  let s :=
    match sel s with
    | Some c => if Client.isfullscreen (deref s c) then setfullscreen cfg c false s else s
    | None => s
    end in
  let s :=
    match sel s with
    | Some c =>
        let s := store s c (Client.set_isfloating (deref s c)
                              (negb (Client.isfloating (deref s c)))) in
        if Client.isfloating (deref s c)
        then resize cfg c (Client.fx (deref s c)) (Client.fy (deref s c))
                    (Client.fw (deref s c)) (Client.fh (deref s c)) s
        else s
    | None => s
    end in
  arrange cfg s.

(** [void togglefullscreen(const Arg *arg)] *)
Definition togglefullscreen (s : WM) : WM :=
  match sel s with
  | Some c => setfullscreen cfg c (negb (Client.isfullscreen (deref s c))) s
  | None => s
  end.

(** *** Workspaces *)

(** [void view(const Arg *arg)], for [arg->ui]; [drawbar] only draws. *)
Definition view (arg : Z) (s : WM) : WM :=
  arrange cfg (set_tagset s (Z.land arg (TAGMASK cfg))).

(** [#define TAGSHIFT(TAGS, I)
      (I < 0 ? (TAGS >> -I) | (TAGS << (tagslen + I))
             : (TAGS << I) | (TAGS >> (tagslen - I)))]
    for an [unsigned int] [TAGS] and an [int] [I]. (A shift by a negative
    count or by 32 or more is undefined in C; the value here has no
    meaning then.) *)
Definition TAGSHIFT (TAGS I : Z) : Z :=
  if I <? 0
  then Z.lor (Z.shiftr TAGS (- I)) (u32 (Z.shiftl TAGS (tagslen cfg + I)))
  else Z.lor (u32 (Z.shiftl TAGS I)) (Z.shiftr TAGS (tagslen cfg - I)).

(** [void viewshift(const Arg *arg)], for [arg->i]. *)
Definition viewshift (arg : Z) (s : WM) : WM :=
  arrange cfg (set_tagset s (TAGSHIFT (tagset s) arg)).

(** [void viewtagshift(const Arg *arg)], for [arg->i]. *)
Definition viewtagshift (arg : Z) (s : WM) : WM :=
  let s :=
    match sel s with
    | Some c => store s c (Client.set_tags (deref s c)
                             (TAGSHIFT (Client.tags (deref s c)) arg))
    | None => s
    end in
  viewshift arg s.

(** *** Requests and notifications about a window *)

(** [void configurerequest(XEvent *e)], for the window and the geometry
    of the request. A request about a window that is not managed is
    passed on to the server. *)
Definition configurerequest (w : Window) (x y width height : Z) (s : WM) : WM :=
  match wintoclient w s with
  | None => s
  | Some c =>
      if Client.isfloating (deref s c) && ISVISIBLE s c
      then resize cfg c x y width height s
      else s
  end.

(** [void clientmessage(XEvent *e)]: [isstate] is
    [message_type == xatom[NetWMState]], [action] is [data.l[0]], and
    [fullscreen] tells that [data.l[1]] or [data.l[2]] is the fullscreen
    atom. *)
Definition clientmessage (w : Window) (isstate : bool) (action : Z)
    (fullscreen : bool) (s : WM) : WM :=
  match wintoclient w s with
  | Some c =>
      if isstate && fullscreen
      then setfullscreen cfg c
             ((action =? 1)
              || ((action =? 2) && negb (Client.isfullscreen (deref s c)))) s
      else s
  | None => s
  end.

(** [void destroynotify(XEvent *e)] *)
Definition destroynotify (w : Window) (s : WM) : WM :=
  match wintoclient w s with
  | Some c => unmanage cfg c s
  | None => s
  end.

(** [void unmapnotify(XEvent *e)] *)
Definition unmapnotify (w : Window) (send_event : bool) (s : WM) : WM :=
  match wintoclient w s with
  | Some c => if negb send_event then unmanage cfg c s else s
  | None => s
  end.

(** What [propertynotify] reads of [ev->atom]: the size hints of the
    window when it is [XA_WM_NORMAL_HINTS]; whether the _NET_WM_STATE of
    the window is the fullscreen atom when it is the window type atom. *)
Inductive PropertyAtom :=
  | WMNormalHints (hints : option XSizeHints)
  | NetWMWindowType (fullscreen : bool)
  | OtherAtom.

(** [void propertynotify(XEvent *e)]; [deleted] is
    [ev->state == PropertyDelete]. ([updatestatus] only changes what the
    bar shows.) *)
Definition propertynotify (w : Window) (deleted : bool) (atom : PropertyAtom)
    (s : WM) : WM :=
  if deleted then s
  else
    match wintoclient w s with
    | None => s
    | Some c =>
        match atom with
        | WMNormalHints hints => updatesizehints c hints s
        | NetWMWindowType fullscreen =>
            if fullscreen then setfullscreen cfg c true s else s
        | OtherAtom => s
        end
    end.

(** *** The launcher flag and the bar *)

(** [void launcher(const Arg *arg)], for [arg->i]. *)
Definition launcher (arg : Z) (t : Session) : Session :=
  let t := set_barcmds t arg in
  set_wm t (restack None (if negb (barcmds t =? 0) then BarShow else BarHide) (wm t)).

(** *** Mapping a window *)

(** The start of [maprequest], for the address [c] that [calloc] returns
    (a zeroed struct):
    [attach(c); c->win = ev->window; c->isfloating = 1; c->tags = tagset;
     c->fx = wa.x; c->fy = wa.y; c->fw = wa.width; c->fh = wa.height;] *)
Definition manage (w : Window) (wa : XWindowAttributes) (c : ptr) (s : WM) : WM :=
  let s := store s c Client.zero in
  let s := attach c s in
  let s := store s c (set_win (deref s c) w) in
  let s := store s c (Client.set_isfloating (deref s c) true) in
  let s := store s c (Client.set_tags (deref s c) (tagset s)) in
  store s c (Client.set_fgeom (deref s c)
               (wa_x wa) (wa_y wa) (wa_width wa) (wa_height wa)).

(** [if (XGetTransientForHint(dpy, ev->window, &trans)
         && (t = wintoclient(trans))) c->tags = t->tags;]
    for what [XGetTransientForHint] tells. *)
Definition inherit (trans : option Window) (c : ptr) (s : WM) : WM :=
  match trans with
  | Some tw =>
      match wintoclient tw s with
      | Some p => store s c (Client.set_tags (deref s c) (Client.tags (deref s p)))
      | None => s
      end
  | None => s
  end.

(** The monitor under the pointer, for the position that [MOUSEINF]
    gives, and the remembered position moved into it:
    [if (c->fx + WIDTH(c) > mons[m].mx + mons[m].mw)
       c->fx = mons[m].mx + mons[m].mw - WIDTH(c);
     if (c->fy + HEIGHT(c) > mons[m].my + mons[m].mh)
       c->fy = mons[m].my + mons[m].mh - HEIGHT(c);
     c->fx = MAX(c->fx, mons[m].mx);
     c->bw = borderpx;] *)
Definition place (mouse : option (Z * Z)) (c : ptr) (s : WM) : WM :=
  let m :=
    match mouse with
    | Some (x, y) => scan_down cfg (INMON x y) (monslen cfg - 1)
    | None => 0%nat
    end in
  let M := mon cfg m in
  let cl := deref s c in
  let cl := if Monitor.mx M + Monitor.mw M <? Client.fx cl + WIDTH cl
            then Client.set_fgeom cl (Monitor.mx M + Monitor.mw M - WIDTH cl)
                   (Client.fy cl) (Client.fw cl) (Client.fh cl)
            else cl in
  let cl := if Monitor.my M + Monitor.mh M <? Client.fy cl + HEIGHT cl
            then Client.set_fgeom cl (Client.fx cl)
                   (Monitor.my M + Monitor.mh M - HEIGHT cl)
                   (Client.fw cl) (Client.fh cl)
            else cl in
  let cl := Client.set_fgeom cl (Z.max (Client.fx cl) (Monitor.mx M))
              (Client.fy cl) (Client.fw cl) (Client.fh cl) in
  let cl := Client.set_bw cl borderpx in
  store s c cl.

(** [void maprequest(XEvent *e)], for the window [w] of the request, what
    [XGetWindowAttributes] returns for it, the address [c] that [calloc]
    returns, what [XGetTransientForHint] tells, the pointer position that
    [MOUSEINF] gives, the size hints of the window, and whether its
    _NET_WM_STATE is the fullscreen atom. *)
Definition maprequest (w : Window) (wa : option XWindowAttributes) (c : ptr)
    (trans : option Window) (mouse : option (Z * Z))
    (hints : option XSizeHints) (fullscreen : bool) (t : Session) : Session :=
  match wa with
  | None => t
  | Some wa =>
      if wa_override_redirect wa || bool_decide (is_Some (wintoclient w (wm t))) then t
      else
        let s := manage w wa c (wm t) in
        let s := inherit trans c s in
        let s := place mouse c s in
        let s := updatesizehints c hints s in
        let s := resize cfg c (Client.fx (deref s c)) (Client.fy (deref s c))
                        (Client.fw (deref s c)) (Client.fh (deref s c)) s in
        let s := if fullscreen then setfullscreen cfg c true s else s in
        let s := restack (Some c) CliRaise s in
        let s := focus (Some c) s in
        launcher 0 (set_wm t s)
  end.

(** *** The pointer *)

(** [#define INZONE(C, X, Y)], [MOVEZONE] and [RESIZEZONE]. *)
Definition INZONE (cl : Client) (X Y : Z) : bool :=
  (Client.x cl - Client.bw cl <=? X) && (Client.y cl - Client.bw cl <=? Y)
  && (X <=? Client.x cl + WIDTH cl + Client.bw cl)
  && (Y <=? Client.y cl + HEIGHT cl + Client.bw cl).

Definition MOVEZONE (cl : Client) (X Y : Z) : bool :=
  INZONE cl X Y
  && ((Z.abs (Client.x cl - X) <=? Client.bw cl)
      || (Z.abs (Client.y cl - Y) <=? Client.bw cl)).

Definition RESIZEZONE (cl : Client) (X Y : Z) : bool :=
  INZONE cl X Y
  && ((Z.abs (Client.x cl + WIDTH cl - X) <=? Client.bw cl)
      || (Z.abs (Client.y cl + HEIGHT cl - Y) <=? Client.bw cl)).

(** [sel && (MOVEZONE(sel, X, Y) || RESIZEZONE(sel, X, Y))] *)
Definition onedge (s : WM) (X Y : Z) : bool :=
  match sel s with
  | Some c => MOVEZONE (deref s c) X Y || RESIZEZONE (deref s c) X Y
  | None => false
  end.

(** The three statements of [motion] that resize the selected client in
    a drag, for the pointer displacement [(x, y)]. *)
Definition drag (x y : Z) (s : WM) : WM :=
  let s :=
    match sel s with
    | Some c =>
        if bool_decide (ctrlmode s = DragMove)
        then resize cfg c (Client.fx (deref s c) + x) (Client.fy (deref s c) + y)
                    (Client.fw (deref s c)) (Client.fh (deref s c)) s
        else s
    | None => s
    end in
  let s :=
    match sel s with
    | Some c =>
        if bool_decide (ctrlmode s = DragSize)
        then resize cfg c (Client.fx (deref s c)) (Client.fy (deref s c))
                    (Z.max (Client.fw (deref s c) + x) 1)
                    (Z.max (Client.fh (deref s c) + y) 1) s
        else s
    | None => s
    end in
  match sel s with
  | Some c =>
      if bool_decide (ctrlmode s = DragTile)
      then resize cfg c (Client.x (deref s c)) (Client.y (deref s c))
                  (Z.max (Client.w (deref s c) + x) 1)
                  (Z.max (Client.h (deref s c) + y) 1) s
      else s
  | None => s
  end.

(** [void motion()], for what [MOUSEINF] returns ([None] when it fails)
    and whether the key [barshow] is down in what [XQueryKeymap]
    returns. *)
Definition motion (pointer : option Pointer) (barkey : bool) (t : Session) : Session :=
  match pointer with
  | None => t
  | Some p =>
      let x := p_rx p - lx t in
      let y := p_ry p - ly t in
      let t := set_last t (p_rx p) (p_ry p) in
      let s := drag x y (wm t) in
      let s := if bool_decide (ctrlmode s = WinEdge) && negb (onedge s (p_rx p) (p_ry p))
               then grabresizeabort cfg s else s in
      if bool_decide (ctrlmode s ≠ CtrlNone) then set_wm t s
      else
        let s := restack None (if barkey || negb (barcmds t =? 0) then BarShow else BarHide) s in
        let s :=
          if bool_decide (p_cw p ≠ lastcw t) then
            match wintoclient (p_cw p) s with
            | Some c => if bool_decide (Some c ≠ sel s) then focus (Some c) s else s
            | None => s
            end
          else s in
        let t := set_lastcw t (p_cw p) in
        let s := if negb (p_mask p =? 0) then s
                 else if onedge s (p_rx p) (p_ry p) then grabresize WinEdge s else s in
        set_wm t s
  end.

(** The [XI_RawKeyRelease] case of [exthandler]: [stackrelease] tells
    that the key released is the one configured as [stackrelease]. *)
Definition rawkeyrelease (stackrelease : bool) (s : WM) : WM :=
  let s := grabresizeabort cfg s in
  if bool_decide (ctrlmode s = ZoomStack) && stackrelease
  then
    let s := set_ctrlmode s CtrlNone in
    arrange cfg (restack (sel s) CliZoom s)
  else s.

(** *** The functions that the configuration binds to keys *)

(** A function of the section of functions callable from the
    configuration, with the member of [Arg] that it reads: what
    [keys[i].func] and [keys[i].arg] hold. *)
Inductive Action :=
  | FocusStack (i : Z)
  | GrabResize (i : DragMode)
  | GrabStack (i : Z)
  | KillClient
  | Launcher (i : Z)
  | Pin
  | Quit
  | Spawn
  | Tag (ui : Z)
  | ToggleFloating
  | ToggleFullscreen
  | ToggleTag (ui : Z)
  | View (ui : Z)
  | ViewShift (i : Z)
  | ViewTagShift (i : Z)
  | Zoom.

(** [keys[i].func(&(keys[i].arg))]. [killclient] and [spawn] speak to
    the server and to the system only. *)
Definition call (a : Action) (t : Session) : Session :=
  match a with
  | FocusStack i => set_wm t (focusstack i (wm t))
  | GrabResize i => set_wm t (grabresize i (wm t))
  | GrabStack i => set_wm t (grabstack i (wm t))
  | KillClient => t
  | Launcher i => launcher i t
  | Pin => set_wm t (pin (wm t))
  | Quit => set_quitting t true
  | Spawn => t
  | Tag ui => set_wm t (tag ui (wm t))
  | ToggleFloating => set_wm t (togglefloating (wm t))
  | ToggleFullscreen => set_wm t (togglefullscreen (wm t))
  | ToggleTag ui => set_wm t (toggletag cfg ui (wm t))
  | View ui => set_wm t (view ui (wm t))
  | ViewShift i => set_wm t (viewshift i (wm t))
  | ViewTagShift i => set_wm t (viewtagshift i (wm t))
  | Zoom => set_wm t (zoom (wm t))
  end.

(** Where a button is pressed: on the bar, or on another window at
    [(x, y)]. For a press on the bar with the launcher closed, [acts] are
    the functions of the [buttons] of the configuration that fit the
    place and the button pressed, in their order, each with the argument
    it is called with. *)
Inductive Click :=
  | OnBar (acts : list Action)
  | OnWindow (w : Window) (x y : Z).

(** [void buttonpress(XEvent *e)]. A press on the bar with the launcher
    open only spawns a command. *)
Definition buttonpress (click : Click) (t : Session) : Session :=
  match click with
  | OnBar acts =>
      if barcmds t =? 0 then fold_left (λ t a, call a t) acts t else t
  | OnWindow w x y =>
      let t := launcher 0 t in
      let s := wm t in
      let s :=
        match sel s, bool_decide (ctrlmode s = WinEdge) with
        | Some c, true =>
            grabresize (if MOVEZONE (deref s c) x y then DragMove else DragSize) s
        | _, _ =>
            match wintoclient w s with
            | Some c =>
                let s := focus (Some c) s in
                restack (Some c) (if Client.isfloating (deref s c) then CliZoom else CliRaise) s
            | None => s
            end
        end in
      set_wm t s
  end.

(** The loop that ends [main]:
    [while (clients) { killclient(...); unmanage(clients); }],
    for at most [n] rounds. *)
Fixpoint unmanageall (n : nat) (s : WM) : WM :=
  match n with
  | O => s
  | S n' =>
      match clients s with
      | [] => s
      | c :: _ => unmanageall n' (unmanage cfg c s)
      end
  end.

End Handlers.

(** [void exthandler(XEvent *ev)]: the events it tells apart, with what
    it reads for each of them. *)
Inductive XIEvent :=
  | XI_RawMotion (pointer : option Pointer) (barkey : bool)
  | XI_RawButtonRelease
  | XI_RawKeyRelease (stackrelease : bool)
  | RROutputChange (inf : list XRRMonitorInfo).

Definition set_mons (cfg : Config) (v : list Monitor) : Config :=
  {| mons := v; snap := snap cfg; sw := sw cfg; sh := sh cfg; tagslen := tagslen cfg |}.

Definition exthandler (ev : XIEvent) (cfg : Config) (t : Session) : Config * Session :=
  match ev with
  | XI_RawMotion pointer barkey => (cfg, motion cfg pointer barkey t)
  | XI_RawButtonRelease => (cfg, set_wm t (grabresizeabort cfg (wm t)))
  | RROutputChange inf => (set_mons cfg (updatemonitors inf (mons cfg)), t)
  | XI_RawKeyRelease stackrelease => (cfg, set_wm t (rawkeyrelease cfg stackrelease (wm t)))
  end.

(** *** The event loop *)

(** An event that has a handler in [handler], with what the handler
    reads. ([Expose] and [MappingNotify] only draw the bar and grab the
    keys again.) A [KeyPress] is the press of a key that has a binding
    in [keys]: [keypress] calls the function bound and returns. *)
Inductive XEvent :=
  | ButtonPress (click : Click)
  | ClientMessage (w : Window) (isstate : bool) (action : Z) (fullscreen : bool)
  | ConfigureRequest (w : Window) (x y width height : Z)
  | DestroyNotify (w : Window)
  | GenericEvent (ev : XIEvent)
  | KeyPress (a : Action)
  | MapRequest (w : Window) (wa : option XWindowAttributes) (c : ptr)
      (trans : option Window) (mouse : option (Z * Z)) (hints : option XSizeHints)
      (fullscreen : bool)
  | PropertyNotify (w : Window) (deleted : bool) (atom : PropertyAtom)
  | UnmapNotify (w : Window) (send_event : bool).

(** [handler[ev.type](&ev)] *)
Definition handle (borderpx : Z) (ev : XEvent) (cfg : Config) (t : Session)
  : Config * Session :=
  match ev with
  | ButtonPress click => (cfg, buttonpress cfg click t)
  | ClientMessage w isstate action fullscreen =>
      (cfg, set_wm t (clientmessage cfg w isstate action fullscreen (wm t)))
  | ConfigureRequest w x y width height =>
      (cfg, set_wm t (configurerequest cfg w x y width height (wm t)))
  | DestroyNotify w => (cfg, set_wm t (destroynotify cfg w (wm t)))
  | GenericEvent ev => exthandler ev cfg t
  | KeyPress a => (cfg, call cfg a t)
  | MapRequest w wa c trans mouse hints fullscreen =>
      (cfg, maprequest cfg borderpx w wa c trans mouse hints fullscreen t)
  | PropertyNotify w deleted atom =>
      (cfg, set_wm t (propertynotify cfg w deleted atom (wm t)))
  | UnmapNotify w send_event => (cfg, set_wm t (unmapnotify cfg w send_event (wm t)))
  end.

(** The main event loop,
    [while (!end && !XNextEvent(dpy, &ev)) if (handler[ev.type]) ...],
    over the events that [XNextEvent] delivers. *)
Fixpoint run (borderpx : Z) (evs : list XEvent) (cfg : Config) (t : Session)
  : Config * Session :=
  match evs with
  | [] => (cfg, t)
  | ev :: evs' =>
      if quitting t then (cfg, t)
      else let '(cfg', t') := handle borderpx ev cfg t in run borderpx evs' cfg' t'
  end.

(** What [main] does after the loop:
    [view(&(Arg){.ui = ~0}); while (clients) { ...; unmanage(clients); }],
    the second loop for as many rounds as there are clients. *)
Definition cleanup (cfg : Config) (s : WM) : WM :=
  let s := view cfg (2 ^ 32 - 1) s in
  unmanageall cfg (length (clients s)) s.

(** ** Notions used to state the properties *)

#[global] Instance Rect_eq_dec : EqDecision Rect.
Proof. solve_decision. Defined.

Section Notions.

Variable cfg : Config.

(** The geometry [(x, y, w, h)] of a client. *)
Definition geometry (cl : Client) : Rect :=
  {| rx := Client.x cl; ry := Client.y cl; rw := Client.w cl; rh := Client.h cl |}.

(** The rectangle a client covers on screen, border included. *)
Definition outline (cl : Client) : Rect :=
  {| rx := Client.x cl; ry := Client.y cl; rw := WIDTH cl; rh := HEIGHT cl |}.

(** The windows of a list of clients. *)
Definition windows (s : WM) (l : list ptr) : list Window :=
  map (fun c => Client.win (deref s c)) l.

(** The clients of layer [l] in list order, the pinned and the raised
    client apart. *)
Definition layerclients (s : WM) (l : Z) : list ptr :=
  List.filter
    (fun c => bool_decide (Some c ≠ pinned s) && bool_decide (Some c ≠ raised s)
              && (layer (deref s c) =? l))
    (clients s).

(** The stacking order from the top: pinned, raised, then the floating,
    the tiled and the fullscreen layer. *)
Definition stackorder (s : WM) : list ptr :=
  option_list (pinned s) ++ option_list (raised s)
  ++ layerclients s 0 ++ layerclients s 1 ++ layerclients s 2.

(** [restack] returns before it stacks anything: a bar action that asks
    for the state the bar is in. *)
Definition barunchanged (mode : StackAction) (s : WM) : Prop :=
  (mode = BarShow ∧ barfocus s = true) ∨ (mode = BarHide ∧ barfocus s = false).

(** The struct that [resize] leaves at [c], from the struct it finds. *)
Definition resized (cl : Client) (x y w h : Z) : Client :=
  let r := fit cfg cl x y w h in
  let floats := Client.isfloating cl && negb (Client.isfullscreen cl) in
  let cl1 := if floats then Client.set_fgeom cl (rx r) (ry r) (rw r) (rh r) else cl in
  let r := hinted cl (if floats then snapped cfg cl r else r) in
  Client.set_geom cl1 (rx r) (ry r) (rw r) (rh r).

End Notions.

(** *** The regions of the tiling *)

Section Regions.

Variable cfg : Config.

(** [c] is a tiled client of monitor [m]. *)
Definition ontile (s : WM) (m : nat) (c : ptr) : bool :=
  istiled s c && bool_decide (monof cfg (deref s c) = m).

(** The tiled clients of monitor [m] in list order; the first [nmain[m]]
    of them make the main region, the others the secondary region. *)
Definition tiledon (s : WM) (m : nat) : list ptr :=
  List.filter (ontile s m) (clients s).

Definition mainregion (s : WM) (m : nat) : list ptr :=
  take (Z.to_nat (nmain s !!! m)) (tiledon s m).

Definition secondregion (s : WM) (m : nat) : list ptr :=
  drop (Z.to_nat (nmain s !!! m)) (tiledon s m).

(** The sum of the heights, borders included, of the clients of [l]. *)
Definition sumheights (s : WM) (l : list ptr) : Z :=
  foldr (λ c acc, HEIGHT (deref s c) + acc) 0 l.

(** No size hint of the client bears on its height: no aspect bounds, no
    minimum height above 1, no maximum height. *)
Definition heightfree (cl : Client) : Prop :=
  fgt (Client.mina cl) fzero && fgt (Client.maxa cl) fzero = false
  ∧ Client.minh cl ≤ 1
  ∧ Client.maxh cl = 0.

(** Every client of [region] is free of height hints, and an equal share
    of the height [R] holds its border and a window one pixel high. *)
Definition fits (s : WM) (R : Z) (region : list ptr) : Prop :=
  Forall
    (λ c, heightfree (deref s c)
          ∧ 0 ≤ Client.bw (deref s c)
          ∧ 1 + 2 * Client.bw (deref s c) ≤ R / Z.of_nat (length region))
    region.

#[global] Instance heightfree_dec (cl : Client) : Decision (heightfree cl).
Proof. unfold heightfree. apply _. Defined.

#[global] Instance fits_dec (s : WM) (R : Z) (region : list ptr) :
  Decision (fits s R region).
Proof. unfold fits. apply _. Defined.

End Regions.

(** Neither the selection nor the pinned reference nor the client list
    leads to [c]. *)
Definition forgotten (c : ptr) (s : WM) : Prop :=
  sel s ≠ Some c ∧ pinned s ≠ Some c ∧ c ∉ clients s.

(** Everything of a state but its heap. *)
Definition shell (s : WM) : WM := set_heap s ∅.

(** The variables that [arrange] only reads. *)
Definition settings (s : WM) :=
  (pinned s, barfocus s, ctrlmode s, tagset s, mfact s, nmain s, pointergrab s).

(** A client but for its geometry and remembered geometry. *)
Definition ungeom (cl : Client) : Client :=
  Client.set_fgeom (Client.set_geom cl 0 0 0 0) 0 0 0 0.

(** ** Scenarios *)

Module Scenario.

(** One monitor of 1920 x 1080 at the origin, and the values of
    [defaultconfig]: [snap] 8, nine workspaces. *)
Definition cfg : Config :=
  {| mons := [ {| Monitor.mx := 0; Monitor.my := 0;
                  Monitor.mw := 1920; Monitor.mh := 1080 |} ];
     snap := 8; sw := 1920; sh := 1080; tagslen := 9 |}.

(** A client on workspace 1 with border 1 ([borderpx]) and no size hints,
    as [maprequest] and [updatesizehints] leave it, which remembers the
    floating geometry (100, 100, 300, 200). *)
Definition client (wid : Window) (floating : bool) : Client :=
  {| Client.mina := S754_zero false; Client.maxa := S754_zero false;
     Client.x := 100; Client.y := 100; Client.w := 300; Client.h := 200;
     Client.fx := 100; Client.fy := 100; Client.fw := 300; Client.fh := 200;
     Client.basew := 0; Client.baseh := 0; Client.maxw := 0; Client.maxh := 0;
     Client.minw := 0; Client.minh := 0; Client.bw := 1; Client.fbw := 0;
     Client.isfloating := floating; Client.fstate := false;
     Client.isfullscreen := false; Client.tags := 1; Client.win := wid |}.

(** Three clients, by address. *)
Definition A : ptr := 1%positive.
Definition B : ptr := 2%positive.
Definition C : ptr := 3%positive.

(** No client managed yet; workspace 1 shown; [mfact] 0.6 and [nmain] 1
    for the monitor. *)
Definition blank (h : gmap ptr Client) : WM :=
  {| heap := h; clients := []; pinned := None; raised := None; sel := None;
     barfocus := false; ctrlmode := CtrlNone; tagset := 1;
     mfact := [f32_of_f64 d0_6]; nmain := [1];
     netclistack := []; pointergrab := false |}.

(** Three tiled clients with border [b] added in the order A, B, C. *)
Definition added3 (b : Z) : WM :=
  attach C (attach B (attach A
    (blank (<[A := Client.set_bw (client 101 false) b]>
            (<[B := Client.set_bw (client 102 false) b]>
            (<[C := Client.set_bw (client 103 false) b]> ∅)))))).

(** The three clients arranged. *)
Definition tiled3b (b : Z) : WM := arrange cfg (added3 b).

(** The same with the border of [defaultconfig]. *)
Definition tiled3 : WM := tiled3b 1.


(** Two floating clients A and B and a tiled client C; A is pinned, then
    B is raised. *)
Definition pinraise : WM :=
  restack (Some B) CliRaise
    (restack (Some A) CliPin
       (attach C (attach B (attach A
          (blank (<[A := client 101 true]> (<[B := client 102 true]>
                  (<[C := client 103 false]> ∅)))))))).

(** A floating client as [maprequest] places it: attached, then resized
    to the geometry it asked for. *)
Definition floating1 : WM :=
  resize cfg A 100 100 300 200 (attach A (blank (<[A := client 101 true]> ∅))).

(** A floating client whose hints ask for a square window: aspect
    bounds 1/1 and 1/1, as [updatesizehints] stores them. *)
Definition square : Client :=
  {| Client.mina := f32_div (f32_of_int 1) (f32_of_int 1);
     Client.maxa := f32_div (f32_of_int 1) (f32_of_int 1);
     Client.x := 100; Client.y := 100; Client.w := 300; Client.h := 200;
     Client.fx := 100; Client.fy := 100; Client.fw := 300; Client.fh := 200;
     Client.basew := 0; Client.baseh := 0; Client.maxw := 0; Client.maxh := 0;
     Client.minw := 0; Client.minh := 0; Client.bw := 1; Client.fbw := 0;
     Client.isfloating := true; Client.fstate := false;
     Client.isfullscreen := false; Client.tags := 1; Client.win := 104 |}.

(** A fullscreen client that declares a minimum width of 3000. *)
Definition widemin : WM :=
  attach A
    (blank (<[A := {| Client.mina := S754_zero false; Client.maxa := S754_zero false;
                     Client.x := 0; Client.y := 0; Client.w := 1920; Client.h := 1080;
                     Client.fx := 100; Client.fy := 100; Client.fw := 300; Client.fh := 200;
                     Client.basew := 0; Client.baseh := 0;
                     Client.maxw := 0; Client.maxh := 0;
                     Client.minw := 3000; Client.minh := 0;
                     Client.bw := 0; Client.fbw := 1;
                     Client.isfloating := true; Client.fstate := true;
                     Client.isfullscreen := true; Client.tags := 1;
                     Client.win := 101 |}]> ∅)).

End Scenario.

(** The layout of the tiling scenario for border width [b], as a
    property of the arranged state [s]. *)
Definition tiled3_spec (s : WM) (b : Z) : Prop :=
  clients s = [Scenario.C; Scenario.B; Scenario.A]
  ∧ geometry (deref s Scenario.C)
    = {| rx := 0; ry := 0; rw := 1152 - 2 * b; rh := 1080 - 2 * b |}
  ∧ geometry (deref s Scenario.B)
    = {| rx := 1152; ry := 0; rw := 768 - 2 * b; rh := 540 - 2 * b |}
  ∧ geometry (deref s Scenario.A)
    = {| rx := 1152; ry := 540; rw := 768 - 2 * b; rh := 540 - 2 * b |}
  ∧ outline (deref s Scenario.C) = {| rx := 0; ry := 0; rw := 1152; rh := 1080 |}
  ∧ outline (deref s Scenario.B) = {| rx := 1152; ry := 0; rw := 768; rh := 540 |}
  ∧ outline (deref s Scenario.A) = {| rx := 1152; ry := 540; rw := 768; rh := 540 |}.

#[global] Instance tiled3_spec_dec (s : WM) (b : Z) : Decision (tiled3_spec s b).
Proof. unfold tiled3_spec. apply _. Defined.

Definition tiled3_check (b : Z) : bool :=
  bool_decide (tiled3_spec (Scenario.tiled3b b) b).

(** ** Notions for the handlers and actions *)

(** The references of the state lead to allocated cells of the list: the
    list has no repetition, every client of it is allocated, and [sel],
    [pinned] and [raised] are clients of the list when they are set. *)
Definition linked (s : WM) : Prop :=
  NoDup (clients s)
  ∧ (∀ c, c ∈ clients s → is_Some (heap s !! c))
  ∧ (∀ c, sel s = Some c → c ∈ clients s)
  ∧ (∀ c, pinned s = Some c → c ∈ clients s)
  ∧ (∀ c, raised s = Some c → c ∈ clients s).

(** The clients of the list have different windows. *)
Definition distinctwindows (s : WM) : Prop :=
  NoDup (windows s (clients s)).

(** [restack] leaves the list in its order: nothing is pinned, or the
    pinned client is not floating, or it heads the list already. *)
Definition settled (s : WM) : Prop :=
  match pinned s with
  | Some p => Client.isfloating (deref s p) = false ∨ head (clients s) = Some p
  | None => True
  end.

(** A workspace mask as [TAGSHIFT] leaves it: an [unsigned int] in which
    every bit set at or above [n] repeats a bit set below [n], [n] places
    or a multiple of it lower. *)
Definition wrapped (n : Z) (t : Z) : Prop :=
  0 ≤ t < 2 ^ 32
  ∧ ∀ b, 0 ≤ b → Z.testbit t b = true → Z.testbit t (b mod n) = true.

(** The list after a restacking: the pinned client, when it floats,
    heads it. *)
Definition lifted (s : WM) : list ptr :=
  match pinned s with
  | Some p => if Client.isfloating (deref s p)
              then p :: unlink p (clients s) else clients s
  | None => clients s
  end.


(** The client that [focusstack] moves the selection to, from the
    selected client [p]. *)
Definition cycled (arg : Z) (s : WM) (p : ptr) : option ptr :=
  if 0 <? arg then
    match find (ISVISIBLE s) (after p (clients s)) with
    | Some c => Some c
    | None => find (ISVISIBLE s) (clients s)
    end
  else
    match lastvisible s (before p (clients s)) None with
    | Some c => Some c
    | None => lastvisible s (from p (clients s)) None
    end.

#[global] Instance linked_dec (s : WM) : Decision (linked s).
Proof.
  destruct (decide
    (NoDup (clients s)
     ∧ Forall (λ c, is_Some (heap s !! c)) (clients s)
     ∧ Forall (λ c, c ∈ clients s) (option_list (sel s))
     ∧ Forall (λ c, c ∈ clients s) (option_list (pinned s))
     ∧ Forall (λ c, c ∈ clients s) (option_list (raised s))))
    as [(H1 & H2 & H3 & H4 & H5)|n]; [left|right].
  - split; [done|]. split; [by apply Forall_forall|].
    split; [intros c Hc; rewrite Hc in H3; by inversion H3|].
    split; [intros c Hc; rewrite Hc in H4; by inversion H4|].
    intros c Hc; rewrite Hc in H5; by inversion H5.
  - intros (H1 & H2 & H3 & H4 & H5). apply n.
    split; [done|]. split; [by apply Forall_forall|].
    split; [destruct (sel s); cbn; auto|].
    split; [destruct (pinned s); cbn; auto|].
    destruct (raised s); cbn; auto.
Defined.

(** The remembered floating geometry [(fx, fy, fw, fh)] of a client. *)
Definition remembered (cl : Client) : Rect :=
  {| rx := Client.fx cl; ry := Client.fy cl; rw := Client.fw cl; rh := Client.fh cl |}.

(** [s'] has the clients of [s], in whatever order, with the windows
    they had, its references are within its list, and no struct is
    allocated in it that was not in [s]. *)
Definition kept (s s' : WM) : Prop :=
  linked s'
  ∧ clients s' ≡ₚ clients s
  ∧ (∀ q, Client.win (deref s' q) = Client.win (deref s q))
  ∧ ∀ q, heap s !! q = None → heap s' !! q = None.

(** Every struct allocated is a client of the list: none is lost. *)
Definition tight (s : WM) : Prop :=
  ∀ c, is_Some (heap s !! c) → c ∈ clients s.

#[global] Instance tight_dec (s : WM) : Decision (tight s).
Proof.
  destruct (decide (map_Forall (λ c _, c ∈ clients s) (heap s))) as [H|H]; [left|right].
  - intros c [v Hv]. by apply (H c v).
  - intros Ht. apply H. intros c v Hv. apply Ht. by exists v.
Defined.

Module Scenes.

(** The session around [Scenario.tiled3]: launcher closed, pointer last
    seen at the origin over no window. *)
Definition session : Session :=
  {| wm := Scenario.tiled3; barcmds := 0; lx := 0; ly := 0; lastcw := 0;
     quitting := false |}.

(** What [XGetWindowAttributes] tells of a new window of 400 x 300 at
    (50, 60). *)
Definition attrs : XWindowAttributes :=
  {| wa_x := 50; wa_y := 60; wa_width := 400; wa_height := 300;
     wa_override_redirect := false |}.

(** A fourth client, by address. *)
Definition D : ptr := 4%positive.

(** The session after a window 104 is mapped, with the pointer on the
    monitor, no hints, not transient and not fullscreen. *)
Definition mapped : Session :=
  maprequest Scenario.cfg 1 104 (Some attrs) D None (Some (10, 10)) None false session.

End Scenes.

(** The invariant of the event loop: the references of the state are
    within the list, the clients have different windows, and every
    struct allocated is a client of the list. *)
Definition sound (s : WM) : Prop := linked s ∧ distinctwindows s ∧ tight s.

#[global] Instance sound_dec (s : WM) : Decision (sound s).
Proof. unfold sound, distinctwindows. apply _. Defined.

(** The address that [calloc] returns to [maprequest] is not in use. *)
Definition allocfresh (ev : XEvent) (s : WM) : Prop :=
  match ev with
  | MapRequest _ _ c _ _ _ _ => heap s !! c = None
  | _ => True
  end.

(** The same for every event of a run of the event loop. *)
Fixpoint allocsfresh (borderpx : Z) (evs : list XEvent) (cfg : Config) (t : Session)
  : Prop :=
  match evs with
  | [] => True
  | ev :: evs' =>
      if quitting t then True
      else allocfresh ev (wm t)
           ∧ allocsfresh borderpx evs' (handle borderpx ev cfg t).1
               (handle borderpx ev cfg t).2
  end.

(** The event changes which windows are managed. *)
Definition manages (ev : XEvent) : bool :=
  match ev with
  | MapRequest _ _ _ _ _ _ _ | DestroyNotify _ | UnmapNotify _ _ => true
  | _ => false
  end.

(** * Properties *)

(** ** The arithmetic of the model on the values of the source *)

(** The [float] that [mfact] holds by default, 0.6 rounded twice. *)
Example mfact_default : f32_of_f64 d0_6 = S754_finite false 10066330 (-24).
Proof. vm_compute. reflexivity. Qed.

(** [mons[m].mw * mfact[m]] for a monitor 1920 wide. *)
Example mainwidth_default :
  int_of_float (f32_mul (f32_of_int 1920) (f32_of_f64 d0_6)) = 1152.
Proof. vm_compute. reflexivity. Qed.

(** A window held square by its aspect hints, asked to be 300 x 100,
    becomes 100 x 100: the width follows the height. *)
Example resize_square :
  let s := attach Scenario.A (Scenario.blank (<[Scenario.A := Scenario.square]> ∅)) in
  geometry (deref (resize Scenario.cfg Scenario.A 200 200 300 100 s) Scenario.A)
  = {| rx := 200; ry := 200; rw := 100; rh := 100 |}.
Proof. vm_compute. reflexivity. Qed.

(** A floating window dropped within [snap] pixels of the monitor's
    corner snaps to it. *)
Example resize_snaps :
  geometry (deref (resize Scenario.cfg Scenario.A 3 5 300 200 Scenario.floating1)
              Scenario.A)
  = {| rx := 0; ry := 0; rw := 300; rh := 200 |}.
Proof. vm_compute. reflexivity. Qed.

(** ** The heap and the fields the functions leave alone *)

Lemma deref_store (s : WM) (c : ptr) (v : Client) : deref (store s c v) c = v.
Proof. unfold deref, store. simpl. apply lookup_total_insert_eq. Qed.

Lemma deref_store_ne (s : WM) (c c' : ptr) (v : Client) :
  c ≠ c' → deref (store s c v) c' = deref s c'.
Proof. intros Hne. unfold deref, store. simpl. by apply lookup_total_insert_ne. Qed.


Section Frames.

Variable cfg : Config.

Lemma heap_liftpinned (s : WM) : heap (liftpinned s) = heap s.
Proof.
  unfold liftpinned. destruct (pinned s) as [p|]; [|done].
  by destruct (Client.isfloating (deref s p)).
Qed.

Lemma deref_liftpinned (s : WM) (c : ptr) : deref (liftpinned s) c = deref s c.
Proof. unfold deref. by rewrite heap_liftpinned. Qed.

Lemma heap_stackwindows (s : WM) : heap (stackwindows s) = heap s.
Proof. unfold stackwindows. simpl. apply heap_liftpinned. Qed.

Lemma deref_stackwindows (s : WM) (c : ptr) : deref (stackwindows s) c = deref s c.
Proof. unfold deref. by rewrite heap_stackwindows. Qed.

Lemma sel_liftpinned (s : WM) : sel (liftpinned s) = sel s.
Proof.
  unfold liftpinned. destruct (pinned s) as [p|]; [|done].
  by destruct (Client.isfloating (deref s p)).
Qed.

Lemma pinned_liftpinned (s : WM) : pinned (liftpinned s) = pinned s.
Proof.
  unfold liftpinned. destruct (pinned s) as [p|] eqn:E; [|by rewrite E].
  destruct (Client.isfloating (deref s p)); simpl; by rewrite ?E.
Qed.

Lemma raised_liftpinned (s : WM) : raised (liftpinned s) = raised s.
Proof.
  unfold liftpinned. destruct (pinned s) as [p|]; [|done].
  by destruct (Client.isfloating (deref s p)).
Qed.

Lemma tagset_liftpinned (s : WM) : tagset (liftpinned s) = tagset s.
Proof.
  unfold liftpinned. destruct (pinned s) as [p|]; [|done].
  by destruct (Client.isfloating (deref s p)).
Qed.

Lemma sel_stackwindows (s : WM) : sel (stackwindows s) = sel s.
Proof. unfold stackwindows. simpl. apply sel_liftpinned. Qed.

Lemma pinned_stackwindows (s : WM) : pinned (stackwindows s) = pinned s.
Proof. unfold stackwindows. simpl. apply pinned_liftpinned. Qed.

Lemma raised_stackwindows (s : WM) : raised (stackwindows s) = raised s.
Proof. unfold stackwindows. simpl. apply raised_liftpinned. Qed.

Lemma tagset_stackwindows (s : WM) : tagset (stackwindows s) = tagset s.
Proof. unfold stackwindows. simpl. apply tagset_liftpinned. Qed.

Lemma ISVISIBLE_stackwindows (s : WM) (c : ptr) :
  ISVISIBLE (stackwindows s) c = ISVISIBLE s c.
Proof. unfold ISVISIBLE. by rewrite deref_stackwindows, tagset_stackwindows. Qed.

Lemma heap_focus (c : option ptr) (s : WM) : heap (focus c s) = heap s.
Proof. unfold focus. by rewrite heap_stackwindows. Qed.

Lemma heap_restack (c : option ptr) (mode : StackAction) (s : WM) :
  heap (restack c mode s) = heap s.
Proof.
  unfold restack. destruct mode; rewrite ?heap_stackwindows; try done.
  - by destruct c.
  - by destruct c.
  - case_bool_decide; [done|]. by rewrite heap_stackwindows, heap_focus.
  - case_bool_decide; [done|]. by rewrite heap_stackwindows, heap_focus.
Qed.

End Frames.

(** ** resize *)

Section Resize.

Variable cfg : Config.

Lemma set_geom_same (cl : Client) :
  Client.set_geom cl (Client.x cl) (Client.y cl) (Client.w cl) (Client.h cl) = cl.
Proof. by destruct cl. Qed.

Lemma shell_resize (c : ptr) (x0 y0 w0 h0 : Z) (s : WM) :
  shell (resize cfg c x0 y0 w0 h0 s) = shell s.
Proof.
  unfold resize.
  destruct (Client.isfloating (deref s c) && negb (Client.isfullscreen (deref s c)));
    simpl; match goal with |- context [if ?b then _ else _] => destruct b end; done.
Qed.

Lemma deref_resize_ne (c c' : ptr) (x0 y0 w0 h0 : Z) (s : WM) :
  c ≠ c' → deref (resize cfg c x0 y0 w0 h0 s) c' = deref s c'.
Proof.
  intros Hne. unfold resize.
  destruct (Client.isfloating (deref s c) && negb (Client.isfullscreen (deref s c)));
    simpl; match goal with |- context [if ?b then _ else _] => destruct b end;
    rewrite ?deref_store_ne by done; done.
Qed.

Lemma deref_resize (c : ptr) (x0 y0 w0 h0 : Z) (s : WM) :
  deref (resize cfg c x0 y0 w0 h0 s) c = resized cfg (deref s c) x0 y0 w0 h0.
Proof.
  unfold resize, resized. cbv zeta.
  set (cl := deref s c). set (r := fit cfg cl x0 y0 w0 h0).
  destruct (Client.isfloating cl && negb (Client.isfullscreen cl)); cbv beta iota.
  - set (r' := hinted cl (snapped cfg cl r)).
    destruct (negb (rx r' =? Client.x cl) || negb (ry r' =? Client.y cl)
              || negb (rw r' =? Client.w cl) || negb (rh r' =? Client.h cl)) eqn:E.
    + by rewrite !deref_store.
    + rewrite deref_store.
      apply orb_false_elim in E as [E E4]. apply orb_false_elim in E as [E E3].
      apply orb_false_elim in E as [E1 E2].
      apply negb_false_iff, Z.eqb_eq in E1, E2, E3, E4.
      rewrite E1, E2, E3, E4. by destruct cl.
  - set (r' := hinted cl r).
    destruct (negb (rx r' =? Client.x cl) || negb (ry r' =? Client.y cl)
              || negb (rw r' =? Client.w cl) || negb (rh r' =? Client.h cl)) eqn:E.
    + by rewrite deref_store.
    + apply orb_false_elim in E as [E E4]. apply orb_false_elim in E as [E E3].
      apply orb_false_elim in E as [E1 E2].
      apply negb_false_iff, Z.eqb_eq in E1, E2, E3, E4.
      rewrite E1, E2, E3, E4. fold cl. by destruct cl.
Qed.

Lemma ungeom_resized (cl : Client) (x0 y0 w0 h0 : Z) :
  ungeom (resized cfg cl x0 y0 w0 h0) = ungeom cl.
Proof.
  unfold resized.
  by destruct (Client.isfloating cl && negb (Client.isfullscreen cl)).
Qed.

Lemma ungeom_resize (c c' : ptr) (x0 y0 w0 h0 : Z) (s : WM) :
  ungeom (deref (resize cfg c x0 y0 w0 h0 s) c') = ungeom (deref s c').
Proof.
  destruct (decide (c = c')) as [->|Hne].
  - rewrite deref_resize. apply ungeom_resized.
  - by rewrite deref_resize_ne.
Qed.

End Resize.

(** ** The tiling loop, field by field *)

Section TilingFrames.

Variable cfg : Config.

Lemma shell_fields (s1 s2 : WM) :
  shell s1 = shell s2 →
  clients s1 = clients s2 ∧ pinned s1 = pinned s2 ∧ raised s1 = raised s2
  ∧ sel s1 = sel s2 ∧ barfocus s1 = barfocus s2 ∧ ctrlmode s1 = ctrlmode s2
  ∧ tagset s1 = tagset s2 ∧ mfact s1 = mfact s2 ∧ nmain s1 = nmain s2
  ∧ netclistack s1 = netclistack s2 ∧ pointergrab s1 = pointergrab s2.
Proof. unfold shell, set_heap. intros H. injection H. auto 20. Qed.

Lemma shell_tile (nm : list Z) (st : Tiling) (c : ptr) :
  shell (t_wm (tile cfg nm st c)) = shell (t_wm st).
Proof.
  unfold tile. cbv zeta.
  destruct (istiled (t_wm st) c); [|done].
  match goal with |- context [if ?b then _ else _] => destruct b end;
    cbn [t_wm]; apply shell_resize.
Qed.

Lemma deref_tile_ne (nm : list Z) (st : Tiling) (c c' : ptr) :
  c ≠ c' → deref (t_wm (tile cfg nm st c)) c' = deref (t_wm st) c'.
Proof.
  intros Hne. unfold tile. cbv zeta.
  destruct (istiled (t_wm st) c); [|done].
  match goal with |- context [if ?b then _ else _] => destruct b end;
    cbn [t_wm]; by apply deref_resize_ne.
Qed.

Lemma ungeom_tile (nm : list Z) (st : Tiling) (c c' : ptr) :
  ungeom (deref (t_wm (tile cfg nm st c)) c') = ungeom (deref (t_wm st) c').
Proof.
  unfold tile. cbv zeta.
  destruct (istiled (t_wm st) c); [|done].
  match goal with |- context [if ?b then _ else _] => destruct b end;
    cbn [t_wm]; apply ungeom_resize.
Qed.

Lemma tile_untiled (nm : list Z) (st : Tiling) (c : ptr) :
  istiled (t_wm st) c = false → tile cfg nm st c = st.
Proof. intros H. unfold tile. cbv zeta. by rewrite H. Qed.

Lemma shell_tiles (nm : list Z) (l : list ptr) (st : Tiling) :
  shell (t_wm (fold_left (tile cfg nm) l st)) = shell (t_wm st).
Proof.
  revert st. induction l as [|c l IH]; intros st; [done|].
  cbn [fold_left]. by rewrite IH, shell_tile.
Qed.

Lemma ungeom_tiles (nm : list Z) (l : list ptr) (st : Tiling) (c' : ptr) :
  ungeom (deref (t_wm (fold_left (tile cfg nm) l st)) c') = ungeom (deref (t_wm st) c').
Proof.
  revert st. induction l as [|c l IH]; intros st; [done|].
  cbn [fold_left]. by rewrite IH, ungeom_tile.
Qed.

Lemma deref_tiles_notin (nm : list Z) (l : list ptr) (st : Tiling) (c' : ptr) :
  c' ∉ l → deref (t_wm (fold_left (tile cfg nm) l st)) c' = deref (t_wm st) c'.
Proof.
  revert st. induction l as [|c l IH]; intros st Hnotin; [done|].
  apply not_elem_of_cons in Hnotin as [Hne Hnotin].
  cbn [fold_left]. rewrite IH by done. by apply deref_tile_ne.
Qed.

(** A floating client is not touched by the tiling loop. *)
Lemma deref_tiles_floating (nm : list Z) (l : list ptr) (st : Tiling) (c' : ptr) :
  Client.isfloating (deref (t_wm st) c') = true →
  deref (t_wm (fold_left (tile cfg nm) l st)) c' = deref (t_wm st) c'.
Proof.
  revert st. induction l as [|c l IH]; intros st Hfl; [done|].
  cbn [fold_left].
  destruct (decide (c = c')) as [->|Hne].
  - rewrite tile_untiled; [by apply IH|].
    unfold istiled. by rewrite Hfl.
  - rewrite IH.
    + by apply deref_tile_ne.
    + by rewrite deref_tile_ne.
Qed.

Lemma shell_stackwindows (s : WM) :
  ∃ L P, stackwindows s = set_netclistack (set_clients s L) P.
Proof.
  unfold stackwindows, liftpinned. cbv zeta.
  destruct (pinned s) as [p|] eqn:Ep.
  - destruct (Client.isfloating (deref s p)).
    + eexists (p :: unlink p (clients s)), _. unfold attach, detach.
      cbn. rewrite Ep. reflexivity.
    + eexists (clients s), _. rewrite Ep. destruct s; reflexivity.
  - eexists (clients s), _. rewrite Ep. destruct s; reflexivity.
Qed.

Lemma deref_restack (c : option ptr) (mode : StackAction) (s : WM) (c' : ptr) :
  deref (restack c mode s) c' = deref s c'.
Proof. unfold deref. by rewrite heap_restack. Qed.

Lemma deref_focus (c : option ptr) (s : WM) (c' : ptr) :
  deref (focus c s) c' = deref s c'.
Proof. unfold deref. by rewrite heap_focus. Qed.

(** [arrange] changes no field of a client but its geometry. *)
Lemma ungeom_arrange (s : WM) (c : ptr) :
  ungeom (deref (arrange cfg s) c) = ungeom (deref s c).
Proof.
  unfold arrange. cbv zeta. rewrite deref_restack.
  unfold tileall. rewrite ungeom_tiles. cbn [t_wm].
  by rewrite deref_focus.
Qed.

(** [arrange] leaves a floating client as it is. *)
Lemma deref_arrange_floating (s : WM) (c : ptr) :
  Client.isfloating (deref s c) = true → deref (arrange cfg s) c = deref s c.
Proof.
  intros Hfl. unfold arrange. cbv zeta. rewrite deref_restack.
  unfold tileall. rewrite deref_tiles_floating; cbn [t_wm]; by rewrite deref_focus.
Qed.

Lemma tagset_arrange (s : WM) : tagset (arrange cfg s) = tagset s.
Proof.
  unfold arrange. cbv zeta.
  set (s1 := tileall cfg (focus None s)).
  assert (tagset s1 = tagset s) as <-.
  { unfold s1, tileall.
    pose proof (shell_tiles (counttiled cfg (focus None s)) (clients (focus None s))
      {| t_wm := focus None s; t_i := replicate 32 0; t_my := replicate 32 0;
         t_ty := replicate 32 0 |}) as H%shell_fields.
    cbn [t_wm] in H. destruct H as (_&_&_&_&_&_&->&_).
    unfold focus. by rewrite tagset_stackwindows. }
  unfold restack. by rewrite tagset_stackwindows.
Qed.

End TilingFrames.

(** ** The drag entry, removal, focus, workspaces *)

(** C9. Entering the Move drag ([grabresize] with [DragMove]) with no
    selected client, with a fullscreen selected client, or with a selected
    client that is not floating, changes nothing: the drag mode, the
    pointer grab and every other part of the state are as before. *)
Theorem grabresize_move_noop (s : WM) :
  (sel s = None
   ∨ ∃ c, sel s = Some c
          ∧ (Client.isfullscreen (deref s c) = true
             ∨ Client.isfloating (deref s c) = false)) →
  grabresize DragMove s = s.
Proof.
  intros H. unfold grabresize.
  case_bool_decide; [done|].
  destruct H as [->|(c & -> & [Hfs|Hfl])]; [done| |].
  - by rewrite Hfs.
  - rewrite Hfl. by rewrite orb_true_r.
Qed.

Lemma grabresize_move_noop_witness :
  sel Scenario.tiled3 = Some Scenario.C
  ∧ Client.isfloating (deref Scenario.tiled3 Scenario.C) = false
  ∧ grabresize DragMove Scenario.tiled3 = Scenario.tiled3.
Proof.
  split; [vm_compute; reflexivity|]. split; [vm_compute; reflexivity|].
  apply grabresize_move_noop. right. exists Scenario.C.
  split; [vm_compute; reflexivity|]. right. vm_compute. reflexivity.
Defined.


(** C6. [focus(c)] selects [c] when it is a visible client; otherwise the
    client selected before when that one is visible; otherwise the first
    visible client of the list, or none when no client is visible. The
    client it selects is visible in every case. *)
Theorem focus_selects (c : option ptr) (s : WM) :
  let visible (o : option ptr) :=
    match o with Some p => ISVISIBLE s p | None => false end in
  let s' := focus c s in
  (visible c = true → sel s' = c)
  ∧ (visible c = false → visible (sel s) = true → sel s' = sel s)
  ∧ (visible c = false → visible (sel s) = false →
     (∀ l1 p l2, clients s = l1 ++ p :: l2 →
                 Forall (λ q, ISVISIBLE s q = false) l1 →
                 ISVISIBLE s p = true → sel s' = Some p)
     ∧ (Forall (λ q, ISVISIBLE s q = false) (clients s) → sel s' = None))
  ∧ (∀ p, sel s' = Some p → ISVISIBLE s' p = true).
Proof.
  cbv zeta. unfold focus. rewrite sel_stackwindows. cbn [sel set_sel].
  split; [by intros ->|]. split; [by intros -> ->|]. split.
  - intros -> ->. split.
    + intros l1 p l2 -> Hl1 Hp. induction Hl1 as [|q l1 Hq _ IH]; cbn.
      * by rewrite Hp.
      * by rewrite Hq.
    + intros Hall. induction Hall as [|q l Hq _ IH]; cbn; [done|]. by rewrite Hq.
  - intros p. rewrite ISVISIBLE_stackwindows.
    assert (∀ q, ISVISIBLE (set_sel s q) p = ISVISIBLE s p) as -> by done.
    destruct (match c with Some p0 => ISVISIBLE s p0 | None => false end) eqn:Ec.
    { intros ->. done. }
    destruct (match sel s with Some p0 => ISVISIBLE s p0 | None => false end) eqn:Es.
    { intros Hp. by rewrite Hp in Es. }
    intros Hp. by apply find_some in Hp as [_ Hp].
Qed.

Lemma tags_ungeom (cl : Client) : Client.tags (ungeom cl) = Client.tags cl.
Proof. reflexivity. Qed.



(** ** Size hints in fullscreen *)

(** C8, as the code has it. In a resize of a fullscreen client the
    maximum size hints, the aspect bounds and the base size have no part,
    but the minimum size hints still apply: the width is the larger of the
    requested width (at least 1) and [minw], and so for the height. *)
Theorem resize_fullscreen_size (cfg : Config) (c : ptr) (x0 y0 w0 h0 : Z) (s : WM) :
  Client.isfullscreen (deref s c) = true →
  let cl' := deref (resize cfg c x0 y0 w0 h0 s) c in
  Client.w cl' = Z.max (Z.max 1 w0) (Client.minw (deref s c))
  ∧ Client.h cl' = Z.max (Z.max 1 h0) (Client.minh (deref s c)).
Proof.
  intros Hfs. cbv zeta. rewrite deref_resize.
  unfold resized, hinted. cbv zeta. rewrite Hfs.
  rewrite !andb_false_r. cbn [negb andb Client.w Client.h Client.set_geom rw rh fit].
  split; f_equal; lia.
Qed.

Lemma resize_fullscreen_size_witness :
  Client.isfullscreen (deref Scenario.widemin Scenario.A) = true
  ∧ Client.w (deref (resize Scenario.cfg Scenario.A 0 0 1920 1080 Scenario.widemin)
                Scenario.A) = 3000.
Proof.
  assert (Client.isfullscreen (deref Scenario.widemin Scenario.A) = true) as Hfs
    by (vm_compute; reflexivity).
  split; [exact Hfs|].
  destruct (resize_fullscreen_size Scenario.cfg Scenario.A 0 0 1920 1080
              Scenario.widemin Hfs) as [Hw _].
  rewrite Hw. vm_compute. reflexivity.
Defined.

(** C8, as stated, fails: the fullscreen client of [Scenario.widemin],
    resized to 1920 x 1080, comes out 3000 wide, the value of its [minw]
    hint. *)
Lemma resize_fullscreen_min_applies :
  let s := Scenario.widemin in
  let s' := resize Scenario.cfg Scenario.A 0 0 1920 1080 s in
  Client.isfullscreen (deref s Scenario.A) = true
  ∧ Client.minw (deref s Scenario.A) = 3000
  ∧ Client.w (deref s' Scenario.A) = 3000
  ∧ Client.w (deref s' Scenario.A) ≠ 1920.
Proof. vm_compute. repeat split; discriminate. Qed.

(** ** The published stacking list *)

Lemma publishlayer_spec (s : WM) (l : Z) (prop : list Window) :
  publishlayer s l prop = rev (windows s (layerclients s l)) ++ prop.
Proof.
  unfold publishlayer, layerclients, windows.
  revert prop. induction (clients s) as [|c cs IH]; intros prop; [done|].
  cbn [fold_left List.filter].
  destruct (bool_decide (Some c ≠ pinned s) && bool_decide (Some c ≠ raised s)
            && (layer (deref s c) =? l)).
  - rewrite IH. unfold propprepend. cbn [map rev]. by rewrite <- app_assoc.
  - apply IH.
Qed.

Lemma stackorder_set_netclistack (s : WM) (prop : list Window) :
  stackorder (set_netclistack s prop) = stackorder s.
Proof. reflexivity. Qed.

Lemma windows_set_netclistack (s : WM) (prop : list Window) (l : list ptr) :
  windows (set_netclistack s prop) l = windows s l.
Proof. reflexivity. Qed.

(** What [restack] publishes once it is past its [switch]: the windows of
    the stacking order, last one first. *)
Lemma netclistack_stackwindows (s : WM) :
  netclistack (stackwindows s)
  = rev (windows (stackwindows s) (stackorder (stackwindows s))).
Proof.
  unfold stackwindows. cbv zeta.
  rewrite stackorder_set_netclistack, windows_set_netclistack.
  cbn [netclistack set_netclistack].
  set (s1 := liftpinned s).
  rewrite !publishlayer_spec. unfold stackorder, windows.
  rewrite !map_app, !rev_app_distr, <- !app_assoc.
  do 3 f_equal.
  by destruct (raised s1), (pinned s1).
Qed.

(** C1, as the code has it. Whenever [restack] gets past its [switch]
    (always, except for a bar action that asks for the state the bar is
    already in, which returns at once and changes nothing) the property
    it publishes holds the windows of the stacking order (pinned, raised,
    floating layer, tiled layer, fullscreen layer, each layer in list
    order) from the bottom of the stack upwards: the reverse of the order
    from the top. *)
Theorem restack_publishes_bottom_up (c : option ptr) (mode : StackAction) (s : WM) :
  let s' := restack c mode s in
  (barunchanged mode s ∧ s' = s)
  ∨ netclistack s' = rev (windows s' (stackorder s')).
Proof.
  cbv zeta. unfold restack, barunchanged.
  destruct mode; try (right; apply netclistack_stackwindows).
  - case_bool_decide as Hb; [|right; apply netclistack_stackwindows].
    left. rewrite bool_decide_eq_true_2 in Hb by done. auto.
  - case_bool_decide as Hb; [|right; apply netclistack_stackwindows].
    left. rewrite bool_decide_eq_false_2 in Hb by done. auto.
Qed.

(** C1, as stated, fails. With client A (window 101) pinned, client B
    (102) raised and client C (103) tiled, the stacking order from the top
    is A, B, C, and the published list starts with C, the window at the
    bottom. *)
Lemma restack_publishes_topmost_last :
  let s := Scenario.pinraise in
  pinned s = Some Scenario.A ∧ raised s = Some Scenario.B
  ∧ windows s (stackorder s) = [101; 102; 103]
  ∧ netclistack s = [103; 102; 101]
  ∧ netclistack s ≠ windows s (stackorder s).
Proof. vm_compute. repeat split; discriminate. Qed.

(** *** Every managed client is listed once *)

Lemma elem_of_layerclients (s : WM) (l : Z) (c : ptr) :
  c ∈ layerclients s l
  ↔ c ∈ clients s ∧ Some c ≠ pinned s ∧ Some c ≠ raised s ∧ layer (deref s c) = l.
Proof.
  unfold layerclients. rewrite list_elem_of_In, List.filter_In, <- list_elem_of_In.
  rewrite !andb_true_iff, !bool_decide_eq_true, Z.eqb_eq. tauto.
Qed.

Lemma NoDup_layerclients (s : WM) (l : Z) :
  NoDup (clients s) → NoDup (layerclients s l).
Proof.
  intros Hnd%NoDup_ListNoDup. apply NoDup_ListNoDup.
  unfold layerclients. by apply List.NoDup_filter.
Qed.

(** In a state where the client list has no repetition, holds the pinned
    and the raised client, which are not the same one, and no client is
    fullscreen without being floating (as [setfullscreen] and
    [togglefloating] see to), the stacking order is the client list in
    another order: the published list names every managed client once. *)
Lemma stackorder_permutation (s : WM) :
  NoDup (clients s) →
  (∀ p, pinned s = Some p → p ∈ clients s) →
  (∀ r, raised s = Some r → r ∈ clients s) →
  (∀ p, pinned s = Some p → raised s ≠ Some p) →
  (∀ c, c ∈ clients s →
        Client.isfullscreen (deref s c) = true → Client.isfloating (deref s c) = true) →
  stackorder s ≡ₚ clients s.
Proof.
  intros Hnd Hpin Hrai Hne Hfs.
  apply NoDup_Permutation; [|done|].
  - unfold stackorder. rewrite !NoDup_app.
    split; [destruct (pinned s); cbn; [apply NoDup_singleton|apply NoDup_nil_2]|].
    split.
    { intros c Hc. rewrite !elem_of_app, !elem_of_layerclients.
      destruct (pinned s) as [p|] eqn:Ep; cbn in Hc; [|by apply elem_of_nil in Hc].
      apply list_elem_of_singleton in Hc as ->.
      intros [Hr|[H|[H|H]]]; try tauto.
      destruct (raised s) as [r|] eqn:Er; cbn in Hr; [|by apply elem_of_nil in Hr].
      apply list_elem_of_singleton in Hr as ->. by apply (Hne r). }
    split; [destruct (raised s); cbn; [apply NoDup_singleton|apply NoDup_nil_2]|].
    split.
    { intros c Hc. rewrite !elem_of_app, !elem_of_layerclients.
      destruct (raised s) as [r|] eqn:Er; cbn in Hc; [|by apply elem_of_nil in Hc].
      apply list_elem_of_singleton in Hc as ->. tauto. }
    split; [by apply NoDup_layerclients|].
    split.
    { intros c. rewrite !elem_of_app, !elem_of_layerclients. lia. }
    split; [by apply NoDup_layerclients|].
    split; [|by apply NoDup_layerclients].
    intros c. rewrite !elem_of_layerclients. lia.
  - intros c. unfold stackorder. rewrite !elem_of_app, !elem_of_layerclients.
    split.
    + intros [Hc|[Hc|[Hc|[Hc|Hc]]]]; try tauto.
      * destruct (pinned s) as [p|] eqn:Ep; cbn in Hc; [|by apply elem_of_nil in Hc].
        apply list_elem_of_singleton in Hc as ->. by apply Hpin.
      * destruct (raised s) as [r|] eqn:Er; cbn in Hc; [|by apply elem_of_nil in Hc].
        apply list_elem_of_singleton in Hc as ->. by apply Hrai.
    + intros Hc.
      destruct (decide (Some c = pinned s)) as [Hp|Hp].
      { left. rewrite <- Hp. cbn. by apply list_elem_of_singleton. }
      destruct (decide (Some c = raised s)) as [Hr|Hr].
      { right. left. rewrite <- Hr. cbn. by apply list_elem_of_singleton. }
      right. right. specialize (Hfs c Hc). unfold layer.
      destruct (Client.isfloating (deref s c)), (Client.isfullscreen (deref s c));
        try tauto.
      exfalso. by specialize (Hfs eq_refl).
Qed.

(** ** The tiling scenario *)

(** C5, as stated, fails: of three tiled clients added in the order A, B,
    C it is not A that gets the main area; A ends in the lower half of the
    secondary area. *)
Lemma tiled3_first_added_not_main :
  outline (deref Scenario.tiled3 Scenario.A)
  = {| rx := 1152; ry := 540; rw := 768; rh := 540 |}
  ∧ outline (deref Scenario.tiled3 Scenario.A)
    ≠ {| rx := 0; ry := 0; rw := 1152; rh := 1080 |}.
Proof. vm_compute. split; [reflexivity|discriminate]. Qed.

Lemma tiled3_check_unfold (b : Z) :
  tiled3_check b = bool_decide (tiled3_spec (Scenario.tiled3b b) b).
Proof. reflexivity. Qed.

(** C5, as the code has it. On a 1920 x 1080 monitor with [nmain] 1 and
    [mfact] 0.6, three tiled clients added in the order A, B, C are listed
    C, B, A, since [attach] puts a client at the head of the list. The last
    one added, C, gets the main area (0, 0, 1152, 1080), B the upper half
    (1152, 0, 768, 540) of the secondary area and A its lower half
    (1152, 540, 768, 540). These are the rectangles with the border; the
    window inside is smaller by the border width [b] on each side. *)
Theorem tiled3_layout (b : Z) :
  0 ≤ b ≤ 269 →
  let s := Scenario.tiled3b b in
  clients s = [Scenario.C; Scenario.B; Scenario.A]
  ∧ geometry (deref s Scenario.C)
    = {| rx := 0; ry := 0; rw := 1152 - 2 * b; rh := 1080 - 2 * b |}
  ∧ geometry (deref s Scenario.B)
    = {| rx := 1152; ry := 0; rw := 768 - 2 * b; rh := 540 - 2 * b |}
  ∧ geometry (deref s Scenario.A)
    = {| rx := 1152; ry := 540; rw := 768 - 2 * b; rh := 540 - 2 * b |}
  ∧ outline (deref s Scenario.C) = {| rx := 0; ry := 0; rw := 1152; rh := 1080 |}
  ∧ outline (deref s Scenario.B) = {| rx := 1152; ry := 0; rw := 768; rh := 540 |}
  ∧ outline (deref s Scenario.A) = {| rx := 1152; ry := 540; rw := 768; rh := 540 |}.
Proof.
  intros Hb.
  assert (forallb tiled3_check (seqZ 0 270) = true) as Hall
    by (vm_compute; reflexivity).
  rewrite forallb_forall in Hall.
  assert (In b (seqZ 0 270)) as Hin.
  { apply list_elem_of_In, elem_of_seqZ. lia. }
  apply Hall in Hin. rewrite tiled3_check_unfold in Hin.
  apply bool_decide_eq_true_1 in Hin. exact Hin.
Qed.

Lemma tiled3_layout_witness :
  outline (deref (Scenario.tiled3b 1) Scenario.C)
  = {| rx := 0; ry := 0; rw := 1152; rh := 1080 |}
  ∧ geometry (deref (Scenario.tiled3b 1) Scenario.C)
    = {| rx := 0; ry := 0; rw := 1152 - 2 * 1; rh := 1080 - 2 * 1 |}.
Proof.
  destruct (tiled3_layout 1) as (_ & HC & _ & _ & HoC & _); [lia|].
  split; [exact HoC|exact HC].
Defined.

(** ** The end of a tile-adjust drag *)

Section DragTile.

Variable cfg : Config.

Lemma settings_stackwindows (s : WM) : settings (stackwindows s) = settings s.
Proof. destruct (shell_stackwindows s) as (L & P & ->). reflexivity. Qed.

Lemma settings_arrange (s : WM) : settings (arrange cfg s) = settings s.
Proof.
  unfold arrange. cbv zeta.
  set (s1 := tileall cfg (focus None s)).
  assert (settings s1 = settings s) as <-.
  { unfold s1, tileall.
    pose proof (shell_tiles cfg (counttiled cfg (focus None s)) (clients (focus None s))
      {| t_wm := focus None s; t_i := replicate 32 0; t_my := replicate 32 0;
         t_ty := replicate 32 0 |}) as H%shell_fields.
    cbn [t_wm] in H. destruct H as (_&Hp&_&_&Hb&Hc&Ht&Hm&Hn&_&Hg).
    transitivity (settings (focus None s)).
    - unfold settings. by rewrite Hp, Hb, Hc, Ht, Hm, Hn, Hg.
    - unfold focus. by rewrite settings_stackwindows. }
  unfold restack. by rewrite settings_stackwindows.
Qed.







End DragTile.




(** ** Fullscreen and back *)

Section Fullscreen.

Variable cfg : Config.

Lemma isfloating_ungeom (cl cl' : Client) :
  ungeom cl = ungeom cl' → Client.isfloating cl = Client.isfloating cl'.
Proof. intros H. by apply (f_equal Client.isfloating) in H. Qed.

Lemma bw_ungeom (cl cl' : Client) :
  ungeom cl = ungeom cl' → Client.bw cl = Client.bw cl'.
Proof. intros H. by apply (f_equal Client.bw) in H. Qed.

(** Entering fullscreen leaves at [c] the struct with the flags switched
    and the border saved, at some new geometry. *)
Lemma deref_setfullscreen_enter (c : ptr) (s : WM) :
  Client.isfullscreen (deref s c) = false →
  ∃ x1 y1 w1 h1,
    deref (setfullscreen cfg c true s) c
    = Client.set_geom
        (Client.set_isfloating
           (Client.set_bw
              (Client.set_fbw
                 (Client.set_fstate (Client.set_isfullscreen (deref s c) true)
                    (Client.isfloating (deref s c)))
                 (Client.bw (deref s c)))
              0)
           true)
        x1 y1 w1 h1.
Proof.
  intros Hnf. unfold setfullscreen. rewrite Hnf. cbn [andb negb]. cbv zeta.
  set (cl1 := Client.set_isfloating _ true).
  rewrite deref_arrange_floating.
  - rewrite deref_restack, deref_resize, deref_store.
    unfold resized. cbv zeta.
    assert (Client.isfloating cl1 && negb (Client.isfullscreen cl1) = false) as ->
      by done.
    eexists _, _, _, _. reflexivity.
  - rewrite deref_restack.
    erewrite isfloating_ungeom by apply ungeom_resize.
    by rewrite deref_store.
Qed.

(** Leaving fullscreen restores the flags and the border, and resizes a
    client that was floating to its remembered geometry. *)
Lemma deref_setfullscreen_leave (c : ptr) (s : WM) :
  Client.isfullscreen (deref s c) = true →
  let cl := Client.set_bw
              (Client.set_isfloating (Client.set_isfullscreen (deref s c) false)
                 (Client.fstate (deref s c)))
              (Client.fbw (deref s c)) in
  ungeom (deref (setfullscreen cfg c false s) c) = ungeom cl
  ∧ (Client.fstate (deref s c) = true →
     deref (setfullscreen cfg c false s) c
     = resized cfg cl (Client.fx cl) (Client.fy cl) (Client.fw cl) (Client.fh cl)).
Proof.
  intros Hfs. cbv zeta. unfold setfullscreen. rewrite Hfs. cbn [andb negb]. cbv zeta.
  set (cl := Client.set_bw _ _). split.
  - rewrite ungeom_arrange, ungeom_resize. by rewrite deref_store.
  - intros Hst. rewrite deref_arrange_floating.
    + by rewrite deref_resize, deref_store.
    + erewrite isfloating_ungeom by apply ungeom_resize.
      rewrite deref_store. exact Hst.
Qed.

(** The geometry that [resize] computes does not depend on the geometry
    [c] has, nor on the saved flag and border. *)
Lemma geometry_resized_ext (cl : Client) (x1 y1 w1 h1 x0 y0 w0 h0 : Z) :
  Client.isfullscreen cl = false →
  let cl' :=
    Client.set_bw
      (Client.set_isfloating
         (Client.set_isfullscreen
            (Client.set_geom
               (Client.set_isfloating
                  (Client.set_bw
                     (Client.set_fbw
                        (Client.set_fstate (Client.set_isfullscreen cl true)
                           (Client.isfloating cl))
                        (Client.bw cl))
                     0)
                  true)
               x1 y1 w1 h1)
            false)
         (Client.isfloating cl))
      (Client.bw cl) in
  Client.fx cl' = Client.fx cl ∧ Client.fy cl' = Client.fy cl
  ∧ Client.fw cl' = Client.fw cl ∧ Client.fh cl' = Client.fh cl
  ∧ geometry (resized cfg cl' x0 y0 w0 h0) = geometry (resized cfg cl x0 y0 w0 h0).
Proof.
  intros Hnf. destruct cl. cbn in Hnf. subst. cbv zeta.
  repeat split; reflexivity.
Qed.

End Fullscreen.

(** C3, as the code has it. For a client [c] that is not fullscreen,
    [setfullscreen(c, 1)] followed by [setfullscreen(c, 0)] restores the
    floating flag and the border width. A floating client gets the
    geometry that [resize] makes of its remembered floating geometry
    [(fx, fy, fw, fh)]; this is the geometry it had before whenever that
    one came from a resize while floating (when resizing it to its
    remembered geometry would not move it). *)
Theorem setfullscreen_roundtrip (cfg : Config) (c : ptr) (s : WM) :
  Client.isfullscreen (deref s c) = false →
  let cl := deref s c in
  let remembered :=
    resize cfg c (Client.fx cl) (Client.fy cl) (Client.fw cl) (Client.fh cl) s in
  let s2 := setfullscreen cfg c false (setfullscreen cfg c true s) in
  Client.isfloating (deref s2 c) = Client.isfloating cl
  ∧ Client.bw (deref s2 c) = Client.bw cl
  ∧ (Client.isfloating cl = true →
     geometry (deref s2 c) = geometry (deref remembered c))
  ∧ (Client.isfloating cl = true →
     geometry (deref remembered c) = geometry cl →
     geometry (deref s2 c) = geometry cl).
Proof.
  intros Hnf. cbv zeta.
  destruct (deref_setfullscreen_enter cfg c s Hnf) as (x1 & y1 & w1 & h1 & H1).
  set (s1 := setfullscreen cfg c true s) in *.
  assert (Client.isfullscreen (deref s1 c) = true) as Hfs by (by rewrite H1).
  destruct (deref_setfullscreen_leave cfg c s1 Hfs) as [Hflags Hgeom].
  rewrite H1 in Hflags, Hgeom.
  destruct (geometry_resized_ext cfg (deref s c) x1 y1 w1 h1
              (Client.fx (deref s c)) (Client.fy (deref s c))
              (Client.fw (deref s c)) (Client.fh (deref s c)) Hnf)
    as (Hfx & Hfy & Hfw & Hfh & Hext).
  assert (Client.isfloating (deref s c) = true →
          geometry (deref (setfullscreen cfg c false s1) c)
          = geometry (deref (resize cfg c (Client.fx (deref s c))
                               (Client.fy (deref s c)) (Client.fw (deref s c))
                               (Client.fh (deref s c)) s) c)) as Hremembered.
  { intros Hfl. rewrite Hgeom by exact Hfl. rewrite deref_resize.
    rewrite <- Hext. reflexivity. }
  split. { by rewrite (isfloating_ungeom _ _ Hflags). }
  split. { by rewrite (bw_ungeom _ _ Hflags). }
  split; [exact Hremembered|].
  intros Hfl Hrest. by rewrite Hremembered.
Qed.

Lemma setfullscreen_roundtrip_witness :
  let s := Scenario.floating1 in
  let s2 := setfullscreen Scenario.cfg Scenario.A false
              (setfullscreen Scenario.cfg Scenario.A true s) in
  Client.isfullscreen (deref s Scenario.A) = false
  ∧ Client.isfloating (deref s Scenario.A) = true
  ∧ Client.isfloating (deref s2 Scenario.A) = true
  ∧ geometry (deref s2 Scenario.A) = geometry (deref s Scenario.A).
Proof.
  cbv zeta.
  assert (Client.isfullscreen (deref Scenario.floating1 Scenario.A) = false) as Hnf
    by (vm_compute; reflexivity).
  assert (Client.isfloating (deref Scenario.floating1 Scenario.A) = true) as Hfl
    by (vm_compute; reflexivity).
  destruct (setfullscreen_roundtrip Scenario.cfg Scenario.A Scenario.floating1 Hnf)
    as (Hf & _ & _ & Hg).
  split; [exact Hnf|]. split; [exact Hfl|].
  split; [by rewrite Hf|].
  apply Hg; [exact Hfl|]. vm_compute. reflexivity.
Defined.

(** C3, as stated, fails for a tiled client. In [Scenario.tiled3] client
    B fills the upper half of the secondary area; fullscreen and back, it
    is at the head of the client list (entering fullscreen zooms it) and
    [arrange] gives it the main area. *)
Lemma setfullscreen_roundtrip_moves_tiled :
  let s := Scenario.tiled3 in
  let s2 := setfullscreen Scenario.cfg Scenario.B false
              (setfullscreen Scenario.cfg Scenario.B true s) in
  Client.isfullscreen (deref s Scenario.B) = false
  ∧ geometry (deref s Scenario.B) = {| rx := 1152; ry := 0; rw := 766; rh := 538 |}
  ∧ geometry (deref s2 Scenario.B) = {| rx := 0; ry := 0; rw := 1150; rh := 1078 |}
  ∧ geometry (deref s2 Scenario.B) ≠ geometry (deref s Scenario.B).
Proof. vm_compute. repeat split; discriminate. Qed.

(** A resize of a floating client leaves it where a resize to the
    geometry it then remembers leaves it: the condition of C3 holds after
    every such resize. *)
Lemma resize_floating_rest (cfg : Config) (c : ptr) (x0 y0 w0 h0 : Z) (s : WM) :
  Client.isfloating (deref s c) = true →
  Client.isfullscreen (deref s c) = false →
  let s1 := resize cfg c x0 y0 w0 h0 s in
  let cl1 := deref s1 c in
  geometry (deref (resize cfg c (Client.fx cl1) (Client.fy cl1) (Client.fw cl1)
                     (Client.fh cl1) s1) c)
  = geometry cl1.
Proof.
  intros Hfl Hnf. cbv zeta. rewrite !deref_resize.
  destruct (deref s c) eqn:E. cbn in Hfl, Hnf. subst.
  unfold resized at 1. cbv zeta.
  unfold resized. cbn [Client.isfloating Client.isfullscreen Client.set_geom
    Client.set_fgeom andb negb Client.fx Client.fy Client.fw Client.fh geometry
    Client.x Client.y Client.w Client.h].
  set (r := fit cfg _ x0 y0 w0 h0).
  assert (∀ cl', Client.bw cl' = bw →
                 fit cfg cl' (rx r) (ry r) (rw r) (rh r) = r) as Hfit.
  { intros cl' Hbw. unfold r, fit. cbn [rx ry rw rh Client.bw]. rewrite Hbw.
    f_equal; lia. }
  rewrite Hfit by reflexivity.
  reflexivity.
Qed.

(** ** The heights of a tiled region *)

(** The share [R / k] of a region of [k] clients, when it holds the
    border [b] of a client and a window one pixel high: the window gets a
    height of at least 1; the last client ([k = 1]) gets all of [R]; and
    before the last, the share leaves room, and the shares that follow are
    not smaller. *)
Lemma share_bounds (R k b : Z) :
  1 ≤ k → 0 ≤ b → 1 + 2 * b ≤ R / k →
  1 ≤ Z.quot R k - 2 * b
  ∧ (k = 1 → Z.quot R k = R)
  ∧ (2 ≤ k → Z.quot R k < R ∧ R / k ≤ (R - Z.quot R k) / (k - 1)).
Proof.
  intros Hk Hb Hshare.
  assert (k * (R / k) ≤ R) as Hmul by (apply Z.mul_div_le; lia).
  assert (0 ≤ R) as HR by nia.
  rewrite Z.quot_div_nonneg by lia.
  split; [lia|]. split.
  - intros ->. by rewrite Z.div_1_r.
  - intros Hk2. split; [nia|].
    apply Z.div_le_lower_bound; [lia|]. nia.
Qed.

Section TileStep.

Variable cfg : Config.
Variable m : nat.
Hypothesis Hm : (m < 32)%nat.

(** The height [resize] gives a tiled client free of height hints. *)
Lemma HEIGHT_resized_tiled (cl : Client) (x0 y0 w0 h0 : Z) :
  Client.isfloating cl = false → heightfree cl → 1 ≤ h0 →
  HEIGHT (resized cfg cl x0 y0 w0 h0) = h0 + 2 * Client.bw cl.
Proof.
  intros Hfl (Hasp & Hmin & Hmax) Hh.
  unfold resized. cbv zeta. rewrite Hfl. cbn [andb].
  unfold HEIGHT, hinted. cbv zeta. rewrite Hasp, Hmax.
  cbn [andb negb Client.h Client.bw Client.set_geom rh rw rx ry fit Z.eqb].
  lia.
Qed.

Lemma ontile_istiled (s : WM) (c : ptr) :
  ontile cfg s m c = true →
  istiled s c = true ∧ monof cfg (deref s c) = m
  ∧ Client.isfloating (deref s c) = false.
Proof.
  unfold ontile. intros [Ht Hmon%bool_decide_eq_true_1]%andb_true_iff.
  split; [done|]. split; [done|].
  unfold istiled in Ht. apply andb_true_iff in Ht as [Ht _].
  by apply negb_true_iff in Ht.
Qed.

Lemma tile_lengths (nm : list Z) (st : Tiling) (c : ptr) :
  length (t_i (tile cfg nm st c)) = length (t_i st)
  ∧ length (t_my (tile cfg nm st c)) = length (t_my st)
  ∧ length (t_ty (tile cfg nm st c)) = length (t_ty st).
Proof.
  unfold tile. cbv zeta.
  destruct (istiled (t_wm st) c); [|done].
  destruct (_ <? nmain _ !!! _); cbn [t_i t_my t_ty];
    rewrite ?length_insert;
    repeat match goal with |- context [if ?b then _ else _] => destruct b end;
    rewrite ?length_insert; done.
Qed.

(** A client that is not tiled on monitor [m] leaves the counters of [m]
    alone. *)
Lemma tile_other (nm : list Z) (st : Tiling) (c : ptr) :
  ontile cfg (t_wm st) m c = false →
  t_i (tile cfg nm st c) !!! m = t_i st !!! m
  ∧ t_my (tile cfg nm st c) !!! m = t_my st !!! m
  ∧ t_ty (tile cfg nm st c) !!! m = t_ty st !!! m.
Proof.
  intros Hon. unfold tile. cbv zeta. unfold ontile in Hon.
  destruct (istiled (t_wm st) c); [|done].
  cbn [andb] in Hon. apply bool_decide_eq_false_1 in Hon.
  set (m' := monof cfg (deref (t_wm st) c)) in *.
  destruct (_ <? nmain _ !!! _); cbn [t_i t_my t_ty];
    repeat match goal with |- context [if ?b then _ else _] => destruct b end;
    rewrite ?list_lookup_total_insert_ne by done; done.
Qed.

(** The tiling step of a client of the main region of [m]. *)
Lemma tile_main_step (nm : list Z) (st : Tiling) (c : ptr) :
  ontile cfg (t_wm st) m c = true →
  length (t_i st) = 32%nat → length (t_my st) = 32%nat →
  t_i st !!! m < nmain (t_wm st) !!! m →
  let cl := deref (t_wm st) c in
  let h := Z.quot (Monitor.mh (mon cfg m) - t_my st !!! m)
                  (Z.min (nm !!! m) (nmain (t_wm st) !!! m) - t_i st !!! m) in
  heightfree cl → 1 ≤ h - 2 * Client.bw cl →
  HEIGHT (deref (t_wm (tile cfg nm st c)) c) = h
  ∧ t_i (tile cfg nm st c) !!! m = t_i st !!! m + 1
  ∧ t_my (tile cfg nm st c) !!! m
    = (if t_my st !!! m + h <? Monitor.mh (mon cfg m)
       then t_my st !!! m + h else t_my st !!! m)
  ∧ t_ty (tile cfg nm st c) !!! m = t_ty st !!! m.
Proof.
  intros (Ht & Hmon & Hfl)%ontile_istiled Hli Hlmy Hi. cbv zeta. intros Hfree Hh.
  unfold tile. cbv zeta. rewrite Ht, Hmon.
  apply Z.ltb_lt in Hi. rewrite Hi. cbn [t_wm t_i t_my t_ty].
  rewrite deref_resize, HEIGHT_resized_tiled by done.
  rewrite Z.sub_add.
  split; [done|]. split; [by rewrite list_lookup_total_insert_eq by lia|].
  split; [|done].
  match goal with |- context [if ?b then _ else _] => destruct b end;
    [by rewrite list_lookup_total_insert_eq by lia|done].
Qed.

(** The tiling step of a client of the secondary region of [m]. *)
Lemma tile_second_step (nm : list Z) (st : Tiling) (c : ptr) :
  ontile cfg (t_wm st) m c = true →
  length (t_i st) = 32%nat → length (t_ty st) = 32%nat →
  nmain (t_wm st) !!! m ≤ t_i st !!! m →
  let cl := deref (t_wm st) c in
  let h := Z.quot (Monitor.mh (mon cfg m) - t_ty st !!! m) (nm !!! m - t_i st !!! m) in
  heightfree cl → 1 ≤ h - 2 * Client.bw cl →
  HEIGHT (deref (t_wm (tile cfg nm st c)) c) = h
  ∧ t_i (tile cfg nm st c) !!! m = t_i st !!! m + 1
  ∧ t_my (tile cfg nm st c) !!! m = t_my st !!! m
  ∧ t_ty (tile cfg nm st c) !!! m
    = (if t_ty st !!! m + h <? Monitor.mh (mon cfg m)
       then t_ty st !!! m + h else t_ty st !!! m).
Proof.
  intros (Ht & Hmon & Hfl)%ontile_istiled Hli Hlty Hi. cbv zeta. intros Hfree Hh.
  unfold tile. cbv zeta. rewrite Ht, Hmon.
  apply Z.ltb_ge in Hi. rewrite Hi. cbn [t_wm t_i t_my t_ty].
  rewrite deref_resize, HEIGHT_resized_tiled by done.
  rewrite Z.sub_add.
  split; [done|]. split; [by rewrite list_lookup_total_insert_eq by lia|].
  split; [done|].
  match goal with |- context [if ?b then _ else _] => destruct b end;
    [by rewrite list_lookup_total_insert_eq by lia|done].
Qed.

(** A main step without the conditions on the height: the counter moves
    on and [ty] stays. *)
Lemma tile_main_counts (nm : list Z) (st : Tiling) (c : ptr) :
  ontile cfg (t_wm st) m c = true →
  length (t_i st) = 32%nat →
  t_i st !!! m < nmain (t_wm st) !!! m →
  t_i (tile cfg nm st c) !!! m = t_i st !!! m + 1
  ∧ t_ty (tile cfg nm st c) !!! m = t_ty st !!! m.
Proof.
  intros (Ht & Hmon & Hfl)%ontile_istiled Hli Hi.
  unfold tile. cbv zeta. rewrite Ht, Hmon.
  apply Z.ltb_lt in Hi. rewrite Hi. cbn [t_wm t_i t_my t_ty].
  split; [by rewrite list_lookup_total_insert_eq by lia|done].
Qed.

Lemma nmain_tile (nm : list Z) (st : Tiling) (c : ptr) :
  nmain (t_wm (tile cfg nm st c)) = nmain (t_wm st).
Proof.
  pose proof (shell_tile cfg nm st c) as H%shell_fields. by destruct H as (_&_&_&_&_&_&_&_&->&_).
Qed.

Lemma ontile_tile_ne (nm : list Z) (st : Tiling) (c c' : ptr) :
  c ≠ c' → ontile cfg (t_wm (tile cfg nm st c)) m c' = ontile cfg (t_wm st) m c'.
Proof.
  intros Hne. unfold ontile, istiled, ISVISIBLE.
  pose proof (shell_tile cfg nm st c) as H%shell_fields.
  destruct H as (_&_&_&_&_&_&->&_).
  by rewrite deref_tile_ne.
Qed.

Lemma filter_ontile_tile (nm : list Z) (st : Tiling) (c : ptr) (rest : list ptr) :
  c ∉ rest →
  List.filter (ontile cfg (t_wm (tile cfg nm st c)) m) rest
  = List.filter (ontile cfg (t_wm st) m) rest.
Proof.
  intros Hnotin. apply List.filter_ext_in. intros c' Hin%list_elem_of_In.
  apply ontile_tile_ne. intros ->. done.
Qed.

End TileStep.

Lemma sumheights_ext (s1 s2 : WM) (l : list ptr) :
  (∀ c, c ∈ l → deref s1 c = deref s2 c) → sumheights s1 l = sumheights s2 l.
Proof.
  induction l as [|c l IH]; intros Hext; [done|].
  change (HEIGHT (deref s1 c) + sumheights s1 l = HEIGHT (deref s2 c) + sumheights s2 l).
  rewrite Hext by left. rewrite IH; [done|].
  intros c' Hc'. apply Hext. by right.
Qed.

Lemma fits_ext (s1 s2 : WM) (R1 R2 : Z) (l l' : list ptr) :
  (∀ c, c ∈ l → deref s1 c = deref s2 c) →
  R2 / Z.of_nat (length l') ≤ R1 / Z.of_nat (length l) →
  Forall (λ c, heightfree (deref s2 c) ∧ 0 ≤ Client.bw (deref s2 c)
               ∧ 1 + 2 * Client.bw (deref s2 c) ≤ R2 / Z.of_nat (length l')) l →
  fits s1 R1 l.
Proof.
  intros Hext HR Hall. unfold fits. rewrite Forall_forall in Hall |- *.
  intros c Hc. rewrite Hext by done.
  destruct (Hall c Hc) as (? & ? & ?). split; [done|]. split; [done|]. lia.
Qed.

Section TileFold.

Variable cfg : Config.
Variable m : nat.
Hypothesis Hm : (m < 32)%nat.
Variable nm : list Z.

Lemma filter_ontile_subset (s : WM) (rest : list ptr) (n : nat) (c : ptr) :
  c ∈ take n (List.filter (ontile cfg s m) rest) → c ∈ rest.
Proof.
  intros Hc%(subseteq_take n)%list_elem_of_In%List.filter_In.
  apply list_elem_of_In. tauto.
Qed.

Lemma filter_ontile_subset_drop (s : WM) (rest : list ptr) (n : nat) (c : ptr) :
  c ∈ drop n (List.filter (ontile cfg s m) rest) → c ∈ rest.
Proof.
  intros Hc%(subseteq_drop n)%list_elem_of_In%List.filter_In.
  apply list_elem_of_In. tauto.
Qed.

(** The main region: from a state of the loop in which [rest] is still
    to visit, the clients of [rest] that go to the main region of [m] end
    with heights that add up to what is left of the monitor height. *)
Lemma tiles_main (rest : list ptr) (st : Tiling) :
  NoDup rest →
  length (t_i st) = 32%nat → length (t_my st) = 32%nat → length (t_ty st) = 32%nat →
  nm !!! m = t_i st !!! m
             + Z.of_nat (length (List.filter (ontile cfg (t_wm st) m) rest)) →
  take (Z.to_nat (nmain (t_wm st) !!! m - t_i st !!! m))
       (List.filter (ontile cfg (t_wm st) m) rest) ≠ [] →
  fits (t_wm st) (Monitor.mh (mon cfg m) - t_my st !!! m)
       (take (Z.to_nat (nmain (t_wm st) !!! m - t_i st !!! m))
             (List.filter (ontile cfg (t_wm st) m) rest)) →
  sumheights (t_wm (fold_left (tile cfg nm) rest st))
             (take (Z.to_nat (nmain (t_wm st) !!! m - t_i st !!! m))
                   (List.filter (ontile cfg (t_wm st) m) rest))
  = Monitor.mh (mon cfg m) - t_my st !!! m.
Proof.
  revert st. induction rest as [|c rest IH]; intros st Hnd Hli Hlmy Hlty Hnm Hne Hfits.
  { cbn in Hne. by rewrite take_nil in Hne. }
  apply NoDup_cons in Hnd as [Hc Hnd].
  cbn [fold_left]. cbn [List.filter] in *.
  pose proof (tile_lengths cfg nm st c) as (Hli' & Hlmy' & Hlty').
  pose proof (filter_ontile_tile cfg m nm st c rest Hc) as Hfilter.
  pose proof (nmain_tile cfg nm st c) as Hnmain.
  set (st' := tile cfg nm st c) in *.
  set (i := t_i st !!! m) in *. set (my := t_my st !!! m) in *.
  set (mh := Monitor.mh (mon cfg m)) in *.
  set (T := List.filter (ontile cfg (t_wm st) m) rest) in *.
  destruct (ontile cfg (t_wm st) m c) eqn:Hon.
  - (* [c] is the next client of the main region *)
    destruct (Z.to_nat (nmain (t_wm st) !!! m - i)) as [|n] eqn:En; [done|].
    cbn [take] in *. cbn [length] in Hnm.
    set (region := take n T) in *.
    apply Forall_cons in Hfits as [(Hfree & Hbw & Hshare) Hfits].
    cbn [length] in Hshare, Hfits.
    assert (Z.min (nm !!! m) (nmain (t_wm st) !!! m) - i
            = Z.of_nat (S (length region))) as Hk.
    { unfold region. rewrite length_take. lia. }
    destruct (share_bounds (mh - my) (Z.of_nat (S (length region)))
                (Client.bw (deref (t_wm st) c))) as (Hh & Hlast & Hmore);
      [lia|done|done|].
    destruct (tile_main_step cfg m Hm nm st c Hon Hli Hlmy) as (HH & Hi' & Hmy' & _);
      [lia|done|by fold i my mh; rewrite Hk|].
    fold st' i my mh in HH, Hi', Hmy'. rewrite Hk in HH, Hmy'.
    change (sumheights ?s (c :: region))
      with (HEIGHT (deref s c) + sumheights s region).
    rewrite deref_tiles_notin by done. rewrite HH.
    destruct (decide (region = [])) as [Hnil|Hcons].
    + rewrite Hlast by (by rewrite Hnil). rewrite Hnil. cbn. lia.
    + assert (2 ≤ Z.of_nat (S (length region))) as Hk2.
      { destruct region; [done|]. cbn [length]. lia. }
      destruct (Hmore Hk2) as [Hlt Hnext].
      assert (t_my st' !!! m = my + Z.quot (mh - my) (Z.of_nat (S (length region))))
        as Hmy''.
      { rewrite Hmy'. apply Z.ltb_lt in Hlt as Hlt'.
        assert ((my + Z.quot (mh - my) (Z.of_nat (S (length region))) <? mh) = true)
          as -> by (apply Z.ltb_lt; lia). done. }
      assert (Z.to_nat (nmain (t_wm st') !!! m - t_i st' !!! m) = n) as En'.
      { rewrite Hnmain, Hi'. lia. }
      specialize (IH st' Hnd). rewrite Hfilter, En' in IH.
      fold T region in IH. rewrite IH.
      * rewrite Hmy''. lia.
      * lia.
      * lia.
      * lia.
      * rewrite Hi'. lia.
      * done.
      * rewrite Hmy''.
        eapply (fits_ext _ _ _ (mh - my) _ (c :: region)); [| |exact Hfits].
        -- intros c' Hc'. apply deref_tile_ne. intros ->.
           by apply filter_ontile_subset in Hc'.
        -- replace (Z.of_nat (S (length region)) - 1) with (Z.of_nat (length region))
             in Hnext by lia.
           replace (mh - (my + Z.quot (mh - my) (Z.of_nat (S (length region)))))
             with (mh - my - Z.quot (mh - my) (Z.of_nat (S (length region)))) by lia.
           exact Hnext.
  - (* [c] is no tiled client of [m] *)
    pose proof (tile_other cfg m nm st c Hon) as (Hi' & Hmy' & _).
    fold st' in Hi', Hmy'.
    specialize (IH st' Hnd). rewrite Hfilter, Hnmain, Hi', Hmy' in IH.
    apply IH; [lia..|done|done|].
    eapply fits_ext; [|reflexivity|exact Hfits].
    intros c' Hc'. apply deref_tile_ne. intros ->.
    by apply filter_ontile_subset in Hc'.
Qed.

(** The secondary region, likewise. *)
Lemma tiles_second (rest : list ptr) (st : Tiling) :
  NoDup rest →
  length (t_i st) = 32%nat → length (t_my st) = 32%nat → length (t_ty st) = 32%nat →
  nm !!! m = t_i st !!! m
             + Z.of_nat (length (List.filter (ontile cfg (t_wm st) m) rest)) →
  drop (Z.to_nat (nmain (t_wm st) !!! m - t_i st !!! m))
       (List.filter (ontile cfg (t_wm st) m) rest) ≠ [] →
  fits (t_wm st) (Monitor.mh (mon cfg m) - t_ty st !!! m)
       (drop (Z.to_nat (nmain (t_wm st) !!! m - t_i st !!! m))
             (List.filter (ontile cfg (t_wm st) m) rest)) →
  sumheights (t_wm (fold_left (tile cfg nm) rest st))
             (drop (Z.to_nat (nmain (t_wm st) !!! m - t_i st !!! m))
                   (List.filter (ontile cfg (t_wm st) m) rest))
  = Monitor.mh (mon cfg m) - t_ty st !!! m.
Proof.
  revert st. induction rest as [|c rest IH]; intros st Hnd Hli Hlmy Hlty Hnm Hne Hfits.
  { cbn in Hne. by rewrite drop_nil in Hne. }
  apply NoDup_cons in Hnd as [Hc Hnd].
  cbn [fold_left]. cbn [List.filter] in *.
  pose proof (tile_lengths cfg nm st c) as (Hli' & Hlmy' & Hlty').
  pose proof (filter_ontile_tile cfg m nm st c rest Hc) as Hfilter.
  pose proof (nmain_tile cfg nm st c) as Hnmain.
  set (st' := tile cfg nm st c) in *.
  set (i := t_i st !!! m) in *. set (ty := t_ty st !!! m) in *.
  set (mh := Monitor.mh (mon cfg m)) in *.
  set (T := List.filter (ontile cfg (t_wm st) m) rest) in *.
  destruct (ontile cfg (t_wm st) m c) eqn:Hon.
  - destruct (Z.to_nat (nmain (t_wm st) !!! m - i)) as [|n] eqn:En.
    + (* [c] is the next client of the secondary region *)
      cbn [drop] in *. cbn [length] in Hnm.
      apply Forall_cons in Hfits as [(Hfree & Hbw & Hshare) Hfits].
      cbn [length] in Hshare, Hfits.
      assert (nm !!! m - i = Z.of_nat (S (length T))) as Hk by lia.
      destruct (share_bounds (mh - ty) (Z.of_nat (S (length T)))
                  (Client.bw (deref (t_wm st) c))) as (Hh & Hlast & Hmore);
        [lia|done|done|].
      destruct (tile_second_step cfg m Hm nm st c Hon Hli Hlty)
        as (HH & Hi' & _ & Hty');
        [lia|done|by fold i ty mh; rewrite Hk|].
      fold st' i ty mh in HH, Hi', Hty'. rewrite Hk in HH, Hty'.
      change (sumheights ?s (c :: T)) with (HEIGHT (deref s c) + sumheights s T).
      rewrite deref_tiles_notin by done. rewrite HH.
      destruct (decide (T = [])) as [Hnil|Hcons].
      * rewrite Hlast by (by rewrite Hnil). rewrite Hnil. cbn. lia.
      * assert (2 ≤ Z.of_nat (S (length T))) as Hk2.
        { destruct T; [done|]. cbn [length]. lia. }
        destruct (Hmore Hk2) as [Hlt Hnext].
        assert (t_ty st' !!! m = ty + Z.quot (mh - ty) (Z.of_nat (S (length T))))
          as Hty''.
        { rewrite Hty'.
          assert ((ty + Z.quot (mh - ty) (Z.of_nat (S (length T))) <? mh) = true)
            as -> by (apply Z.ltb_lt; lia). done. }
        assert (Z.to_nat (nmain (t_wm st') !!! m - t_i st' !!! m) = 0%nat) as En'.
        { rewrite Hnmain, Hi'. lia. }
        specialize (IH st' Hnd). rewrite Hfilter, En' in IH.
        fold T in IH. rewrite drop_0 in IH. rewrite IH.
        -- rewrite Hty''. lia.
        -- lia.
        -- lia.
        -- lia.
        -- rewrite Hi'. lia.
        -- done.
        -- rewrite Hty''.
           eapply (fits_ext _ _ _ (mh - ty) _ (c :: T)); [| |exact Hfits].
           ++ intros c' Hc'. apply deref_tile_ne. intros ->.
              by apply (filter_ontile_subset_drop _ _ 0) in Hc'.
           ++ replace (Z.of_nat (S (length T)) - 1) with (Z.of_nat (length T))
                in Hnext by lia.
              replace (mh - (ty + Z.quot (mh - ty) (Z.of_nat (S (length T)))))
                with (mh - ty - Z.quot (mh - ty) (Z.of_nat (S (length T)))) by lia.
              exact Hnext.
    + (* [c] goes to the main region *)
      cbn [drop] in *. cbn [length] in Hnm.
      destruct (tile_main_counts cfg m Hm nm st c Hon Hli) as (Hi' & Hty'); [lia|].
      fold st' i ty in Hi', Hty'.
      assert (Z.to_nat (nmain (t_wm st') !!! m - t_i st' !!! m) = n) as En'.
      { rewrite Hnmain, Hi'. lia. }
      specialize (IH st' Hnd). rewrite Hfilter, En', Hty' in IH. fold T in IH.
      apply IH; [lia..| |done|].
      * rewrite Hi'. lia.
      * eapply fits_ext; [|reflexivity|exact Hfits].
        intros c' Hc'. apply deref_tile_ne. intros ->.
        by apply filter_ontile_subset_drop in Hc'.
  - (* [c] is no tiled client of [m] *)
    pose proof (tile_other cfg m nm st c Hon) as (Hi' & _ & Hty').
    fold st' in Hi', Hty'.
    specialize (IH st' Hnd). rewrite Hfilter, Hnmain, Hi', Hty' in IH.
    apply IH; [lia..|done|done|].
    eapply fits_ext; [|reflexivity|exact Hfits].
    intros c' Hc'. apply deref_tile_ne. intros ->.
    by apply filter_ontile_subset_drop in Hc'.
Qed.

End TileFold.

Section Heights.

Variable cfg : Config.
Variable m : nat.
Hypothesis Hm : (m < 32)%nat.

(** The first loop of [arrange] counts the tiled clients of [m]. *)
Lemma counttiled_spec (s : WM) :
  counttiled cfg s !!! m = Z.of_nat (length (tiledon cfg s m)).
Proof.
  unfold counttiled, tiledon.
  assert (∀ l nm0, length nm0 = 32%nat →
            fold_left
              (λ nm c, if istiled s c
                       then <[monof cfg (deref s c) := nm !!! monof cfg (deref s c) + 1]> nm
                       else nm) l nm0 !!! m
            = nm0 !!! m + Z.of_nat (length (List.filter (ontile cfg s m) l))) as Hgen.
  { induction l as [|c l IH]; intros nm0 Hlen; cbn [fold_left List.filter length].
    { lia. }
    destruct (istiled s c) eqn:Ht.
    - rewrite IH by (by rewrite length_insert).
      assert (ontile cfg s m c = bool_decide (monof cfg (deref s c) = m)) as ->
        by (unfold ontile; by rewrite Ht).
      case_bool_decide as Hmon.
      + rewrite Hmon, list_lookup_total_insert_eq by lia. cbn [length]. lia.
      + by rewrite list_lookup_total_insert_ne.
    - rewrite IH by done.
      assert (ontile cfg s m c = false) as -> by (unfold ontile; by rewrite Ht).
      done. }
  rewrite Hgen by apply length_replicate.
  rewrite lookup_total_replicate_2 by lia. lia.
Qed.

(** The tiling loop fills the height of the monitor in each region that
    holds a client. *)
Lemma tileall_heights (s : WM) (region : list ptr) :
  NoDup (clients s) →
  region = mainregion cfg s m ∨ region = secondregion cfg s m →
  region ≠ [] →
  fits s (Monitor.mh (mon cfg m)) region →
  sumheights (tileall cfg s) region = Monitor.mh (mon cfg m).
Proof.
  intros Hnd Hregion Hne Hfits. unfold tileall.
  set (st := {| t_wm := s; t_i := replicate 32 0; t_my := replicate 32 0;
                t_ty := replicate 32 0 |}).
  assert (t_i st !!! m = 0 ∧ t_my st !!! m = 0 ∧ t_ty st !!! m = 0) as (Hi & Hmy & Hty).
  { unfold st. cbn [t_i t_my t_ty]. by rewrite lookup_total_replicate_2 by lia. }
  assert (Z.to_nat (nmain (t_wm st) !!! m - t_i st !!! m) = Z.to_nat (nmain s !!! m))
    as Hn by (rewrite Hi; unfold st; cbn [t_wm]; by rewrite Z.sub_0_r).
  destruct Hregion as [-> | ->].
  - pose proof (tiles_main cfg m Hm (counttiled cfg s) (clients s) st Hnd) as H.
    rewrite Hn, Hmy, Hi, Z.sub_0_r in H. apply H; clear H.
    + apply length_replicate.
    + apply length_replicate.
    + apply length_replicate.
    + rewrite counttiled_spec. unfold tiledon, st. cbn [t_wm]. lia.
    + exact Hne.
    + exact Hfits.
  - pose proof (tiles_second cfg m Hm (counttiled cfg s) (clients s) st Hnd) as H.
    rewrite Hn, Hty, Hi, Z.sub_0_r in H. apply H; clear H.
    + apply length_replicate.
    + apply length_replicate.
    + apply length_replicate.
    + rewrite counttiled_spec. unfold tiledon, st. cbn [t_wm]. lia.
    + exact Hne.
    + exact Hfits.
Qed.

Lemma elem_of_unlink (p c : ptr) (l : list ptr) : c ∈ unlink p l → c ∈ l.
Proof.
  induction l as [|q l IH]; cbn; [done|].
  case_decide; [by right|].
  intros [->|Hc]%elem_of_cons; [by left|]. right. by apply IH.
Qed.

Lemma NoDup_unlink (p : ptr) (l : list ptr) :
  NoDup l → NoDup (unlink p l) ∧ p ∉ unlink p l.
Proof.
  induction l as [|q l IH]; cbn; intros Hnd.
  { split; [done|]. apply not_elem_of_nil. }
  apply NoDup_cons in Hnd as [Hq Hnd]. destruct (IH Hnd) as [IH1 IH2].
  case_decide as Hqp.
  - subst q. done.
  - split.
    + apply NoDup_cons. split; [|done]. intros Hin. by apply elem_of_unlink in Hin.
    + apply not_elem_of_cons. split; [congruence|done].
Qed.

Lemma filter_unlink (f : ptr → bool) (p : ptr) (l : list ptr) :
  f p = false → List.filter f (unlink p l) = List.filter f l.
Proof.
  intros Hp. induction l as [|q l IH]; cbn; [done|].
  case_decide as Hqp.
  - subst q. by rewrite Hp.
  - cbn. by rewrite IH.
Qed.

Lemma clients_stackwindows (s : WM) :
  clients (stackwindows s)
  = match pinned s with
    | Some p => if Client.isfloating (deref s p)
                then p :: unlink p (clients s) else clients s
    | None => clients s
    end.
Proof.
  unfold stackwindows. cbv zeta. cbn [clients set_netclistack].
  unfold liftpinned. destruct (pinned s) as [p|]; [|done].
  by destruct (Client.isfloating (deref s p)).
Qed.

Lemma clients_focus (c : option ptr) (s : WM) :
  clients (focus c s)
  = match pinned s with
    | Some p => if Client.isfloating (deref s p)
                then p :: unlink p (clients s) else clients s
    | None => clients s
    end.
Proof. unfold focus. cbv zeta. rewrite clients_stackwindows. reflexivity. Qed.

(** [focus(NULL)], with which [arrange] begins, changes neither the
    structs nor the tiled clients of a monitor, and keeps the list free of
    repetitions. *)
Lemma focus_tiling (s : WM) :
  (∀ c, deref (focus None s) c = deref s c)
  ∧ nmain (focus None s) = nmain s
  ∧ tiledon cfg (focus None s) m = tiledon cfg s m
  ∧ (NoDup (clients s) → NoDup (clients (focus None s))).
Proof.
  split; [intros c; apply deref_focus|].
  assert (settings (focus None s) = settings s) as Hset.
  { unfold focus. by rewrite settings_stackwindows. }
  assert (nmain (focus None s) = nmain s) as Hnmain
    by (unfold settings in Hset; congruence).
  assert (tagset (focus None s) = tagset s) as Htag
    by (unfold settings in Hset; congruence).
  split; [done|].
  assert (∀ c, ontile cfg (focus None s) m c = ontile cfg s m c) as Hon.
  { intros c. unfold ontile, istiled, ISVISIBLE. by rewrite deref_focus, Htag. }
  unfold tiledon. rewrite (List.filter_ext _ _ Hon).
  rewrite clients_focus.
  destruct (pinned s) as [p|]; [|done].
  destruct (Client.isfloating (deref s p)) eqn:Hfl; [|done].
  split.
  - cbn [List.filter].
    assert (ontile cfg s m p = false) as Hp.
    { unfold ontile, istiled. by rewrite Hfl. }
    rewrite Hp. by apply filter_unlink.
  - intros Hnd. apply NoDup_cons. destruct (NoDup_unlink p _ Hnd). done.
Qed.

End Heights.

(** C2, as the code has it. After [arrange], in every main or secondary
    region of a monitor that holds a client, the heights of the clients,
    borders included, add up to the height of the monitor, provided no
    size hint bears on the height of a client of the region and an equal
    share of the monitor height holds the border of each of them and a
    window one pixel high. (The list of clients has no repetition, being
    a linked list, and [m] is one of the 32 monitors that [arrange]
    provides for.) *)
Theorem arrange_region_heights (cfg : Config) (s : WM) (m : nat) (region : list ptr) :
  NoDup (clients s) →
  (m < 32)%nat →
  region = mainregion cfg s m ∨ region = secondregion cfg s m →
  region ≠ [] →
  fits s (Monitor.mh (mon cfg m)) region →
  sumheights (arrange cfg s) region = Monitor.mh (mon cfg m).
Proof.
  intros Hnd Hm Hreg Hne Hfits.
  destruct (focus_tiling cfg m s) as (Hderef & Hnmain & Htiled & Hnd').
  unfold arrange. cbv zeta.
  rewrite (sumheights_ext _ (tileall cfg (focus None s)))
    by (intros; apply deref_restack).
  apply (tileall_heights cfg m Hm (focus None s) region).
  - by apply Hnd'.
  - unfold mainregion, secondregion. rewrite Htiled, Hnmain. exact Hreg.
  - exact Hne.
  - apply (fits_ext _ s _ (Monitor.mh (mon cfg m)) _ region).
    + intros. apply Hderef.
    + reflexivity.
    + exact Hfits.
Qed.

Lemma arrange_region_heights_witness :
  secondregion Scenario.cfg (Scenario.added3 1) 0 = [Scenario.B; Scenario.A]
  ∧ sumheights (arrange Scenario.cfg (Scenario.added3 1)) [Scenario.B; Scenario.A]
    = 1080.
Proof.
  assert (secondregion Scenario.cfg (Scenario.added3 1) 0 = [Scenario.B; Scenario.A])
    as Hregion by (vm_compute; reflexivity).
  split; [exact Hregion|].
  apply (arrange_region_heights Scenario.cfg (Scenario.added3 1) 0
           [Scenario.B; Scenario.A]).
  - apply (bool_decide_unpack _). vm_compute. exact I.
  - lia.
  - right. symmetry. exact Hregion.
  - discriminate.
  - apply (bool_decide_unpack _). vm_compute. exact I.
Defined.

(** C2, as stated, fails where a share is too small for a border: with
    borders 300 wide the two clients of the secondary region each take
    601 pixels of height (1 for the window), 1202 in all on a monitor of
    height 1080. *)
Lemma arrange_region_overflows :
  let s := Scenario.added3 300 in
  secondregion Scenario.cfg s 0 = [Scenario.B; Scenario.A]
  ∧ sumheights (arrange Scenario.cfg s) (secondregion Scenario.cfg s 0) = 1202
  ∧ Monitor.mh (mon Scenario.cfg 0) = 1080
  ∧ sumheights (arrange Scenario.cfg s) (secondregion Scenario.cfg s 0)
    ≠ Monitor.mh (mon Scenario.cfg 0).
Proof. vm_compute. repeat split; discriminate. Qed.

(** ** Removal, through [unmanage] *)

Section Unmanage.

Variable cfg : Config.

Lemma forgotten_stackwindows (c : ptr) (s : WM) :
  forgotten c s → forgotten c (stackwindows s).
Proof.
  intros (Hsel & Hpin & Hcl). unfold forgotten.
  rewrite sel_stackwindows, pinned_stackwindows, clients_stackwindows.
  split; [done|]. split; [done|].
  destruct (pinned s) as [p|]; [|done].
  destruct (Client.isfloating (deref s p)); [|done].
  apply not_elem_of_cons. split; [congruence|].
  intros Hin. by apply elem_of_unlink in Hin.
Qed.

Lemma forgotten_focus (c : ptr) (s : WM) :
  forgotten c s → forgotten c (focus None s).
Proof.
  intros (Hsel & Hpin & Hcl). unfold focus. cbv zeta.
  apply forgotten_stackwindows. unfold forgotten. cbn [sel pinned clients set_sel].
  split; [|done].
  destruct (match sel s with Some p => ISVISIBLE s p | None => false end); [done|].
  intros Hfind%find_some. destruct Hfind as [Hin%list_elem_of_In _]. done.
Qed.

Lemma forgotten_tileall (c : ptr) (s : WM) :
  forgotten c s → forgotten c (tileall cfg s).
Proof.
  unfold forgotten, tileall.
  pose proof (shell_tiles cfg (counttiled cfg s) (clients s)
    {| t_wm := s; t_i := replicate 32 0; t_my := replicate 32 0;
       t_ty := replicate 32 0 |}) as H%shell_fields.
  cbn [t_wm] in H. destruct H as (-> & -> & _ & -> & _). done.
Qed.

Lemma forgotten_set_heap (c : ptr) (s : WM) (h : gmap ptr Client) :
  forgotten c s → forgotten c (set_heap s h).
Proof. done. Qed.

Lemma raised_set_heap (s : WM) (h : gmap ptr Client) :
  raised (set_heap s h) = raised s.
Proof. reflexivity. Qed.

Lemma forgotten_remove (c : ptr) (s : WM) :
  NoDup (clients s) → forgotten c (restack (Some c) CliRemove s).
Proof.
  intros Hnd. unfold restack. apply forgotten_stackwindows. unfold forgotten.
  cbn [sel pinned clients set_sel set_raised set_pinned detach set_clients].
  split; [case_bool_decide; congruence|]. split; [case_bool_decide; congruence|].
  by destruct (NoDup_unlink c _ Hnd).
Qed.

Lemma forgotten_arrange (c : ptr) (s : WM) :
  forgotten c s → forgotten c (arrange cfg s) ∧ raised (arrange cfg s) ≠ Some c.
Proof.
  intros H1. unfold arrange. cbv zeta.
  apply forgotten_focus, forgotten_tileall in H1.
  generalize dependent (tileall cfg (focus None s)). intros t H1.
  unfold restack. split.
  - apply forgotten_stackwindows. exact H1.
  - rewrite raised_stackwindows. cbn [raised set_raised]. by destruct H1.
Qed.

(** After [unmanage(c)] the selection, the pinned and the raised
    reference and the client list are all free of [c]: nothing that
    follows reaches the freed struct through them. *)
Lemma unmanage_forgets (c : ptr) (s : WM) :
  NoDup (clients s) →
  forgotten c (unmanage cfg c s) ∧ raised (unmanage cfg c s) ≠ Some c.
Proof.
  intros Hnd%(forgotten_remove c)%forgotten_arrange. destruct Hnd as [H1 H2].
  unfold unmanage. cbv zeta. split.
  - apply forgotten_set_heap. exact H1.
  - rewrite raised_set_heap. exact H2.
Qed.

End Unmanage.

(** ** What the core functions leave alone *)

Section MoreFrames.

Variable cfg : Config.

Lemma shell_tileall (s : WM) : shell (tileall cfg s) = shell s.
Proof.
  unfold tileall.
  apply (shell_tiles cfg (counttiled cfg s) (clients s)
    {| t_wm := s; t_i := replicate 32 0; t_my := replicate 32 0;
       t_ty := replicate 32 0 |}).
Qed.

Lemma sel_tileall (s : WM) : sel (tileall cfg s) = sel s.
Proof. by destruct (shell_fields _ _ (shell_tileall s)) as (_&_&_&->&_). Qed.

Lemma clients_tileall (s : WM) : clients (tileall cfg s) = clients s.
Proof. by destruct (shell_fields _ _ (shell_tileall s)) as (->&_). Qed.

Lemma pinned_tileall (s : WM) : pinned (tileall cfg s) = pinned s.
Proof. by destruct (shell_fields _ _ (shell_tileall s)) as (_&->&_). Qed.

Lemma raised_tileall (s : WM) : raised (tileall cfg s) = raised s.
Proof. by destruct (shell_fields _ _ (shell_tileall s)) as (_&_&->&_). Qed.

Lemma sel_set_raised (s : WM) (r : option ptr) : sel (set_raised s r) = sel s.
Proof. reflexivity. Qed.

Lemma raised_set_raised (s : WM) (r : option ptr) : raised (set_raised s r) = r.
Proof. reflexivity. Qed.

Lemma sel_raise (c : option ptr) (s : WM) : sel (restack c CliRaise s) = sel s.
Proof. unfold restack. by rewrite sel_stackwindows. Qed.

Lemma raised_raise (c : option ptr) (s : WM) : raised (restack c CliRaise s) = c.
Proof. unfold restack. by rewrite raised_stackwindows. Qed.

Lemma sel_arrange (s : WM) : sel (arrange cfg s) = sel (focus None s).
Proof. unfold arrange. cbv zeta. by rewrite sel_raise, sel_tileall. Qed.

Lemma raised_arrange (s : WM) : raised (arrange cfg s) = sel (focus None s).
Proof. unfold arrange. cbv zeta. by rewrite raised_raise, sel_tileall. Qed.

Lemma pinned_arrange (s : WM) : pinned (arrange cfg s) = pinned s.
Proof. pose proof (settings_arrange cfg s) as H. unfold settings in H. congruence. Qed.

Lemma ctrlmode_arrange (s : WM) : ctrlmode (arrange cfg s) = ctrlmode s.
Proof. pose proof (settings_arrange cfg s) as H. unfold settings in H. congruence. Qed.

Lemma tags_eq_ungeom (a b : Client) : ungeom a = ungeom b → Client.tags a = Client.tags b.
Proof. intros H. rewrite <- (tags_ungeom a), H. apply tags_ungeom. Qed.

Lemma tags_arrange (s : WM) (c : ptr) :
  Client.tags (deref (arrange cfg s) c) = Client.tags (deref s c).
Proof. by rewrite <- tags_ungeom, ungeom_arrange. Qed.

Lemma ISVISIBLE_ext (s1 s2 : WM) (c : ptr) :
  Client.tags (deref s1 c) = Client.tags (deref s2 c) → tagset s1 = tagset s2 →
  ISVISIBLE s1 c = ISVISIBLE s2 c.
Proof. unfold ISVISIBLE. by intros -> ->. Qed.

Lemma ISVISIBLE_arrange (s : WM) (c : ptr) :
  ISVISIBLE (arrange cfg s) c = ISVISIBLE s c.
Proof. apply ISVISIBLE_ext; [apply tags_arrange|apply tagset_arrange]. Qed.

Lemma ISVISIBLE_focus (o : option ptr) (s : WM) (c : ptr) :
  ISVISIBLE (focus o s) c = ISVISIBLE s c.
Proof.
  apply ISVISIBLE_ext.
  - by rewrite deref_focus.
  - unfold focus. by rewrite tagset_stackwindows.
Qed.

Lemma ISVISIBLE_restack (o : option ptr) (mode : StackAction) (s : WM) (c : ptr) :
  tagset (restack o mode s) = tagset s →
  ISVISIBLE (restack o mode s) c = ISVISIBLE s c.
Proof. intros H. apply ISVISIBLE_ext; [by rewrite deref_restack|done]. Qed.

(** What [focus] selects, in one expression. *)
Lemma sel_focus (o : option ptr) (s : WM) :
  sel (focus o s)
  = if match o with Some p => ISVISIBLE s p | None => false end then o
    else if match sel s with Some p => ISVISIBLE s p | None => false end then sel s
    else find (ISVISIBLE s) (clients s).
Proof. unfold focus. by rewrite sel_stackwindows. Qed.


Lemma sel_focus_elem (o : option ptr) (s : WM) (p : ptr) :
  (∀ c, o = Some c → c ∈ clients s) →
  (∀ c, sel s = Some c → c ∈ clients s) →
  sel (focus o s) = Some p → p ∈ clients s.
Proof.
  intros Ho Hs. rewrite sel_focus.
  destruct (match o with Some p0 => ISVISIBLE s p0 | None => false end).
  { apply Ho. }
  destruct (match sel s with Some p0 => ISVISIBLE s p0 | None => false end).
  { apply Hs. }
  intros Hp. apply find_some in Hp as [Hp _]. by apply list_elem_of_In.
Qed.


(** [arrange] keeps a visible selection. *)
Lemma sel_arrange_keep (s : WM) (c : ptr) :
  sel s = Some c → ISVISIBLE s c = true → sel (arrange cfg s) = Some c.
Proof. intros Hsel Hvis. rewrite sel_arrange, sel_focus, Hsel, Hvis. done. Qed.

Lemma unlink_head (p : ptr) (l : list ptr) : unlink p (p :: l) = l.
Proof. cbn. by rewrite decide_True. Qed.

Lemma elem_of_unlink_ne (p c : ptr) (l : list ptr) :
  c ≠ p → c ∈ l → c ∈ unlink p l.
Proof.
  intros Hne. induction l as [|q l IH]; [done|]. cbn.
  destruct (decide (q = p)) as [->|Hq].
  - intros [?|?]%elem_of_cons; done.
  - intros [->|?]%elem_of_cons; [left|right; auto].
Qed.

Lemma length_unlink (p : ptr) (l : list ptr) :
  p ∈ l → S (length (unlink p l)) = length l.
Proof.
  induction l as [|q l IH]; [by intros ?%elem_of_nil|]. cbn.
  destruct (decide (q = p)) as [->|Hq]; [done|].
  intros [->|Hin]%elem_of_cons; [done|]. cbn. by rewrite IH.
Qed.

Lemma unlink_permutation (p : ptr) (l : list ptr) :
  p ∈ l → p :: unlink p l ≡ₚ l.
Proof.
  induction l as [|q l IH]; [by intros ?%elem_of_nil|]. cbn.
  destruct (decide (q = p)) as [->|Hq]; [done|].
  intros [->|Hin]%elem_of_cons; [done|].
  rewrite Permutation_swap. by rewrite IH.
Qed.

Lemma lifted_permutation (s : WM) :
  (∀ p, pinned s = Some p → p ∈ clients s) → lifted s ≡ₚ clients s.
Proof.
  intros Hp. unfold lifted. destruct (pinned s) as [p|]; [|done].
  destruct (Client.isfloating (deref s p)); [|done].
  apply unlink_permutation. by apply Hp.
Qed.

End MoreFrames.

(** ** Workspaces: [tag], [view], [viewshift], [viewtagshift] *)

Section Workspaces.

Variable cfg : Config.

Lemma deref_set_tagset (s : WM) (v : Z) (c : ptr) : deref (set_tagset s v) c = deref s c.
Proof. reflexivity. Qed.

Lemma sel_set_tagset (s : WM) (v : Z) : sel (set_tagset s v) = sel s.
Proof. reflexivity. Qed.

Lemma tagset_set_tagset (s : WM) (v : Z) : tagset (set_tagset s v) = v.
Proof. reflexivity. Qed.

Lemma sel_store (s : WM) (c : ptr) (v : Client) : sel (store s c v) = sel s.
Proof. reflexivity. Qed.

Lemma tagset_store (s : WM) (c : ptr) (v : Client) : tagset (store s c v) = tagset s.
Proof. reflexivity. Qed.

Lemma clients_store (s : WM) (c : ptr) (v : Client) : clients (store s c v) = clients s.
Proof. reflexivity. Qed.

Lemma ISVISIBLE_unfold (s : WM) (c : ptr) :
  ISVISIBLE s c = negb (Z.land (Client.tags (deref s c)) (tagset s) =? 0).
Proof. reflexivity. Qed.

Lemma ISVISIBLE_true (s : WM) (c : ptr) :
  ISVISIBLE s c = true ↔ Z.land (Client.tags (deref s c)) (tagset s) ≠ 0.
Proof. rewrite ISVISIBLE_unfold, negb_true_iff, Z.eqb_neq. done. Qed.

Lemma ISVISIBLE_false (s : WM) (c : ptr) :
  ISVISIBLE s c = false ↔ Z.land (Client.tags (deref s c)) (tagset s) = 0.
Proof. rewrite ISVISIBLE_unfold, negb_false_iff, Z.eqb_eq. done. Qed.

End Workspaces.




(** ** Shifting the view: [TAGSHIFT] *)

Section TagShift.

Variable cfg : Config.

Lemma u32_bits (z b : Z) : Z.testbit (u32 z) b = (b <? 32) && Z.testbit z b.
Proof. unfold u32. by rewrite Z.testbit_mod_pow2 by lia. Qed.

(** A bit of the shifted mask comes from the bit [L] places below, if it
    stays within the 32 bits, or from the bit [R] places above, where
    [L + R] is [tagslen] and [L] is the shift or the shift plus
    [tagslen]. *)
Lemma TAGSHIFT_bits (I : Z) :
  - tagslen cfg ≤ I ≤ tagslen cfg →
  ∃ L R, 0 ≤ L ∧ 0 ≤ R ∧ L + R = tagslen cfg ∧ (L = I ∨ L = tagslen cfg + I)
         ∧ ∀ T b, 0 ≤ b →
                  Z.testbit (TAGSHIFT cfg T I) b
                  = ((b <? 32) && Z.testbit T (b - L)) || Z.testbit T (b + R).
Proof.
  intros HI. unfold TAGSHIFT. destruct (Z.ltb_spec I 0) as [Hneg|Hpos].
  - exists (tagslen cfg + I), (- I). repeat split; try lia.
    intros T b Hb. rewrite Z.lor_spec, u32_bits, Z.shiftl_spec, Z.shiftr_spec by lia.
    apply orb_comm.
  - exists I, (tagslen cfg - I). repeat split; try lia.
    intros T b Hb. by rewrite Z.lor_spec, u32_bits, Z.shiftl_spec, Z.shiftr_spec by lia.
Qed.

Lemma testbit_high (t b : Z) : 0 ≤ t < 2 ^ 32 → 32 ≤ b → Z.testbit t b = false.
Proof.
  intros Ht Hb. destruct (decide (t = 0)) as [->|Hne]; [apply Z.bits_0|].
  apply Z.bits_above_log2; [lia|].
  assert (Z.log2 t < 32) by (apply Z.log2_lt_pow2; lia). lia.
Qed.

Lemma u32_range (t : Z) :
  0 ≤ t → (∀ b, 32 ≤ b → Z.testbit t b = false) → 0 ≤ t < 2 ^ 32.
Proof.
  intros Ht Hhigh. assert (t = u32 t) as ->.
  { apply Z.bits_inj'. intros b Hb. rewrite u32_bits.
    destruct (Z.ltb_spec b 32); [done|]. by rewrite Hhigh. }
  unfold u32. apply Z.mod_pos_bound. lia.
Qed.

Lemma TAGSHIFT_nonneg (T I : Z) : 0 ≤ T → 0 ≤ TAGSHIFT cfg T I.
Proof.
  intros HT. unfold TAGSHIFT, u32.
  destruct (I <? 0); apply Z.lor_nonneg; split;
    try (apply Z.shiftr_nonneg; lia); apply Z.mod_pos_bound; lia.
Qed.

Lemma TAGSHIFT_range (T I : Z) :
  - tagslen cfg ≤ I ≤ tagslen cfg → 0 ≤ T < 2 ^ 32 → 0 ≤ TAGSHIFT cfg T I < 2 ^ 32.
Proof.
  intros HI HT. apply u32_range; [apply TAGSHIFT_nonneg; lia|].
  intros b Hb. destruct (TAGSHIFT_bits I HI) as (L & R & HL & HR & _ & _ & Hbits).
  rewrite Hbits by lia.
  destruct (Z.ltb_spec b 32); [lia|]. cbn. apply testbit_high; [done|lia].
Qed.

(** Below [tagslen] the shifted mask is the mask turned by [I] places. *)
Lemma TAGSHIFT_low (T I k : Z) :
  - tagslen cfg ≤ I ≤ tagslen cfg → tagslen cfg ≤ 32 →
  wrapped (tagslen cfg) T → 0 ≤ k < tagslen cfg →
  Z.testbit (TAGSHIFT cfg T I) k = Z.testbit T ((k - I) mod tagslen cfg).
Proof.
  intros HI Hn [HT Hw] Hk.
  destruct (TAGSHIFT_bits I HI) as (L & R & HL & HR & HLR & HLI & Hbits).
  rewrite Hbits by lia. replace (k <? 32) with true by (symmetry; apply Z.ltb_lt; lia).
  cbn [andb].
  destruct (Z.lt_ge_cases k L) as [Hlt|Hge].
  - rewrite (Z.testbit_neg_r T (k - L)) by lia. cbn [orb].
    f_equal. apply (Z.mod_unique_pos _ _ (if decide (L = I) then -1 else 0)).
    + lia.
    + destruct (decide (L = I)); lia.
  - assert ((k - I) mod tagslen cfg = k - L) as ->.
    { symmetry. apply (Z.mod_unique_pos _ _ (if decide (L = I) then 0 else 1)).
      - lia.
      - destruct (decide (L = I)); lia. }
    destruct (Z.testbit T (k - L)) eqn:E1; [done|]. cbn [orb].
    destruct (Z.testbit T (k + R)) eqn:E2; [|done].
    apply Hw in E2; [|lia].
    assert ((k + R) mod tagslen cfg = k - L) as Heq.
    { symmetry. apply (Z.mod_unique_pos _ _ 1); lia. }
    rewrite Heq in E2. congruence.
Qed.

Lemma TAGSHIFT_wrapped (T I : Z) :
  0 < tagslen cfg ≤ 32 → - tagslen cfg ≤ I ≤ tagslen cfg →
  wrapped (tagslen cfg) T → wrapped (tagslen cfg) (TAGSHIFT cfg T I).
Proof.
  intros Hn HI HT. split; [apply TAGSHIFT_range; [done|apply HT]|].
  intros b Hb Hbit.
  assert (0 ≤ b mod tagslen cfg < tagslen cfg) as Hm by (apply Z.mod_pos_bound; lia).
  rewrite TAGSHIFT_low by (done || lia).
  destruct HT as [HT Hw].
  destruct (TAGSHIFT_bits I HI) as (L & R & HL & HR & HLR & HLI & Hbits).
  rewrite Hbits in Hbit by lia.
  assert (∀ a, a mod tagslen cfg = (b mod tagslen cfg - I) mod tagslen cfg →
               Z.testbit T a = true → 0 ≤ a →
               Z.testbit T ((b mod tagslen cfg - I) mod tagslen cfg) = true) as Hgo.
  { intros a <- Ha Ha0. by apply Hw. }
  apply orb_true_iff in Hbit as [[_ Hbit]%andb_true_iff|Hbit].
  - destruct (Z.lt_ge_cases (b - L) 0) as [Hlt|Hge].
    { by rewrite Z.testbit_neg_r in Hbit. }
    apply (Hgo (b - L)); [|done|done].
    rewrite (Zminus_mod_idemp_l b I).
    destruct HLI as [->| ->]; [done|].
    replace (b - (tagslen cfg + I)) with (b - I + (-1) * tagslen cfg) by lia.
    by rewrite Z_mod_plus_full.
  - apply (Hgo (b + R)); [|done|lia].
    rewrite (Zminus_mod_idemp_l b I).
    replace (b + R) with (b - L + 1 * tagslen cfg) by lia.
    rewrite Z_mod_plus_full.
    destruct HLI as [->| ->]; [done|].
    replace (b - (tagslen cfg + I)) with (b - I + (-1) * tagslen cfg) by lia.
    by rewrite Z_mod_plus_full.
Qed.

(** A mask within the first [n] bits is wrapped. *)
Lemma wrapped_low (n t : Z) : 0 < n ≤ 32 → 0 ≤ t < 2 ^ n → wrapped n t.
Proof.
  intros Hn Ht. split.
  - split; [lia|]. apply Z.lt_le_trans with (2 ^ n); [lia|].
    apply Z.pow_le_mono_r; lia.
  - intros b Hb Hbit. destruct (Z.lt_ge_cases b n) as [Hlt|Hge].
    + by rewrite Z.mod_small by lia.
    + destruct (decide (t = 0)) as [->|Hne]; [by rewrite Z.bits_0 in Hbit|].
      rewrite Z.bits_above_log2 in Hbit; [done|lia|].
      assert (Z.log2 t < n) by (apply Z.log2_lt_pow2; lia). lia.
Qed.

(** Two masks that share a workspace share one after the same shift. *)
Lemma TAGSHIFT_meet (T U I : Z) :
  0 ≤ tagslen cfg ≤ 32 → - tagslen cfg ≤ I ≤ tagslen cfg →
  0 ≤ T < 2 ^ 32 → 0 ≤ U →
  Z.land T U ≠ 0 → Z.land (TAGSHIFT cfg T I) (TAGSHIFT cfg U I) ≠ 0.
Proof.
  intros Hn HI HT HU Hmeet.
  assert (0 ≤ Z.land T U) as Hnn by (apply Z.land_nonneg; lia).
  pose proof (Z.bit_log2 (Z.land T U) ltac:(lia)) as Hbit.
  pose proof (Z.log2_nonneg (Z.land T U)) as Hb0.
  set (b := Z.log2 (Z.land T U)) in *. clearbody b.
  rewrite Z.land_spec in Hbit. apply andb_true_iff in Hbit as [HbT HbU].
  assert (b < 32) as Hb32.
  { destruct (Z.lt_ge_cases b 32); [done|]. by rewrite testbit_high in HbT. }
  destruct (TAGSHIFT_bits I HI) as (L & R & HL & HR & HLR & HLI & Hbits).
  pose proof (Hbits T) as HbitsT. pose proof (Hbits U) as HbitsU.
  intros Hz.
  assert (∀ k, 0 ≤ k → Z.testbit (TAGSHIFT cfg T I) k && Z.testbit (TAGSHIFT cfg U I) k = false)
    as Hall.
  { intros k Hk. by rewrite <- Z.land_spec, Hz, Z.bits_0. }
  destruct (Z.lt_ge_cases (b + L) 32) as [Hlt|Hge].
  - specialize (Hall (b + L) ltac:(lia)).
    rewrite HbitsT, HbitsU in Hall by lia.
    replace (b + L - L) with b in Hall by lia. rewrite HbT, HbU in Hall.
    replace (b + L <? 32) with true in Hall by (symmetry; apply Z.ltb_lt; lia).
    done.
  - specialize (Hall (b - R) ltac:(lia)).
    rewrite HbitsT, HbitsU in Hall by lia.
    replace (b - R + R) with b in Hall by lia. rewrite HbT, HbU in Hall.
    by rewrite !orb_true_r in Hall.
Qed.

End TagShift.

(** X3. [viewshift] turns the workspaces shown by [arg] places within
    the [tagslen] workspaces: workspace [k] is shown afterwards exactly
    when workspace [k - arg], counted modulo [tagslen], was shown
    before. The mask is not cut to [TAGMASK], so bits above it get set;
    they repeat bits below it ([wrapped]), which is what every further
    shift needs to turn the workspaces again. *)
Theorem viewshift_rotates (cfg : Config) (arg : Z) (s : WM) :
  0 < tagslen cfg < 32 →
  - tagslen cfg ≤ arg ≤ tagslen cfg →
  wrapped (tagslen cfg) (tagset s) →
  let s' := viewshift cfg arg s in
  tagset s' = TAGSHIFT cfg (tagset s) arg
  ∧ wrapped (tagslen cfg) (tagset s')
  ∧ ∀ k, 0 ≤ k < tagslen cfg →
         Z.testbit (tagset s') k = Z.testbit (tagset s) ((k - arg) mod tagslen cfg).
Proof.
  intros Hn Harg Hw. cbv zeta. unfold viewshift.
  rewrite tagset_arrange, tagset_set_tagset.
  split; [done|]. split.
  - apply TAGSHIFT_wrapped; (done || lia).
  - intros k Hk. apply TAGSHIFT_low; (done || lia).
Qed.

Lemma viewshift_rotates_witness :
  tagset (viewshift Scenario.cfg 1 (view Scenario.cfg 256 Scenario.tiled3)) = 513
  ∧ Z.testbit (tagset (viewshift Scenario.cfg 1 (view Scenario.cfg 256 Scenario.tiled3))) 0
    = true.
Proof.
  destruct (viewshift_rotates Scenario.cfg 1 (view Scenario.cfg 256 Scenario.tiled3))
    as (Ht & _ & Hk).
  - cbn. lia.
  - cbn. lia.
  - apply wrapped_low; [cbn; lia|]. vm_compute. split; [discriminate|reflexivity].
  - split.
    + rewrite Ht. vm_compute. reflexivity.
    + rewrite (Hk 0) by (cbn; lia). vm_compute. reflexivity.
Defined.

(** X4. [viewtagshift] takes the selected client along: its tags and
    the view are shifted alike, and a selected client that was visible
    is visible and selected afterwards. *)
Theorem viewtagshift_keeps (cfg : Config) (arg : Z) (s : WM) (c : ptr) :
  0 ≤ tagslen cfg < 32 →
  - tagslen cfg ≤ arg ≤ tagslen cfg →
  sel s = Some c →
  ISVISIBLE s c = true →
  0 ≤ Client.tags (deref s c) < 2 ^ 32 →
  0 ≤ tagset s →
  let s' := viewtagshift cfg arg s in
  sel s' = Some c
  ∧ ISVISIBLE s' c = true
  ∧ Client.tags (deref s' c) = TAGSHIFT cfg (Client.tags (deref s c)) arg
  ∧ tagset s' = TAGSHIFT cfg (tagset s) arg.
Proof.
  intros Hn Harg Hsel Hvis Htags Htagset. cbv zeta.
  unfold viewtagshift, viewshift. rewrite Hsel.
  set (s1 := store s c _).
  assert (Client.tags (deref s1 c) = TAGSHIFT cfg (Client.tags (deref s c)) arg) as Htc
    by (unfold s1; by rewrite deref_store).
  assert (tagset s1 = tagset s) as Hts by reflexivity.
  assert (sel s1 = Some c) as Hsel1 by exact Hsel.
  clearbody s1. rewrite Hts.
  set (s2 := set_tagset s1 _).
  assert (Client.tags (deref s2 c) = TAGSHIFT cfg (Client.tags (deref s c)) arg) as Htc2
    by exact Htc.
  assert (tagset s2 = TAGSHIFT cfg (tagset s) arg) as Hts2 by reflexivity.
  assert (sel s2 = Some c) as Hsel2 by exact Hsel1.
  clearbody s2.
  assert (ISVISIBLE s2 c = true) as Hvis2.
  { apply ISVISIBLE_true. rewrite Htc2, Hts2.
    apply TAGSHIFT_meet; [lia|done|done|done|]. by apply ISVISIBLE_true. }
  split; [by apply sel_arrange_keep|].
  split; [by rewrite ISVISIBLE_arrange|].
  split; [by rewrite tags_arrange|].
  by rewrite tagset_arrange.
Qed.

Lemma viewtagshift_keeps_witness :
  sel (viewtagshift Scenario.cfg 1 Scenario.tiled3) = Some Scenario.C
  ∧ Client.tags (deref (viewtagshift Scenario.cfg 1 Scenario.tiled3) Scenario.C) = 2
  ∧ tagset (viewtagshift Scenario.cfg 1 Scenario.tiled3) = 2.
Proof.
  destruct (viewtagshift_keeps Scenario.cfg 1 Scenario.tiled3 Scenario.C)
    as (Hs & _ & Ht & Hv).
  - cbn. lia.
  - cbn. lia.
  - vm_compute. reflexivity.
  - vm_compute. reflexivity.
  - vm_compute. split; [discriminate|reflexivity].
  - vm_compute. discriminate.
  - split; [exact Hs|]. split.
    + rewrite Ht. vm_compute. reflexivity.
    + rewrite Hv. vm_compute. reflexivity.
Defined.

(** ** Cycling the selection: [focusstack] *)

Section Cycle.

Variable vis : ptr → bool.

Lemma after_app (p : ptr) (l1 l2 : list ptr) :
  p ∉ l1 → after p (l1 ++ p :: l2) = l2.
Proof.
  induction l1 as [|q l1 IH]; cbn.
  - intros _. by rewrite decide_True.
  - intros [Hne Hnotin]%not_elem_of_cons. rewrite decide_False by done. by apply IH.
Qed.

Lemma before_app (p : ptr) (l1 l2 : list ptr) :
  p ∉ l1 → before p (l1 ++ p :: l2) = l1.
Proof.
  induction l1 as [|q l1 IH]; cbn.
  - intros _. by rewrite decide_True.
  - intros [Hne Hnotin]%not_elem_of_cons. rewrite decide_False by done.
    by rewrite IH.
Qed.

Lemma from_app (p : ptr) (l1 l2 : list ptr) :
  p ∉ l1 → from p (l1 ++ p :: l2) = p :: l2.
Proof.
  induction l1 as [|q l1 IH]; cbn.
  - intros _. by rewrite decide_True.
  - intros [Hne Hnotin]%not_elem_of_cons. rewrite decide_False by done. by apply IH.
Qed.

Lemma find_hidden (l : list ptr) :
  Forall (λ q, vis q = false) l → find vis l = None.
Proof. induction 1 as [|q l Hq _ IH]; cbn; [done|]. by rewrite Hq. Qed.

Lemma find_app_hidden (l1 l2 : list ptr) :
  Forall (λ q, vis q = false) l1 → find vis (l1 ++ l2) = find vis l2.
Proof. induction 1 as [|q l Hq _ IH]; cbn; [done|]. by rewrite Hq. Qed.

Lemma find_None_hidden (l : list ptr) :
  find vis l = None → Forall (λ q, vis q = false) l.
Proof.
  induction l as [|q l IH]; cbn; [constructor|].
  destruct (vis q) eqn:Hq; [done|]. intros H. constructor; auto.
Qed.

Lemma find_Some_split (l : list ptr) (q : ptr) :
  find vis l = Some q →
  ∃ l1 l2, l = l1 ++ q :: l2 ∧ Forall (λ x, vis x = false) l1 ∧ vis q = true.
Proof.
  induction l as [|x l IH]; cbn; [done|].
  destruct (vis x) eqn:Hx.
  - intros [= ->]. by exists [], l.
  - intros (l1 & l2 & -> & Hl1 & Hq)%IH. exists (x :: l1), l2.
    split; [done|]. split; [by constructor|done].
Qed.

(** The last visible cell of [l], or [c] when [l] has none. *)
Lemma lastvis_hidden (l : list ptr) (c : option ptr) :
  Forall (λ q, vis q = false) l →
  fold_left (λ c i, if vis i then Some i else c) l c = c.
Proof.
  intros H. revert c. induction H as [|q l Hq _ IH]; intros c; cbn; [done|].
  by rewrite Hq.
Qed.

Lemma lastvis_app (l1 l2 : list ptr) (q : ptr) (c : option ptr) :
  vis q = true → Forall (λ x, vis x = false) l2 →
  fold_left (λ c i, if vis i then Some i else c) (l1 ++ q :: l2) c = Some q.
Proof.
  intros Hq Hl2. rewrite fold_left_app. cbn. rewrite Hq. by apply lastvis_hidden.
Qed.

Lemma lastvis_Some (l : list ptr) (x : ptr) :
  fold_left (λ c i, if vis i then Some i else c) l (Some x) ≠ None.
Proof. revert x. induction l as [|y l IH]; intros x; cbn; [done|]. destruct (vis y); apply IH. Qed.

Lemma lastvis_None_hidden (l : list ptr) (c : option ptr) :
  fold_left (λ c i, if vis i then Some i else c) l c = None →
  Forall (λ q, vis q = false) l.
Proof.
  revert c. induction l as [|x l IH]; intros c; cbn; [constructor|].
  destruct (vis x) eqn:Hx.
  - intros H. by apply lastvis_Some in H.
  - intros H. constructor; eauto.
Qed.

Lemma lastvis_Some_split (l : list ptr) (q : ptr) :
  fold_left (λ c i, if vis i then Some i else c) l None = Some q →
  ∃ l1 l2, l = l1 ++ q :: l2 ∧ Forall (λ x, vis x = false) l2 ∧ vis q = true.
Proof.
  induction l as [|x l IH] using rev_ind; [done|].
  rewrite fold_left_app. cbn. destruct (vis x) eqn:Hx.
  - intros [= ->]. exists l, []. by rewrite Forall_nil.
  - intros (l1 & l2 & -> & Hl2 & Hq)%IH. exists l1, (l2 ++ [x]).
    split; [by rewrite <- app_assoc|]. split; [|done].
    apply Forall_app. split; [done|]. by constructor.
Qed.

Lemma lastvis_init (l : list ptr) (c : option ptr) :
  fold_left (λ c i, if vis i then Some i else c) l c
  = match fold_left (λ c i, if vis i then Some i else c) l None with
    | Some q => Some q
    | None => c
    end.
Proof.
  induction l as [|x l IH] using rev_ind; [done|].
  rewrite !fold_left_app. cbn. by destruct (vis x).
Qed.

(** The cell that [focusstack] moves to, forwards and then backwards. *)
Lemma next_prev (l : list ptr) (p q : ptr) :
  NoDup l → p ∈ l → vis p = true →
  match find vis (after p l) with Some c => Some c | None => find vis l end = Some q →
  match fold_left (λ c i, if vis i then Some i else c) (before q l) None with
  | Some c => Some c
  | None => fold_left (λ c i, if vis i then Some i else c) (from q l) None
  end = Some p.
Proof.
  intros Hnd (l1 & l2 & -> & Hp1)%list_elem_of_split_l Hp.
  rewrite after_app by done.
  destruct (find vis l2) as [c|] eqn:E2.
  - intros [= ->]. apply find_Some_split in E2 as (l2a & l2b & -> & Ha & Hq).
    replace (l1 ++ p :: l2a ++ q :: l2b) with ((l1 ++ p :: l2a) ++ q :: l2b) in *
      by (by rewrite <- app_assoc).
    apply NoDup_app in Hnd as (_ & Hq' & _).
    assert (q ∉ l1 ++ p :: l2a) as Hq1.
    { intros Hin. apply (Hq' q Hin). left. }
    rewrite before_app by done. by rewrite lastvis_app.
  - apply find_None_hidden in E2.
    destruct (find vis l1) as [c|] eqn:E1.
    + apply find_Some_split in E1 as (l1a & l1b & -> & Ha & Hc).
      rewrite <- app_assoc. rewrite find_app_hidden by done. cbn. rewrite Hc.
      intros [= ->].
      assert (q ∉ l1a) as Hq1.
      { intros Hin. rewrite Forall_forall in Ha. specialize (Ha q Hin). congruence. }
      rewrite before_app by done. rewrite lastvis_hidden by done.
      rewrite from_app by done.
      replace (q :: l1b ++ p :: l2) with ((q :: l1b) ++ p :: l2) by done.
      by rewrite lastvis_app.
    + apply find_None_hidden in E1. rewrite find_app_hidden by done. cbn. rewrite Hp.
      intros [= <-]. rewrite before_app by done. rewrite lastvis_hidden by done.
      rewrite from_app by done.
      by rewrite (lastvis_app [] l2 p).
Qed.

(** Backwards and then forwards. *)
Lemma prev_next (l : list ptr) (p q : ptr) :
  NoDup l → p ∈ l → vis p = true →
  match fold_left (λ c i, if vis i then Some i else c) (before p l) None with
  | Some c => Some c
  | None => fold_left (λ c i, if vis i then Some i else c) (from p l) None
  end = Some q →
  match find vis (after q l) with Some c => Some c | None => find vis l end = Some p.
Proof.
  intros Hnd (l1 & l2 & -> & Hp1)%list_elem_of_split_l Hp.
  rewrite before_app, from_app by done.
  destruct (fold_left _ l1 None) as [c|] eqn:E1.
  - intros [= ->]. apply lastvis_Some_split in E1 as (l1a & l1b & -> & Hb & Hq).
    rewrite <- app_assoc in Hnd |- *. cbn in Hnd |- *.
    assert (q ∉ l1a) as Hq1.
    { apply NoDup_app in Hnd as (_ & Hq' & _). intros Hin. apply (Hq' q Hin). left. }
    rewrite after_app by done. rewrite find_app_hidden by done. cbn. by rewrite Hp.
  - apply lastvis_None_hidden in E1. cbn. rewrite Hp.
    rewrite (lastvis_init l2 (Some p)).
    destruct (fold_left _ l2 None) as [c|] eqn:E2.
    + intros [= ->]. apply lastvis_Some_split in E2 as (l2a & l2b & -> & Hb & Hq).
      replace (l1 ++ p :: l2a ++ q :: l2b) with ((l1 ++ p :: l2a) ++ q :: l2b) in *
        by (by rewrite <- app_assoc).
      assert (q ∉ l1 ++ p :: l2a) as Hq1.
      { apply NoDup_app in Hnd as (_ & Hq' & _). intros Hin. apply (Hq' q Hin). left. }
      rewrite after_app by done. rewrite find_hidden by done.
      rewrite <- app_assoc. rewrite find_app_hidden by done. cbn. by rewrite Hp.
    + apply lastvis_None_hidden in E2.
      intros [= <-]. rewrite after_app by done. rewrite find_hidden by done.
      rewrite find_app_hidden by done. cbn. by rewrite Hp.
Qed.

End Cycle.

Lemma before_from (p : ptr) (l : list ptr) : before p l ++ from p l = l.
Proof.
  induction l as [|q l IH]; [done|]. cbn. destruct (decide (q = p)); [done|].
  cbn. by rewrite IH.
Qed.

Lemma elem_of_after (p c : ptr) (l : list ptr) : c ∈ after p l → c ∈ l.
Proof.
  induction l as [|q l IH]; [done|]. cbn. destruct (decide (q = p)).
  - intros ?. by right.
  - intros ?. right. auto.
Qed.

Lemma focusstack_cycled (arg : Z) (s : WM) (p : ptr) :
  sel s = Some p →
  focusstack arg s
  = match cycled arg s p with
    | Some c => restack (Some c) CliRaise (focus (Some c) s)
    | None => s
    end.
Proof. intros Hsel. unfold focusstack. rewrite Hsel. reflexivity. Qed.

(** The client moved to is a visible client of the list. *)
Lemma cycled_visible (arg : Z) (s : WM) (p c : ptr) :
  cycled arg s p = Some c → c ∈ clients s ∧ ISVISIBLE s c = true.
Proof.
  unfold cycled, lastvisible. destruct (0 <? arg).
  - destruct (find _ (after p (clients s))) as [c'|] eqn:E.
    + intros [= ->]. apply find_some in E as [Hin Hvis]. split; [|done].
      eapply elem_of_after. by apply list_elem_of_In.
    + intros [Hin Hvis]%find_some. split; [by apply list_elem_of_In|done].
  - assert (∀ l, fold_left (λ c i, if ISVISIBLE s i then Some i else c) l None = Some c →
                 c ∈ l ∧ ISVISIBLE s c = true) as Hl.
    { intros l (l1 & l2 & -> & _ & Hc)%lastvis_Some_split. split; [|done].
      apply elem_of_app. right. left. }
    destruct (fold_left _ (before p (clients s)) None) as [c'|] eqn:E.
    + intros [= ->]. apply Hl in E as [Hin Hvis]. split; [|done].
      rewrite <- (before_from p (clients s)). apply elem_of_app. by left.
    + intros [Hin Hvis]%Hl. split; [|done].
      rewrite <- (before_from p (clients s)). apply elem_of_app. by right.
Qed.

(** No client is moved to only when no client of the list is visible. *)
Lemma cycled_None (arg : Z) (s : WM) (p : ptr) :
  cycled arg s p = None → Forall (λ q, ISVISIBLE s q = false) (clients s).
Proof.
  unfold cycled, lastvisible. destruct (0 <? arg).
  - destruct (find _ (after p (clients s))); [done|]. apply find_None_hidden.
  - destruct (fold_left _ (before p (clients s)) None) eqn:E1; [done|].
    intros E2. apply lastvis_None_hidden in E1, E2.
    rewrite <- (before_from p (clients s)). by apply Forall_app.
Qed.

Lemma sel_focus_raise (c : ptr) (s : WM) :
  ISVISIBLE s c = true →
  sel (restack (Some c) CliRaise (focus (Some c) s)) = Some c.
Proof. intros Hvis. rewrite sel_raise, sel_focus. by rewrite Hvis. Qed.

(** X5. [focusstack] moves the selection to a visible client of the list
    and raises it, changing no client; it changes nothing at all when no
    client of the list is visible. (Some client is selected, and it is
    a cell of the list.) *)
Theorem focusstack_selects (arg : Z) (s : WM) (p : ptr) :
  sel s = Some p →
  p ∈ clients s →
  let s' := focusstack arg s in
  (Forall (λ q, ISVISIBLE s q = false) (clients s) → s' = s)
  ∧ (Exists (λ q, ISVISIBLE s q = true) (clients s) →
     ∃ c, c ∈ clients s ∧ ISVISIBLE s c = true
          ∧ sel s' = Some c ∧ raised s' = Some c
          ∧ ∀ q, deref s' q = deref s q).
Proof.
  intros Hsel Hp. cbv zeta. rewrite (focusstack_cycled arg s p Hsel).
  destruct (cycled arg s p) as [c|] eqn:Ec.
  - apply cycled_visible in Ec as [Hin Hvis]. split.
    + intros Hall. rewrite Forall_forall in Hall. specialize (Hall c Hin). congruence.
    + intros _. exists c. split; [done|]. split; [done|].
      split; [by apply sel_focus_raise|]. split; [apply raised_raise|].
      intros q. by rewrite deref_restack, deref_focus.
  - split; [done|]. intros Hex. apply cycled_None in Ec.
    apply Exists_exists in Hex as (q & Hq & Hvis).
    rewrite Forall_forall in Ec. specialize (Ec q Hq). congruence.
Qed.

Lemma focusstack_selects_witness :
  sel (focusstack 1 Scenario.tiled3) = Some Scenario.B
  ∧ sel (focusstack (-1) Scenario.tiled3) = Some Scenario.A.
Proof.
  assert (sel Scenario.tiled3 = Some Scenario.C) as Hsel by (vm_compute; reflexivity).
  assert (Scenario.C ∈ clients Scenario.tiled3) as Hin
    by (apply (bool_decide_unpack _); vm_compute; exact I).
  assert (Exists (λ q, ISVISIBLE Scenario.tiled3 q = true) (clients Scenario.tiled3))
    as Hex by (apply (bool_decide_unpack _); vm_compute; exact I).
  destruct (focusstack_selects 1 Scenario.tiled3 Scenario.C Hsel Hin) as [_ H1].
  destruct (H1 Hex) as (c & _ & _ & _ & _ & _).
  split; vm_compute; reflexivity.
Defined.

Lemma clients_settled (s : WM) : settled s → lifted s = clients s.
Proof.
  unfold settled, lifted. destruct (pinned s) as [p|]; [|done].
  intros [->|Hhead]; [done|]. destruct (Client.isfloating (deref s p)); [|done].
  destruct (clients s) as [|q l]; [done|]. injection Hhead as ->.
  by rewrite unlink_head.
Qed.

Lemma clients_raise (c : option ptr) (s : WM) :
  clients (restack c CliRaise s) = lifted s.
Proof. unfold restack. by rewrite clients_stackwindows. Qed.

Lemma lifted_focus (c : option ptr) (s : WM) : settled s → lifted (focus c s) = clients s.
Proof.
  intros Hs. unfold lifted.
  assert (pinned (focus c s) = pinned s) as -> by (unfold focus; by rewrite pinned_stackwindows).
  rewrite clients_focus. fold (lifted s). rewrite (clients_settled s Hs).
  destruct (pinned s) as [p|] eqn:Ep; [|done].
  rewrite deref_focus. destruct (Client.isfloating (deref s p)) eqn:Ef; [|done].
  unfold settled in Hs. rewrite Ep in Hs. destruct Hs as [Hs|Hs]; [congruence|].
  destruct (clients s) as [|q l]; [done|]. injection Hs as ->. by rewrite unlink_head.
Qed.

Lemma cycled_ext (arg : Z) (s1 s2 : WM) (p : ptr) :
  clients s1 = clients s2 → (∀ q, ISVISIBLE s1 q = ISVISIBLE s2 q) →
  cycled arg s1 p = cycled arg s2 p.
Proof.
  intros Hcl Hvis. unfold cycled, lastvisible. rewrite Hcl.
  assert (∀ l, find (ISVISIBLE s1) l = find (ISVISIBLE s2) l) as Hfind.
  { induction l as [|q l IH]; [done|]. cbn. by rewrite Hvis, IH. }
  assert (∀ l c, fold_left (λ c i, if ISVISIBLE s1 i then Some i else c) l c
                 = fold_left (λ c i, if ISVISIBLE s2 i then Some i else c) l c) as Hfold.
  { induction l as [|q l IH]; intros c; [done|]. cbn. by rewrite Hvis, IH. }
  by rewrite !Hfind, !Hfold.
Qed.

(** X6. Moving the selection forwards and then backwards, or backwards
    and then forwards, comes back to the client selected at first,
    when that client is visible and the restacking in between leaves the
    list in its order (no floating client pinned below the head of the
    list). *)
Theorem focusstack_roundtrip (s : WM) (p : ptr) :
  sel s = Some p →
  p ∈ clients s →
  NoDup (clients s) →
  ISVISIBLE s p = true →
  settled s →
  sel (focusstack (-1) (focusstack 1 s)) = Some p
  ∧ sel (focusstack 1 (focusstack (-1) s)) = Some p.
Proof.
  intros Hsel Hp Hnd Hvis Hset.
  assert (∀ c, let s1 := restack (Some c) CliRaise (focus (Some c) s) in
               ISVISIBLE s c = true →
               sel s1 = Some c ∧ clients s1 = clients s
               ∧ ∀ q, ISVISIBLE s1 q = ISVISIBLE s q) as Hstep.
  { intros c s1 Hc. unfold s1. split; [by apply sel_focus_raise|]. split.
    - rewrite clients_raise. by apply lifted_focus.
    - intros q. rewrite ISVISIBLE_restack, ISVISIBLE_focus; [done|].
      unfold restack. by rewrite tagset_stackwindows. }
  assert (∀ a b, (cycled a s p = None → False) →
                 (∀ q, cycled a s p = Some q → cycled b s q = Some p) →
                 sel (focusstack b (focusstack a s)) = Some p) as Hgo.
  { intros a b Hsome Hback. rewrite (focusstack_cycled a s p Hsel).
    destruct (cycled a s p) as [q|] eqn:Eq; [|by destruct Hsome].
    destruct (cycled_visible _ _ _ _ Eq) as [Hq Hqv].
    destruct (Hstep q Hqv) as (Hsel1 & Hcl1 & Hvis1).
    generalize dependent (restack (Some q) CliRaise (focus (Some q) s)). intros s1 **.
    rewrite (focusstack_cycled b s1 q Hsel1).
    rewrite (cycled_ext b s1 s q Hcl1 Hvis1), (Hback q eq_refl).
    apply sel_focus_raise. by rewrite Hvis1. }
  assert (∀ a, cycled a s p = None → False) as Hsome.
  { intros a Hnone%cycled_None. rewrite Forall_forall in Hnone.
    specialize (Hnone p Hp). congruence. }
  split.
  - apply Hgo; [apply Hsome|]. intros q. unfold cycled, lastvisible. cbn.
    by apply next_prev.
  - apply Hgo; [apply Hsome|]. intros q. unfold cycled, lastvisible. cbn.
    by apply prev_next.
Qed.

Lemma focusstack_roundtrip_witness :
  sel (focusstack 1 Scenario.tiled3) = Some Scenario.B
  ∧ sel (focusstack (-1) (focusstack 1 Scenario.tiled3)) = Some Scenario.C.
Proof.
  split; [vm_compute; reflexivity|].
  destruct (focusstack_roundtrip Scenario.tiled3 Scenario.C) as [H _].
  - vm_compute. reflexivity.
  - apply (bool_decide_unpack _). vm_compute. exact I.
  - apply (bool_decide_unpack _). vm_compute. exact I.
  - vm_compute. reflexivity.
  - vm_compute. exact I.
  - exact H.
Defined.

(** ** Pinning, zooming and the order of the list *)

Lemma WM_eq (s1 s2 : WM) :
  heap s1 = heap s2 → clients s1 = clients s2 → pinned s1 = pinned s2 →
  raised s1 = raised s2 → sel s1 = sel s2 → barfocus s1 = barfocus s2 →
  ctrlmode s1 = ctrlmode s2 → tagset s1 = tagset s2 → mfact s1 = mfact s2 →
  nmain s1 = nmain s2 → netclistack s1 = netclistack s2 →
  pointergrab s1 = pointergrab s2 → s1 = s2.
Proof. destruct s1, s2. cbn. intros. by subst. Qed.

Lemma lifted_ext (s1 s2 : WM) :
  pinned s1 = pinned s2 →
  (∀ p, pinned s2 = Some p →
        Client.isfloating (deref s1 p) = Client.isfloating (deref s2 p)) →
  clients s1 = clients s2 →
  lifted s1 = lifted s2.
Proof.
  intros Hp Hf Hc. unfold lifted. rewrite Hp, Hc.
  destruct (pinned s2) as [p|]; [|done]. by rewrite (Hf p).
Qed.

(** Lifting the pinned client twice is lifting it once. *)
Lemma lifted_again (s t : WM) :
  pinned t = pinned s →
  (∀ p, pinned s = Some p →
        Client.isfloating (deref t p) = Client.isfloating (deref s p)) →
  clients t = lifted s →
  lifted t = lifted s.
Proof.
  intros Hp Hf Hc. unfold lifted in *. rewrite Hp, Hc.
  destruct (pinned s) as [p|]; [|done]. rewrite (Hf p eq_refl).
  destruct (Client.isfloating (deref s p)); [|done]. by rewrite unlink_head.
Qed.

Lemma isfloating_tileall (cfg : Config) (s : WM) (c : ptr) :
  Client.isfloating (deref (tileall cfg s) c) = Client.isfloating (deref s c).
Proof.
  apply isfloating_ungeom. unfold tileall. by rewrite ungeom_tiles.
Qed.

Lemma pinned_focus (c : option ptr) (s : WM) : pinned (focus c s) = pinned s.
Proof. unfold focus. by rewrite pinned_stackwindows. Qed.

Lemma raised_focus (c : option ptr) (s : WM) : raised (focus c s) = raised s.
Proof. unfold focus. by rewrite raised_stackwindows. Qed.

Lemma clients_arrange (cfg : Config) (s : WM) : clients (arrange cfg s) = lifted s.
Proof.
  unfold arrange. cbv zeta. rewrite clients_raise.
  apply lifted_again.
  - by rewrite pinned_tileall, pinned_focus.
  - intros p _. by rewrite isfloating_tileall, deref_focus.
  - by rewrite clients_tileall, clients_focus.
Qed.

(** X7. [pin] pins the selected client, unless it is the pinned one
    already, which it unpins; with no client selected it unpins
    whatever is pinned. It changes neither the selection nor a client,
    a floating client that it pins heads the list afterwards, and a
    second [pin] undoes the first when at first nothing or the selected
    client was pinned. *)
Theorem pin_toggles (s : WM) :
  let s' := pin s in
  pinned s' = (if bool_decide (pinned s = sel s) then None else sel s)
  ∧ sel s' = sel s
  ∧ raised s' = raised s
  ∧ (∀ c, deref s' c = deref s c)
  ∧ (∀ c, pinned s' = Some c → Client.isfloating (deref s c) = true →
          head (clients s') = Some c)
  ∧ (pinned s = None ∨ pinned s = sel s → pinned (pin s') = pinned s).
Proof.
  cbv zeta.
  assert (∀ t, pinned (pin t) = (if bool_decide (pinned t = sel t) then None else sel t)
               ∧ sel (pin t) = sel t) as Hpin.
  { intros t. unfold pin, restack. rewrite pinned_stackwindows, sel_stackwindows.
    cbn [pinned sel set_pinned]. split; [|done].
    repeat case_bool_decide; congruence. }
  destruct (Hpin s) as [Hp Hs]. split; [done|]. split; [done|].
  split. { unfold pin, restack. by rewrite raised_stackwindows. }
  split. { intros c. unfold pin. by rewrite deref_restack. }
  split.
  { intros c Hc Hfl. unfold pin, restack in *. rewrite pinned_stackwindows in Hc.
    rewrite clients_stackwindows. rewrite Hc.
    assert (∀ v, deref (set_pinned s v) c = deref s c) as -> by done.
    by rewrite Hfl. }
  intros H. destruct (Hpin (pin s)) as [-> Hs']. rewrite Hp, Hs.
  destruct H as [H|H]; rewrite H.
  - destruct (sel s); repeat case_bool_decide; congruence.
  - destruct (sel s); repeat case_bool_decide; congruence.
Qed.

(** X8. [zoom] puts the selected client at the head of the list, below
    only a floating pinned client, and leaves the other clients in their
    order; a visible selected client stays selected and is the raised
    client. *)
Theorem zoom_heads (cfg : Config) (s : WM) (c : ptr) :
  sel s = Some c →
  let s' := zoom cfg s in
  clients s' = lifted (set_clients s (c :: unlink c (clients s)))
  ∧ (pinned s = None ∨ pinned s = Some c
     ∨ (∃ p, pinned s = Some p ∧ Client.isfloating (deref s p) = false) →
     clients s' = c :: unlink c (clients s))
  ∧ (ISVISIBLE s c = true → sel s' = Some c ∧ raised s' = Some c).
Proof.
  intros Hsel. cbv zeta. unfold zoom. rewrite Hsel.
  set (s1 := restack (Some c) CliZoom s).
  set (u := set_clients s (c :: unlink c (clients s))).
  assert (pinned s1 = pinned s) as Hp1 by (unfold s1, restack; by rewrite pinned_stackwindows).
  assert (sel s1 = Some c) as Hsel1 by (unfold s1, restack; by rewrite sel_stackwindows).
  assert (∀ q, deref s1 q = deref s q) as Hd1 by (intros q; unfold s1; by rewrite deref_restack).
  assert (tagset s1 = tagset s) as Ht1 by (unfold s1, restack; by rewrite tagset_stackwindows).
  assert (clients s1 = lifted u) as Hc1.
  { unfold s1, restack. rewrite clients_stackwindows. reflexivity. }
  clearbody s1.
  assert (clients (arrange cfg s1) = lifted u) as Hcl.
  { rewrite clients_arrange. apply lifted_again; [done| |done].
    intros p _. by rewrite Hd1. }
  split; [done|]. split.
  - intros H. rewrite Hcl. unfold lifted, u. cbn [pinned set_clients clients].
    assert (∀ p, deref (set_clients s (c :: unlink c (clients s))) p = deref s p) as Hd
      by done.
    destruct H as [->| [->|(p & -> & Hfl)]]; [done| |].
    + rewrite Hd. destruct (Client.isfloating (deref s c)); [|done]. by rewrite unlink_head.
    + by rewrite Hd, Hfl.
  - intros Hvis.
    assert (sel (arrange cfg s1) = Some c) as Hs.
    { apply sel_arrange_keep; [done|]. rewrite <- Hvis. apply ISVISIBLE_ext; [|done].
      by rewrite Hd1. }
    split; [done|]. by rewrite raised_arrange, <- (sel_arrange cfg).
Qed.

Lemma zoom_heads_witness :
  sel (focusstack 1 Scenario.tiled3) = Some Scenario.B
  ∧ clients (zoom Scenario.cfg (focusstack 1 Scenario.tiled3))
    = [Scenario.B; Scenario.C; Scenario.A].
Proof.
  assert (sel (focusstack 1 Scenario.tiled3) = Some Scenario.B) as Hsel
    by (vm_compute; reflexivity).
  split; [exact Hsel|].
  destruct (zoom_heads Scenario.cfg _ _ Hsel) as (_ & H & _).
  rewrite H; [vm_compute; reflexivity|]. left. vm_compute. reflexivity.
Defined.

Lemma stackorder_fields (s1 s2 : WM) :
  heap s1 = heap s2 → clients s1 = clients s2 → pinned s1 = pinned s2 →
  raised s1 = raised s2 →
  stackorder s1 = stackorder s2 ∧ ∀ l, windows s1 l = windows s2 l.
Proof.
  destruct s1, s2. cbn. intros -> -> -> ->. done.
Qed.

(** X9. Restacking twice is restacking once: [restack(NULL, CliNone)],
    with which [focus] ends, leaves a state that a further one does not
    change. *)
Theorem restack_idempotent (s : WM) :
  restack None CliNone (restack None CliNone s) = restack None CliNone s.
Proof.
  assert (∀ t, restack None CliNone t = stackwindows t) as Hr by reflexivity.
  rewrite (Hr (restack None CliNone s)), (Hr s). clear Hr. set (s1 := stackwindows s).
  assert (clients s1 = lifted s) as Hc1 by apply clients_stackwindows.
  assert (pinned s1 = pinned s) as Hp1 by apply pinned_stackwindows.
  assert (∀ q, deref s1 q = deref s q) as Hd1 by (intros; apply deref_stackwindows).
  assert (netclistack s1 = rev (windows s1 (stackorder s1))) as Hn1
    by apply netclistack_stackwindows.
  assert (clients (stackwindows s1) = clients s1) as Hc2.
  { rewrite clients_stackwindows. fold (lifted s1). rewrite Hc1.
    apply lifted_again; [done| |done]. intros p _. by rewrite Hd1. }
  pose proof (netclistack_stackwindows s1) as Hn2.
  pose proof (settings_stackwindows s1) as Hset. unfold settings in Hset.
  pose proof (heap_stackwindows s1) as Hh. pose proof (sel_stackwindows s1) as Hs.
  pose proof (raised_stackwindows s1) as Hrs.
  clearbody s1. generalize dependent (stackwindows s1). intros s2 **.
  destruct (stackorder_fields s2 s1) as [Ho Hw]; [done|done|congruence|done|].
  apply WM_eq; congruence.
Qed.

(** X10. What [restack] publishes holds the window of every client of
    the list exactly once, when the pinned and the raised client are not
    the same client; the window of a client that is both pinned and
    raised is published twice. (Every fullscreen client floats, as
    [setfullscreen] leaves it: a fullscreen client that is not floating
    belongs to none of the three layers.) *)
Theorem restack_publishes_each (s : WM) :
  linked s →
  (∀ c, c ∈ clients s →
        Client.isfullscreen (deref s c) = true → Client.isfloating (deref s c) = true) →
  let s' := restack None CliNone s in
  ((∀ p, pinned s = Some p → raised s ≠ Some p) →
   netclistack s' ≡ₚ windows s (clients s))
  ∧ (∀ p, pinned s = Some p → raised s = Some p →
          ∃ l, netclistack s' = l ++ [Client.win (deref s p); Client.win (deref s p)]).
Proof.
  intros (Hnd & _ & _ & Hpin & Hrai) Hfs. cbv zeta.
  assert (restack None CliNone s = stackwindows s) as -> by reflexivity.
  rewrite netclistack_stackwindows.
  set (s1 := stackwindows s).
  assert (clients s1 = lifted s) as Hc1 by apply clients_stackwindows.
  assert (pinned s1 = pinned s) as Hp1 by apply pinned_stackwindows.
  assert (raised s1 = raised s) as Hr1 by apply raised_stackwindows.
  assert (∀ q, deref s1 q = deref s q) as Hd1 by (intros; apply deref_stackwindows).
  clearbody s1.
  assert (∀ l, windows s1 l = windows s l) as Hw.
  { intros l. unfold windows. apply map_ext. intros q. by rewrite Hd1. }
  pose proof (lifted_permutation s Hpin) as Hperm.
  split.
  - intros Hne. rewrite Hw, <- Permutation_rev.
    unfold windows. apply Permutation_map.
    rewrite <- Hperm, <- Hc1. apply stackorder_permutation.
    + rewrite Hc1, Hperm. done.
    + intros p Hp. rewrite Hc1, Hperm. apply Hpin. congruence.
    + intros r Hr. rewrite Hc1, Hperm. apply Hrai. congruence.
    + intros p Hp. rewrite Hr1. apply Hne. congruence.
    + intros c Hc. rewrite Hd1. apply Hfs. by rewrite Hc1, Hperm in Hc.
  - intros p Hp Hr. unfold stackorder. rewrite Hp1, Hr1, Hp, Hr, Hw.
    set (rest := layerclients s1 0 ++ _). clearbody rest.
    exists (rev (windows s rest)).
    change (windows s (option_list (Some p) ++ option_list (Some p) ++ rest))
      with (Client.win (deref s p) :: Client.win (deref s p) :: windows s rest).
    cbn [rev]. by rewrite <- app_assoc.
Qed.

Lemma restack_publishes_each_witness :
  pinned (pin Scenario.tiled3) = Some Scenario.C
  ∧ raised (pin Scenario.tiled3) = Some Scenario.C
  ∧ netclistack (restack None CliNone (pin Scenario.tiled3)) = [101; 102; 103; 103]
  ∧ netclistack (restack None CliNone Scenario.tiled3) ≡ₚ [103; 102; 101].
Proof.
  split; [vm_compute; reflexivity|]. split; [vm_compute; reflexivity|].
  split; [vm_compute; reflexivity|].
  destruct (restack_publishes_each Scenario.tiled3) as [H _].
  - apply (bool_decide_unpack _). vm_compute. exact I.
  - apply (proj1 (Forall_forall
             (λ c, Client.isfullscreen (deref Scenario.tiled3 c) = true →
                   Client.isfloating (deref Scenario.tiled3 c) = true) _)).
    apply (bool_decide_unpack _). vm_compute. exact I.
  - rewrite H; [vm_compute; reflexivity|]. intros p Hp. vm_compute in Hp. discriminate Hp.
Defined.

(** ** More on [resize] *)

Section MoreResize.

Variable cfg : Config.

Lemma store_store (s : WM) (c : ptr) (a b : Client) :
  store (store s c a) c b = store s c b.
Proof. unfold store. cbn. by rewrite insert_insert_eq. Qed.

(** The fields that [resize] reads besides the geometry it is given. *)
Lemma ungeom_fields (a b : Client) :
  ungeom a = ungeom b →
  Client.bw a = Client.bw b
  ∧ Client.isfloating a = Client.isfloating b
  ∧ Client.isfullscreen a = Client.isfullscreen b
  ∧ fit cfg a = fit cfg b
  ∧ snapped cfg a = snapped cfg b
  ∧ hinted a = hinted b.
Proof.
  destruct a, b. unfold ungeom. cbn. intros H. simplify_eq. done.
Qed.

Lemma set_geom_fgeom_again (cl : Client) (fl : bool) (R R' : Rect) :
  let cl1 := Client.set_geom
               (if fl then Client.set_fgeom cl (rx R) (ry R) (rw R) (rh R) else cl)
               (rx R') (ry R') (rw R') (rh R') in
  Client.set_geom
    (if fl then Client.set_fgeom cl1 (rx R) (ry R) (rw R) (rh R) else cl1)
    (rx R') (ry R') (rw R') (rh R')
  = cl1.
Proof. by destruct fl, cl. Qed.

(** At the level of the struct, a second resize to the same geometry
    changes nothing. *)
Lemma resized_again (cl : Client) (x0 y0 w0 h0 : Z) :
  resized cfg (resized cfg cl x0 y0 w0 h0) x0 y0 w0 h0 = resized cfg cl x0 y0 w0 h0.
Proof.
  destruct (ungeom_fields _ _ (ungeom_resized cfg cl x0 y0 w0 h0))
    as (_ & Hfl & Hfs & Hfit & Hsnap & Hhint).
  unfold resized at 1. cbv zeta. rewrite Hfl, Hfs, Hfit, Hsnap, Hhint.
  unfold resized. cbv zeta. apply set_geom_fgeom_again.
Qed.

(** A floating client that is not fullscreen gets a struct that depends
    on nothing of the geometry it had. *)
Lemma resized_floating_ext (a b : Client) (x0 y0 w0 h0 : Z) :
  ungeom a = ungeom b →
  Client.isfloating b = true → Client.isfullscreen b = false →
  resized cfg a x0 y0 w0 h0 = resized cfg b x0 y0 w0 h0.
Proof.
  intros H Hfl Hfs.
  destruct (ungeom_fields _ _ H) as (_ & Hfl' & Hfs' & Hfit & Hsnap & Hhint).
  unfold resized. cbv zeta. rewrite Hfl', Hfs', Hfit, Hsnap, Hhint, Hfl, Hfs.
  cbn [andb negb].
  generalize (fit cfg b x0 y0 w0 h0). intros R.
  generalize (hinted b (snapped cfg b R)). intros R'.
  destruct a, b. unfold ungeom in H. cbn in H. simplify_eq. reflexivity.
Qed.

(** [resize] either leaves the state as it is or stores the resized
    struct. *)
Lemma resize_store (c : ptr) (x0 y0 w0 h0 : Z) (s : WM) :
  resize cfg c x0 y0 w0 h0 s = s
  ∨ resize cfg c x0 y0 w0 h0 s = store s c (resized cfg (deref s c) x0 y0 w0 h0).
Proof.
  unfold resize, resized. cbv zeta.
  set (cl := deref s c). set (r := fit cfg cl x0 y0 w0 h0).
  destruct (Client.isfloating cl && negb (Client.isfullscreen cl)); cbv beta iota.
  - right. set (r' := hinted cl (snapped cfg cl r)).
    destruct (negb (rx r' =? Client.x cl) || negb (ry r' =? Client.y cl)
              || negb (rw r' =? Client.w cl) || negb (rh r' =? Client.h cl)) eqn:E.
    + by rewrite deref_store, store_store.
    + apply orb_false_elim in E as [E E4]. apply orb_false_elim in E as [E E3].
      apply orb_false_elim in E as [E1 E2].
      apply negb_false_iff, Z.eqb_eq in E1, E2, E3, E4.
      rewrite E1, E2, E3, E4. f_equal; by destruct cl.
  - set (r' := hinted cl r).
    destruct (negb (rx r' =? Client.x cl) || negb (ry r' =? Client.y cl)
              || negb (rw r' =? Client.w cl) || negb (rh r' =? Client.h cl));
      [right|left]; done.
Qed.

End MoreResize.

(** X11. A resize to the geometry of the resize before changes nothing:
    [resize] twice with the same arguments leaves the state that one
    [resize] leaves. *)
Theorem resize_idempotent (cfg : Config) (c : ptr) (x y w h : Z) (s : WM) :
  resize cfg c x y w h (resize cfg c x y w h s) = resize cfg c x y w h s.
Proof.
  destruct (resize_store cfg c x y w h s) as [H|H].
  { by rewrite !H. }
  rewrite H. set (cl1 := resized cfg (deref s c) x y w h).
  destruct (resize_store cfg c x y w h (store s c cl1)) as [H1|H1]; [done|].
  rewrite H1, deref_store, store_store. unfold cl1. by rewrite resized_again.
Qed.

(** X12. [resize] keeps to the size hints: unless the client is
    fullscreen, a width over a maximum width that is set and a height
    over a maximum height that is set are cut to them, and the width and
    the height are at least the minimum ones, when these do not exceed
    the maximum ones. *)
Theorem resize_within_hints (cfg : Config) (c : ptr) (x y w h : Z) (s : WM) :
  Client.isfullscreen (deref s c) = false →
  let cl := deref s c in
  let cl' := deref (resize cfg c x y w h s) c in
  (Client.maxw cl ≠ 0 → Client.w cl' ≤ Client.maxw cl)
  ∧ (Client.maxh cl ≠ 0 → Client.h cl' ≤ Client.maxh cl)
  ∧ (Client.maxw cl = 0 ∨ Client.minw cl ≤ Client.maxw cl → Client.minw cl ≤ Client.w cl')
  ∧ (Client.maxh cl = 0 ∨ Client.minh cl ≤ Client.maxh cl → Client.minh cl ≤ Client.h cl').
Proof.
  intros Hfs. cbv zeta. rewrite deref_resize. unfold resized. cbv zeta.
  generalize (if Client.isfloating (deref s c) && negb (Client.isfullscreen (deref s c))
              then snapped cfg (deref s c) (fit cfg (deref s c) x y w h)
              else fit cfg (deref s c) x y w h). intros r.
  generalize (if Client.isfloating (deref s c) && negb (Client.isfullscreen (deref s c))
              then Client.set_fgeom (deref s c) (rx (fit cfg (deref s c) x y w h))
                     (ry (fit cfg (deref s c) x y w h)) (rw (fit cfg (deref s c) x y w h))
                     (rh (fit cfg (deref s c) x y w h))
              else deref s c). intros cl1.
  assert (∀ X Y W H, Client.w (Client.set_geom cl1 X Y W H) = W) as -> by done.
  assert (∀ X Y W H, Client.h (Client.set_geom cl1 X Y W H) = H) as -> by done.
  unfold hinted. cbv zeta. cbn [rw rh]. rewrite Hfs. cbn [negb]. rewrite !andb_true_r.
  set (wa := if _ && _ then _ else rw r - _). set (ha := if _ && _ then _ else rh r - _).
  clearbody wa ha.
  repeat split; intros H0;
    destruct (Z.eqb_spec (Client.maxw (deref s c)) 0);
    destruct (Z.eqb_spec (Client.maxh (deref s c)) 0); cbn [negb]; lia.
Qed.

Lemma resize_within_hints_witness :
  Client.w (deref (resize Scenario.cfg Scenario.A 0 0 5000 5000
                     (store Scenario.floating1 Scenario.A
                        (set_sizehints (deref Scenario.floating1 Scenario.A)
                           0 0 800 600 200 100 (S754_zero false) (S754_zero false))))
              Scenario.A) ≤ 800.
Proof.
  set (s := store _ _ _).
  destruct (resize_within_hints Scenario.cfg Scenario.A 0 0 5000 5000 s) as (H & _).
  - vm_compute. reflexivity.
  - etransitivity; [apply H; vm_compute; discriminate|]. vm_compute. discriminate.
Defined.

(** ** What [arrange] touches *)

Section ArrangeTouches.

Variable cfg : Config.

(** Whatever of a struct a resize of a client that does not float keeps,
    the tiling loop and [arrange] keep for every client. *)
Lemma tile_invariant {A : Type} (F : Client → A) (nm : list Z) (st : Tiling) (c c' : ptr) :
  (∀ cl x y w h, Client.isfloating cl = false → F (resized cfg cl x y w h) = F cl) →
  F (deref (t_wm (tile cfg nm st c)) c') = F (deref (t_wm st) c').
Proof.
  intros HF. destruct (decide (c = c')) as [<-|Hne]; [|by rewrite deref_tile_ne].
  unfold tile. cbv zeta. unfold istiled.
  destruct (Client.isfloating (deref (t_wm st) c)) eqn:Hfl; [done|].
  cbn [negb andb]. destruct (ISVISIBLE (t_wm st) c); [|done].
  match goal with |- context [if ?b then _ else _] => destruct b end;
    cbn [t_wm]; rewrite deref_resize; by apply HF.
Qed.

Lemma tiles_invariant {A : Type} (F : Client → A) (nm : list Z) (l : list ptr)
    (st : Tiling) (c' : ptr) :
  (∀ cl x y w h, Client.isfloating cl = false → F (resized cfg cl x y w h) = F cl) →
  F (deref (t_wm (fold_left (tile cfg nm) l st)) c') = F (deref (t_wm st) c').
Proof.
  intros HF. revert st. induction l as [|c l IH]; intros st; [done|].
  cbn [fold_left]. by rewrite IH, tile_invariant.
Qed.

Lemma arrange_invariant {A : Type} (F : Client → A) (s : WM) (c : ptr) :
  (∀ cl x y w h, Client.isfloating cl = false → F (resized cfg cl x y w h) = F cl) →
  F (deref (arrange cfg s) c) = F (deref s c).
Proof.
  intros HF. unfold arrange. cbv zeta. rewrite deref_restack.
  unfold tileall. rewrite tiles_invariant by done. cbn [t_wm]. by rewrite deref_focus.
Qed.

Lemma remembered_resized (cl : Client) (x y w h : Z) :
  Client.isfloating cl = false → remembered (resized cfg cl x y w h) = remembered cl.
Proof. intros Hfl. unfold resized. rewrite Hfl. done. Qed.

Lemma remembered_arrange (s : WM) (c : ptr) :
  remembered (deref (arrange cfg s) c) = remembered (deref s c).
Proof. apply arrange_invariant. apply remembered_resized. Qed.

Lemma istiled_tile (nm : list Z) (st : Tiling) (c c' : ptr) :
  istiled (t_wm (tile cfg nm st c)) c' = istiled (t_wm st) c'.
Proof.
  unfold istiled. f_equal.
  - f_equal. apply isfloating_ungeom, ungeom_tile.
  - apply ISVISIBLE_ext.
    + apply tags_eq_ungeom, ungeom_tile.
    + by destruct (shell_fields _ _ (shell_tile cfg nm st c)) as (_&_&_&_&_&_&->&_).
Qed.

(** A client that is not a visible tiled one is not touched by the
    tiling loop. *)
Lemma deref_tiles_untiled (nm : list Z) (l : list ptr) (st : Tiling) (c' : ptr) :
  istiled (t_wm st) c' = false →
  deref (t_wm (fold_left (tile cfg nm) l st)) c' = deref (t_wm st) c'.
Proof.
  revert st. induction l as [|c l IH]; intros st Hnt; [done|].
  cbn [fold_left]. rewrite IH by (by rewrite istiled_tile).
  destruct (decide (c = c')) as [->|Hne].
  - by rewrite tile_untiled.
  - by apply deref_tile_ne.
Qed.

End ArrangeTouches.

(** X13. [arrange] moves and sizes visible tiled clients only: a client
    that floats or is on no workspace shown keeps its struct as it is,
    and of any client nothing changes but the geometry [(x, y, w, h)];
    in particular the remembered floating geometry is kept. *)
Theorem arrange_touches_tiled (cfg : Config) (s : WM) (c : ptr) :
  (istiled s c = false → deref (arrange cfg s) c = deref s c)
  ∧ ungeom (deref (arrange cfg s) c) = ungeom (deref s c)
  ∧ remembered (deref (arrange cfg s) c) = remembered (deref s c).
Proof.
  split; [|split; [apply ungeom_arrange|apply remembered_arrange]].
  intros Hnt. unfold arrange. cbv zeta. rewrite deref_restack.
  unfold tileall. rewrite deref_tiles_untiled; cbn [t_wm]; [by rewrite deref_focus|].
  rewrite <- Hnt. unfold istiled. rewrite deref_focus. f_equal. apply ISVISIBLE_focus.
Qed.

(** ** [togglefloating] and [togglefullscreen] *)

Section Toggles.

Variable cfg : Config.

Lemma isfloating_set_isfloating (cl : Client) (v : bool) :
  Client.isfloating (Client.set_isfloating cl v) = v.
Proof. reflexivity. Qed.

Lemma ungeom_set_isfloating (a b : Client) (v : bool) :
  ungeom a = ungeom b →
  ungeom (Client.set_isfloating a v) = ungeom (Client.set_isfloating b v).
Proof. destruct a, b. unfold ungeom. cbn. intros H. by simplify_eq. Qed.

Lemma set_isfloating_same (cl : Client) :
  Client.set_isfloating cl (Client.isfloating cl) = cl.
Proof. by destruct cl. Qed.

Lemma set_isfloating_twice (cl : Client) (u v : bool) :
  Client.set_isfloating (Client.set_isfloating cl u) v = Client.set_isfloating cl v.
Proof. reflexivity. Qed.

Lemma isfullscreen_ungeom (a b : Client) :
  ungeom a = ungeom b → Client.isfullscreen a = Client.isfullscreen b.
Proof. intros H. by destruct (ungeom_fields cfg a b H) as (_&_&->&_). Qed.

Lemma remembered_set_isfloating (cl : Client) (v : bool) :
  remembered (Client.set_isfloating cl v) = remembered cl.
Proof. reflexivity. Qed.

(** One [togglefloating] on a selected, visible client that is not
    fullscreen. *)
Lemma togglefloating_step (s : WM) (c : ptr) :
  sel s = Some c →
  Client.isfullscreen (deref s c) = false →
  ISVISIBLE s c = true →
  let cl := deref s c in
  let s' := togglefloating cfg s in
  sel s' = Some c
  ∧ ISVISIBLE s' c = true
  ∧ ungeom (deref s' c)
    = ungeom (Client.set_isfloating cl (negb (Client.isfloating cl)))
  ∧ (Client.isfloating cl = true → remembered (deref s' c) = remembered cl)
  ∧ (Client.isfloating cl = false →
     deref s' c
     = resized cfg (Client.set_isfloating cl true)
         (Client.fx cl) (Client.fy cl) (Client.fw cl) (Client.fh cl)).
Proof.
  intros Hsel Hfs Hvis. cbv zeta.
  assert (match sel s with
          | Some c0 => if Client.isfullscreen (deref s c0)
                       then setfullscreen cfg c0 false s else s
          | None => s
          end = s) as Hfirst by (by rewrite Hsel, Hfs).
  unfold togglefloating. cbv zeta. rewrite Hfirst, Hsel.
  rewrite !deref_store, isfloating_set_isfloating.
  set (cl1 := Client.set_isfloating (deref s c) (negb (Client.isfloating (deref s c)))).
  set (s1 := store s c cl1).
  assert (deref s1 c = cl1) as Hd1 by apply deref_store.
  assert (sel s1 = Some c) as Hsel1 by exact Hsel.
  assert (tagset s1 = tagset s) as Hts1 by reflexivity.
  assert (Client.tags cl1 = Client.tags (deref s c)) as Htags1 by reflexivity.
  assert (Client.fx cl1 = Client.fx (deref s c) ∧ Client.fy cl1 = Client.fy (deref s c)
          ∧ Client.fw cl1 = Client.fw (deref s c) ∧ Client.fh cl1 = Client.fh (deref s c))
    as (-> & -> & -> & ->) by done.
  assert (remembered cl1 = remembered (deref s c)) as Hrem1 by reflexivity.
  assert (Client.isfloating cl1 = negb (Client.isfloating (deref s c))) as Hfl1
    by reflexivity.
  clearbody s1.
  set (s2 := if negb (Client.isfloating (deref s c)) then _ else s1).
  assert (sel s2 = Some c ∧ tagset s2 = tagset s
          ∧ ungeom (deref s2 c) = ungeom cl1
          ∧ (Client.isfloating (deref s c) = true → deref s2 c = cl1)
          ∧ (Client.isfloating (deref s c) = false →
             deref s2 c = resized cfg cl1 (Client.fx (deref s c)) (Client.fy (deref s c))
                            (Client.fw (deref s c)) (Client.fh (deref s c))))
    as (Hsel2 & Hts2 & Hun2 & Hkeep & Hfloat).
  { unfold s2. destruct (Client.isfloating (deref s c)); cbn [negb].
    - rewrite Hd1. done.
    - destruct (shell_fields _ _ (shell_resize cfg c (Client.fx (deref s c))
        (Client.fy (deref s c)) (Client.fw (deref s c)) (Client.fh (deref s c)) s1))
        as (_&_&_&->&_&_&->&_).
      rewrite deref_resize, Hd1, ungeom_resized. done. }
  clearbody s2.
  assert (ISVISIBLE s2 c = true) as Hvis2.
  { rewrite <- Hvis. apply ISVISIBLE_ext; [|done].
    by rewrite (tags_eq_ungeom _ _ Hun2). }
  split; [by apply sel_arrange_keep|].
  split; [by rewrite ISVISIBLE_arrange|].
  split; [by rewrite ungeom_arrange|].
  split.
  - intros Hfl. rewrite remembered_arrange, (Hkeep Hfl). done.
  - intros Hfl. rewrite deref_arrange_floating.
    + rewrite (Hfloat Hfl). unfold cl1. by rewrite Hfl.
    + rewrite (isfloating_ungeom _ _ Hun2), Hfl1, Hfl. done.
Qed.

End Toggles.

(** X14. [togglefloating] turns the selected client from tiled to
    floating and back (the client being visible and not fullscreen). A
    tiled client that is made to float is resized to the floating
    geometry it remembers; a floating client that is tiled keeps that
    memory, so that a second [togglefloating] puts it where a resize to
    the remembered geometry puts it, whatever the tiling did to it in
    between. *)
Theorem togglefloating_roundtrip (cfg : Config) (s : WM) (c : ptr) :
  sel s = Some c →
  Client.isfullscreen (deref s c) = false →
  ISVISIBLE s c = true →
  let cl := deref s c in
  let s1 := togglefloating cfg s in
  Client.isfloating (deref s1 c) = negb (Client.isfloating cl)
  ∧ (Client.isfloating cl = false →
     deref s1 c
     = resized cfg (Client.set_isfloating cl true)
         (Client.fx cl) (Client.fy cl) (Client.fw cl) (Client.fh cl))
  ∧ (Client.isfloating cl = true →
     remembered (deref s1 c) = remembered cl
     ∧ deref (togglefloating cfg s1) c
       = resized cfg cl (Client.fx cl) (Client.fy cl) (Client.fw cl) (Client.fh cl)).
Proof.
  intros Hsel Hfs Hvis. cbv zeta.
  destruct (togglefloating_step cfg s c Hsel Hfs Hvis) as (Hsel1 & Hvis1 & Hun1 & Hrem1 & Hto).
  set (s1 := togglefloating cfg s) in *. clearbody s1.
  split. { by rewrite (isfloating_ungeom _ _ Hun1). }
  split; [exact Hto|].
  intros Hfl. split; [by apply Hrem1|].
  assert (Client.isfullscreen (deref s1 c) = false) as Hfs1.
  { by rewrite (isfullscreen_ungeom cfg _ _ Hun1). }
  assert (Client.isfloating (deref s1 c) = false) as Hfl1.
  { by rewrite (isfloating_ungeom _ _ Hun1), isfloating_set_isfloating, Hfl. }
  destruct (togglefloating_step cfg s1 c Hsel1 Hfs1 Hvis1) as (_ & _ & _ & _ & Hback).
  rewrite (Hback Hfl1).
  specialize (Hrem1 Hfl). unfold remembered in Hrem1.
  injection Hrem1 as -> -> -> ->.
  apply resized_floating_ext; [|done|done].
  apply (ungeom_set_isfloating _ _ true) in Hun1.
  rewrite Hun1, set_isfloating_twice, <- Hfl. by rewrite set_isfloating_same.
Qed.

Lemma togglefloating_roundtrip_witness :
  let s := arrange Scenario.cfg Scenario.floating1 in
  Client.isfloating (deref (togglefloating Scenario.cfg s) Scenario.A) = false
  ∧ geometry (deref (togglefloating Scenario.cfg s) Scenario.A)
    = {| rx := 0; ry := 0; rw := 1918; rh := 1078 |}
  ∧ deref (togglefloating Scenario.cfg (togglefloating Scenario.cfg s)) Scenario.A
    = deref s Scenario.A.
Proof.
  cbv zeta.
  destruct (togglefloating_roundtrip Scenario.cfg
              (arrange Scenario.cfg Scenario.floating1) Scenario.A)
    as (H1 & _ & H3).
  - vm_compute. reflexivity.
  - vm_compute. reflexivity.
  - vm_compute. reflexivity.
  - split; [rewrite H1; vm_compute; reflexivity|].
    split; [vm_compute; reflexivity|].
    destruct H3 as [_ H3]; [vm_compute; reflexivity|].
    rewrite H3. vm_compute. reflexivity.
Defined.

(** X15. [togglefullscreen] switches the fullscreen state of the
    selected client. Entering it, the client is made floating with no
    border, and the floating state and the border it had are
    remembered; leaving it, these two are put back. *)
Theorem togglefullscreen_switches (cfg : Config) (s : WM) (c : ptr) :
  sel s = Some c →
  let cl := deref s c in
  let cl' := deref (togglefullscreen cfg s) c in
  Client.isfullscreen cl' = negb (Client.isfullscreen cl)
  ∧ (Client.isfullscreen cl = false →
     Client.isfloating cl' = true ∧ Client.bw cl' = 0
     ∧ Client.fstate cl' = Client.isfloating cl ∧ Client.fbw cl' = Client.bw cl)
  ∧ (Client.isfullscreen cl = true →
     Client.isfloating cl' = Client.fstate cl ∧ Client.bw cl' = Client.fbw cl).
Proof.
  intros Hsel. cbv zeta. unfold togglefullscreen. rewrite Hsel.
  destruct (Client.isfullscreen (deref s c)) eqn:Hfs; cbn [negb].
  - destruct (deref_setfullscreen_leave cfg c s Hfs) as [Hun _].
    cbv zeta in Hun. generalize dependent (deref (setfullscreen cfg c false s) c).
    intros cl' Hun.
    split; [by rewrite (isfullscreen_ungeom cfg _ _ Hun)|].
    split; [done|]. intros _.
    by rewrite (isfloating_ungeom _ _ Hun), (bw_ungeom _ _ Hun).
  - destruct (deref_setfullscreen_enter cfg c s Hfs) as (x1 & y1 & w1 & h1 & ->).
    split; [done|]. split; [done|]. done.
Qed.

Lemma togglefullscreen_switches_witness :
  Client.isfullscreen
    (deref (togglefullscreen Scenario.cfg Scenario.tiled3) Scenario.C) = true
  ∧ Client.bw (deref (togglefullscreen Scenario.cfg Scenario.tiled3) Scenario.C) = 0.
Proof.
  destruct (togglefullscreen_switches Scenario.cfg Scenario.tiled3 Scenario.C)
    as (H1 & H2 & _).
  - vm_compute. reflexivity.
  - split; [rewrite H1; vm_compute; reflexivity|].
    destruct H2 as (_ & H2 & _); [vm_compute; reflexivity|exact H2].
Defined.

(** ** The references stay within the list: [linked] *)

Section Linked.

Variable cfg : Config.

Lemma linked_intro (s s' : WM) :
  linked s →
  clients s' ≡ₚ clients s →
  (∀ c, is_Some (heap s !! c) → is_Some (heap s' !! c)) →
  (∀ c, sel s' = Some c → c ∈ clients s) →
  (∀ c, pinned s' = Some c → c ∈ clients s) →
  (∀ c, raised s' = Some c → c ∈ clients s) →
  linked s'.
Proof.
  intros (Hnd & Hal & _) Hperm Hheap Hsel Hpin Hrai.
  split; [by rewrite Hperm|].
  split; [intros c Hc; apply Hheap, Hal; by rewrite <- Hperm|].
  split; [intros c Hc; rewrite Hperm; by apply Hsel|].
  split; [intros c Hc; rewrite Hperm; by apply Hpin|].
  intros c Hc; rewrite Hperm; by apply Hrai.
Qed.

Lemma linked_stackwindows (s : WM) : linked s → linked (stackwindows s).
Proof.
  intros H. apply (linked_intro s); [done| | | | |].
  - rewrite clients_stackwindows. fold (lifted s). apply lifted_permutation. apply H.
  - intros c. by rewrite heap_stackwindows.
  - rewrite sel_stackwindows. apply H.
  - rewrite pinned_stackwindows. apply H.
  - rewrite raised_stackwindows. apply H.
Qed.

Lemma linked_set_sel (s : WM) (o : option ptr) :
  linked s → (∀ c, o = Some c → c ∈ clients s) → linked (set_sel s o).
Proof. intros H Ho. apply (linked_intro s); try done; apply H. Qed.

Lemma linked_set_raised (s : WM) (o : option ptr) :
  linked s → (∀ c, o = Some c → c ∈ clients s) → linked (set_raised s o).
Proof. intros H Ho. apply (linked_intro s); try done; apply H. Qed.

Lemma linked_set_pinned (s : WM) (o : option ptr) :
  linked s → (∀ c, o = Some c → c ∈ clients s) → linked (set_pinned s o).
Proof. intros H Ho. apply (linked_intro s); try done; apply H. Qed.

Lemma linked_set_ctrlmode (s : WM) (v : DragMode) : linked s → linked (set_ctrlmode s v).
Proof. done. Qed.

Lemma linked_set_pointergrab (s : WM) (v : bool) : linked s → linked (set_pointergrab s v).
Proof. done. Qed.

Lemma linked_set_barfocus (s : WM) (v : bool) : linked s → linked (set_barfocus s v).
Proof. done. Qed.

Lemma linked_set_tagset (s : WM) (v : Z) : linked s → linked (set_tagset s v).
Proof. done. Qed.

Lemma linked_set_mfact (s : WM) (v : list float) : linked s → linked (set_mfact s v).
Proof. done. Qed.

Lemma linked_set_nmain (s : WM) (v : list Z) : linked s → linked (set_nmain s v).
Proof. done. Qed.

Lemma linked_store (s : WM) (c : ptr) (v : Client) : linked s → linked (store s c v).
Proof.
  intros H. apply (linked_intro s); try done; try apply H.
  intros q Hq. unfold store. cbn. apply lookup_insert_is_Some'. by right.
Qed.

Lemma linked_focus (o : option ptr) (s : WM) :
  linked s → (∀ c, o = Some c → c ∈ clients s) → linked (focus o s).
Proof.
  intros H Ho. unfold focus. cbv zeta. apply linked_stackwindows, linked_set_sel; [done|].
  intros c Hc. apply (sel_focus_elem o s c Ho); [apply H|].
  by rewrite sel_focus.
Qed.

Lemma linked_zoomed (c : ptr) (s : WM) :
  linked s → c ∈ clients s → linked (attach c (detach c s)).
Proof.
  intros H Hc. apply (linked_intro s); try done; try apply H.
  by apply unlink_permutation.
Qed.

Lemma linked_detach (c : ptr) (s : WM) :
  linked s → sel s ≠ Some c → pinned s ≠ Some c → raised s ≠ Some c →
  linked (detach c s).
Proof.
  intros (Hnd & Hal & Hsel & Hpin & Hrai) Hs Hp Hr.
  split; [by apply NoDup_unlink|].
  split; [intros q Hq%elem_of_unlink; by apply Hal|].
  split; [|split].
  - intros q Hq. change (sel s = Some q) in Hq.
    apply elem_of_unlink_ne; [congruence|by apply Hsel].
  - intros q Hq. change (pinned s = Some q) in Hq.
    apply elem_of_unlink_ne; [congruence|by apply Hpin].
  - intros q Hq. change (raised s = Some q) in Hq.
    apply elem_of_unlink_ne; [congruence|by apply Hrai].
Qed.

Lemma linked_restack (o : option ptr) (mode : StackAction) (s : WM) :
  linked s → (∀ c, o = Some c → c ∈ clients s) → linked (restack o mode s).
Proof.
  intros H Ho. unfold restack. destruct mode.
  - apply linked_stackwindows, linked_set_pinned; [done|].
    intros c. case_bool_decide; [apply Ho|done].
  - by apply linked_stackwindows, linked_set_raised.
  - apply linked_stackwindows, linked_set_raised.
    + destruct o as [p|]; [|done]. apply linked_zoomed; [done|by apply Ho].
    + intros c Hc. destruct o as [p|]; [|done]. injection Hc as ->.
      cbn. left.
  - cbv zeta. apply linked_stackwindows.
    destruct o as [c|].
    + destruct H as (Hnd & Hal & Hsel & Hpin & Hrai).
      destruct (NoDup_unlink c _ Hnd) as [Hnd' Hnotin].
      split; [done|]. split; [intros q Hq%elem_of_unlink; by apply Hal|].
      cbn [sel pinned raised clients set_sel set_raised set_pinned detach set_clients].
      split; [|split].
      * intros q. case_bool_decide as Hq; [|done]. intros Hq'.
        apply elem_of_unlink_ne; [congruence|by apply Hsel].
      * intros q. case_bool_decide as Hq; [|done]. intros Hq'.
        apply elem_of_unlink_ne; [congruence|by apply Hpin].
      * intros q. case_bool_decide as Hq; [|done]. intros Hq'.
        apply elem_of_unlink_ne; [congruence|by apply Hrai].
    + apply linked_set_sel; [apply linked_set_raised; [apply linked_set_pinned|]|].
      * done.
      * intros c. case_bool_decide; [apply H|done].
      * intros c. cbn. case_bool_decide; [apply H|done].
      * intros c. cbn. case_bool_decide; [apply H|done].
  - cbv zeta. case_bool_decide; [done|].
    apply linked_stackwindows, linked_focus; [by apply linked_set_barfocus|].
    intros c. apply H.
  - cbv zeta. case_bool_decide; [done|].
    apply linked_stackwindows, linked_focus; [by apply linked_set_barfocus|].
    intros c. apply H.
  - by apply linked_stackwindows.
Qed.

(** A state that differs in the heap only, and has every struct that
    was allocated. *)
Lemma linked_shell (s s' : WM) :
  shell s' = shell s →
  (∀ c, is_Some (heap s !! c) → is_Some (heap s' !! c)) →
  linked s → linked s'.
Proof.
  intros Hsh Hheap H.
  destruct (shell_fields _ _ Hsh) as (Hc & Hp & Hr & Hs & _).
  apply (linked_intro s); [done|by rewrite Hc|done| | |].
  - rewrite Hs. apply H.
  - rewrite Hp. apply H.
  - rewrite Hr. apply H.
Qed.

Lemma alloc_resize (c q : ptr) (x y w h : Z) (s : WM) :
  is_Some (heap s !! q) → is_Some (heap (resize cfg c x y w h s) !! q).
Proof.
  intros Hq. destruct (resize_store cfg c x y w h s) as [->| ->]; [done|].
  unfold store. cbn. apply lookup_insert_is_Some'. by right.
Qed.

Lemma alloc_tile (nm : list Z) (st : Tiling) (c q : ptr) :
  is_Some (heap (t_wm st) !! q) → is_Some (heap (t_wm (tile cfg nm st c)) !! q).
Proof.
  intros Hq. unfold tile. cbv zeta.
  destruct (istiled (t_wm st) c); [|done].
  match goal with |- context [if ?b then _ else _] => destruct b end;
    cbn [t_wm]; by apply alloc_resize.
Qed.

Lemma alloc_tiles (nm : list Z) (l : list ptr) (st : Tiling) (q : ptr) :
  is_Some (heap (t_wm st) !! q) →
  is_Some (heap (t_wm (fold_left (tile cfg nm) l st)) !! q).
Proof.
  revert st. induction l as [|c l IH]; intros st Hq; [done|].
  cbn [fold_left]. by apply IH, alloc_tile.
Qed.

Lemma linked_resize (c : ptr) (x y w h : Z) (s : WM) :
  linked s → linked (resize cfg c x y w h s).
Proof.
  apply linked_shell; [apply shell_resize|]. intros q. apply alloc_resize.
Qed.

Lemma linked_tileall (s : WM) : linked s → linked (tileall cfg s).
Proof.
  apply linked_shell; [apply shell_tileall|].
  intros q Hq. unfold tileall. by apply alloc_tiles.
Qed.

Lemma linked_arrange (s : WM) : linked s → linked (arrange cfg s).
Proof.
  intros H. unfold arrange. cbv zeta.
  apply (linked_focus None), linked_tileall in H; [|done].
  generalize dependent (tileall cfg (focus None s)). intros t Ht.
  apply linked_restack; [done|]. apply Ht.
Qed.

Lemma clients_resize (c : ptr) (x y w h : Z) (s : WM) :
  clients (resize cfg c x y w h s) = clients s.
Proof. by destruct (shell_fields _ _ (shell_resize cfg c x y w h s)) as (->&_). Qed.

Lemma linked_setfullscreen (c : ptr) (f : bool) (s : WM) :
  linked s → c ∈ clients s → linked (setfullscreen cfg c f s).
Proof.
  intros H Hc. unfold setfullscreen.
  destruct (f && negb (Client.isfullscreen (deref s c))).
  - cbv zeta. apply linked_arrange, linked_restack.
    + by apply linked_resize, linked_store.
    + intros q [= <-]. rewrite clients_resize. exact Hc.
  - destruct (negb f && Client.isfullscreen (deref s c)).
    + cbv zeta. by apply linked_arrange, linked_resize, linked_store.
    + by apply linked_arrange.
Qed.

End Linked.

(** ** The clients and their windows through the core functions *)

Section Kept.

Variable cfg : Config.

Lemma win_eq_ungeom (a b : Client) : ungeom a = ungeom b → Client.win a = Client.win b.
Proof. destruct a, b. unfold ungeom. cbn. intros H. by simplify_eq. Qed.

Lemma notin_unallocated (s : WM) (q : ptr) :
  linked s → heap s !! q = None → q ∉ clients s.
Proof.
  intros (_ & Hal & _) Hq Hin. apply Hal in Hin. rewrite Hq in Hin. by destruct Hin.
Qed.

Lemma linked_sel (s : WM) (c : ptr) : linked s → sel s = Some c → c ∈ clients s.
Proof. intros (_ & _ & Hs & _). apply Hs. Qed.

Lemma lookup_resize_ne (c q : ptr) (x y w h : Z) (s : WM) :
  c ≠ q → heap (resize cfg c x y w h s) !! q = heap s !! q.
Proof.
  intros Hne. destruct (resize_store cfg c x y w h s) as [->| ->]; [done|].
  unfold store. cbn. by rewrite lookup_insert_ne.
Qed.

Lemma lookup_tile_ne (nm : list Z) (st : Tiling) (c q : ptr) :
  c ≠ q → heap (t_wm (tile cfg nm st c)) !! q = heap (t_wm st) !! q.
Proof.
  intros Hne. unfold tile. cbv zeta.
  destruct (istiled (t_wm st) c); [|done].
  match goal with |- context [if ?b then _ else _] => destruct b end;
    cbn [t_wm]; by apply lookup_resize_ne.
Qed.

Lemma lookup_tiles_notin (nm : list Z) (l : list ptr) (st : Tiling) (q : ptr) :
  q ∉ l → heap (t_wm (fold_left (tile cfg nm) l st)) !! q = heap (t_wm st) !! q.
Proof.
  revert st. induction l as [|c l IH]; intros st Hnotin; [done|].
  apply not_elem_of_cons in Hnotin as [Hne Hnotin].
  cbn [fold_left]. rewrite IH by done. by apply lookup_tile_ne.
Qed.

Lemma kept_refl (s : WM) : linked s → kept s s.
Proof. intros H. split; [done|]. split; [done|]. split; done. Qed.

Lemma kept_trans (s1 s2 s3 : WM) : kept s1 s2 → kept s2 s3 → kept s1 s3.
Proof.
  intros (_ & Hp1 & Hw1 & Hn1) (H3 & Hp2 & Hw2 & Hn2). split; [done|].
  split; [by rewrite Hp2|]. split; [intros q; by rewrite Hw2|].
  intros q Hq. by apply Hn2, Hn1.
Qed.

Lemma kept_linked (s s' : WM) : kept s s' → linked s'.
Proof. by intros []. Qed.

Lemma kept_stackwindows (s : WM) : linked s → kept s (stackwindows s).
Proof.
  intros H. split; [by apply linked_stackwindows|]. split.
  - rewrite clients_stackwindows. fold (lifted s). apply lifted_permutation, H.
  - split; [intros q; by rewrite deref_stackwindows|].
    intros q. by rewrite heap_stackwindows.
Qed.

Lemma kept_focus (o : option ptr) (s : WM) :
  linked s → (∀ c, o = Some c → c ∈ clients s) → kept s (focus o s).
Proof.
  intros H Ho. split; [by apply linked_focus|]. split.
  - rewrite clients_focus. fold (lifted s). apply lifted_permutation, H.
  - split; [intros q; by rewrite deref_focus|]. intros q. by rewrite heap_focus.
Qed.

Lemma clients_stackwindows_perm (s : WM) :
  (∀ p, pinned s = Some p → p ∈ clients s) → clients (stackwindows s) ≡ₚ clients s.
Proof. intros H. rewrite clients_stackwindows. by apply lifted_permutation. Qed.

(** Every stack action but the removal keeps the clients. *)
Lemma kept_restack (o : option ptr) (mode : StackAction) (s : WM) :
  linked s → (∀ c, o = Some c → c ∈ clients s) → mode ≠ CliRemove →
  kept s (restack o mode s).
Proof.
  intros H Ho Hmode. split; [by apply linked_restack|].
  split; [|split; [intros q; by rewrite deref_restack|intros q; by rewrite heap_restack]].
  unfold restack. destruct mode; try done.
  - rewrite clients_stackwindows_perm; [done|].
    cbn [pinned set_pinned clients]. intros p. case_bool_decide; [apply Ho|done].
  - rewrite clients_stackwindows_perm; [done|]. apply H.
  - destruct o as [p|].
    + rewrite clients_stackwindows_perm.
      * cbn [set_raised attach detach set_clients clients].
        apply unlink_permutation. by apply Ho.
      * cbn [pinned set_raised attach detach set_clients clients].
        intros c Hc. rewrite unlink_permutation by (by apply Ho).
        destruct H as (_ & _ & _ & Hpin & _). by apply Hpin.
    + rewrite clients_stackwindows_perm; [done|]. apply H.
  - cbv zeta. case_bool_decide; [done|].
    match goal with |- clients (stackwindows ?t) ≡ₚ _ =>
      assert (kept s t) as (Ht & Hp & _) end.
    { apply (kept_focus _ (set_barfocus s _)); [done|]. intros c. apply H. }
    rewrite clients_stackwindows_perm; [done|apply Ht].
  - cbv zeta. case_bool_decide; [done|].
    match goal with |- clients (stackwindows ?t) ≡ₚ _ =>
      assert (kept s t) as (Ht & Hp & _) end.
    { apply (kept_focus _ (set_barfocus s _)); [done|]. intros c. apply H. }
    rewrite clients_stackwindows_perm; [done|apply Ht].
  - rewrite clients_stackwindows_perm; [done|]. apply H.
Qed.

Lemma kept_store (s : WM) (c : ptr) (v : Client) :
  linked s → c ∈ clients s → Client.win v = Client.win (deref s c) → kept s (store s c v).
Proof.
  intros H Hc Hv. split; [by apply linked_store|]. split; [done|]. split.
  - intros q. destruct (decide (c = q)) as [->|Hne].
    + by rewrite deref_store.
    + by rewrite deref_store_ne.
  - intros q Hq. pose proof (notin_unallocated s q H Hq) as Hnotin.
    unfold store. cbn. rewrite lookup_insert_ne; [done|]. by intros ->.
Qed.

Lemma kept_resize (c : ptr) (x y w h : Z) (s : WM) :
  linked s → c ∈ clients s → kept s (resize cfg c x y w h s).
Proof.
  intros H Hc. split; [by apply linked_resize|]. split; [by rewrite clients_resize|].
  split; [intros q; apply win_eq_ungeom, ungeom_resize|].
  intros q Hq. pose proof (notin_unallocated s q H Hq) as Hnotin.
  rewrite lookup_resize_ne; [done|]. by intros ->.
Qed.

(** [arrange] allocates nothing: it writes to the structs of clients of
    the list only. *)
Lemma lookup_arrange_notin (s : WM) (q : ptr) :
  linked s → q ∉ clients s → heap (arrange cfg s) !! q = heap s !! q.
Proof.
  intros H Hq. unfold arrange. cbv zeta. rewrite heap_restack.
  unfold tileall. rewrite lookup_tiles_notin; cbn [t_wm]; [by rewrite heap_focus|].
  destruct (kept_focus None s H) as (_ & Hp & _); [done|]. by rewrite Hp.
Qed.

Lemma kept_arrange (s : WM) : linked s → kept s (arrange cfg s).
Proof.
  intros H. split; [by apply linked_arrange|]. split.
  - rewrite clients_arrange. apply lifted_permutation, H.
  - split; [intros q; apply win_eq_ungeom, ungeom_arrange|].
    intros q Hq. rewrite lookup_arrange_notin; [done|done|].
    by apply notin_unallocated.
Qed.

Lemma kept_mem (s s' : WM) (c : ptr) : kept s s' → c ∈ clients s → c ∈ clients s'.
Proof. intros (_ & Hp & _) Hc. by rewrite Hp. Qed.

Lemma kept_setfullscreen (c : ptr) (f : bool) (s : WM) :
  linked s → c ∈ clients s → kept s (setfullscreen cfg c f s).
Proof.
  intros H Hc. unfold setfullscreen.
  destruct (f && negb (Client.isfullscreen (deref s c))).
  - cbv zeta.
    match goal with |- kept s (arrange cfg (restack _ _ (resize cfg c ?x ?y ?w ?h ?t))) =>
      assert (kept s t) as Ht by (by apply kept_store);
      pose proof (kept_resize c x y w h t (kept_linked _ _ Ht) (kept_mem _ _ _ Ht Hc)) as Hr;
      generalize dependent (resize cfg c x y w h t) end.
    intros t2 Ht2. pose proof (kept_trans _ _ _ Ht Ht2) as H2.
    assert (kept t2 (restack (Some c) CliZoom t2)) as H3.
    { apply kept_restack; [apply H2| |done]. intros q [= <-].
      destruct H2 as (_ & -> & _). done. }
    pose proof (kept_trans _ _ _ H2 H3) as H4.
    generalize dependent (restack (Some c) CliZoom t2). intros t3 _ H4.
    eapply kept_trans; [exact H4|]. apply kept_arrange, H4.
  - destruct (negb f && Client.isfullscreen (deref s c)).
    + cbv zeta.
      match goal with |- kept s (arrange cfg (resize cfg c ?x ?y ?w ?h ?t)) =>
        assert (kept s t) as Ht by (by apply kept_store);
        pose proof (kept_resize c x y w h t (kept_linked _ _ Ht) (kept_mem _ _ _ Ht Hc)) as Hr;
        generalize dependent (resize cfg c x y w h t) end.
      intros t2 Ht2. pose proof (kept_trans _ _ _ Ht Ht2) as H2.
      eapply kept_trans; [exact H2|]. apply kept_arrange, H2.
    + by apply kept_arrange.
Qed.

End Kept.

(** ** The actions bound to keys keep the clients *)

Section Actions.

Variable cfg : Config.

Lemma kept_same (s s' : WM) :
  linked s → clients s' = clients s → sel s' = sel s → pinned s' = pinned s →
  raised s' = raised s → heap s' = heap s → kept s s'.
Proof.
  intros H Hc Hs Hp Hr Hh. split; [|split; [|split; [|by rewrite Hh]]].
  - apply (linked_intro s); [done|by rewrite Hc| | | |].
    + intros c. by rewrite Hh.
    + rewrite Hs. apply H.
    + rewrite Hp. apply H.
    + rewrite Hr. apply H.
  - by rewrite Hc.
  - intros q. unfold deref. by rewrite Hh.
Qed.

Lemma kept_focusstack (arg : Z) (s : WM) : linked s → kept s (focusstack arg s).
Proof.
  intros H. destruct (sel s) as [p|] eqn:Hsel; [|unfold focusstack; by rewrite Hsel].
  rewrite (focusstack_cycled arg s p Hsel).
  destruct (cycled arg s p) as [c|] eqn:Ec; [|done].
  apply cycled_visible in Ec as [Hc _].
  assert (kept s (focus (Some c) s)) as H1.
  { apply kept_focus; [done|]. by intros q [= <-]. }
  eapply kept_trans; [exact H1|].
  apply kept_restack; [apply H1| |done].
  intros q [= <-]. destruct H1 as (_ & -> & _). done.
Qed.

Lemma kept_raise_sel (s : WM) : linked s → kept s (restack (sel s) CliRaise s).
Proof. intros H. apply kept_restack; [done| |done]. apply H. Qed.

Lemma kept_grabresize (arg : DragMode) (s : WM) : linked s → kept s (grabresize arg s).
Proof.
  intros H. unfold grabresize. case_bool_decide; [done|].
  destruct (sel s) as [c|] eqn:Hsel; [|done].
  destruct (Client.isfullscreen (deref s c)
            || bool_decide (arg = DragMove) && negb (Client.isfloating (deref s c)));
    [done|].
  cbv zeta.
  match goal with |- kept s (if _ then restack _ _ ?t else ?t) =>
    assert (kept s t) as Ht
  end.
  { apply kept_same; [done|..]; by destruct (_ && _). }
  match goal with |- kept s (if ?b then _ else _) => destruct b end; [|done].
  eapply kept_trans; [exact Ht|]. apply kept_raise_sel, Ht.
Qed.

Lemma kept_grabresizeabort (s : WM) : linked s → kept s (grabresizeabort cfg s).
Proof.
  intros H. unfold grabresizeabort.
  destruct (bool_decide (ctrlmode s = CtrlNone) || bool_decide (ctrlmode s = ZoomStack));
    [done|].
  cbv zeta.
  match goal with |- kept s (set_ctrlmode (set_pointergrab ?t _) _) =>
    assert (kept s t) as Ht
  end.
  { destruct (sel s) as [c|]; [|done].
    match goal with |- kept s (if ?b then _ else _) => destruct b end; [|done].
    match goal with |- kept s (arrange cfg ?u) => assert (kept s u) as Hu end.
    { by apply kept_same. }
    eapply kept_trans; [exact Hu|]. apply kept_arrange, Hu. }
  eapply kept_trans; [exact Ht|]. apply kept_same; [apply Ht|done..].
Qed.

Lemma kept_pin (s : WM) : linked s → kept s (pin s).
Proof. intros H. apply kept_restack; [done| |done]. apply H. Qed.

Lemma kept_zoom (s : WM) : linked s → kept s (zoom cfg s).
Proof.
  intros H. unfold zoom.
  assert (kept s (restack (sel s) CliZoom s)) as H1.
  { apply kept_restack; [done| |done]. apply H. }
  eapply kept_trans; [exact H1|]. apply kept_arrange, H1.
Qed.

Lemma kept_retag (s : WM) (c : ptr) (v : Z) :
  linked s → c ∈ clients s →
  kept s (arrange cfg (store s c (Client.set_tags (deref s c) v))).
Proof.
  intros H Hc.
  assert (kept s (store s c (Client.set_tags (deref s c) v))) as H1
    by (by apply kept_store).
  eapply kept_trans; [exact H1|]. apply kept_arrange, H1.
Qed.

Lemma kept_tag (arg : Z) (s : WM) : linked s → kept s (tag cfg arg s).
Proof.
  intros H. unfold tag. destruct (sel s) as [c|] eqn:Hsel; [|done].
  destruct (negb _); [|done]. apply kept_retag; [done|]. by apply linked_sel.
Qed.

Lemma kept_toggletag (arg : Z) (s : WM) : linked s → kept s (toggletag cfg arg s).
Proof.
  intros H. unfold toggletag. destruct (sel s) as [c|] eqn:Hsel; [|done]. cbv zeta.
  destruct (negb _); [|done]. apply kept_retag; [done|]. by apply linked_sel.
Qed.

Lemma kept_view_to (s : WM) (v : Z) : linked s → kept s (arrange cfg (set_tagset s v)).
Proof.
  intros H. assert (kept s (set_tagset s v)) as H1 by (by apply kept_same).
  eapply kept_trans; [exact H1|]. apply kept_arrange, H1.
Qed.

Lemma kept_view (arg : Z) (s : WM) : linked s → kept s (view cfg arg s).
Proof. apply kept_view_to. Qed.

Lemma kept_viewshift (arg : Z) (s : WM) : linked s → kept s (viewshift cfg arg s).
Proof. apply kept_view_to. Qed.

Lemma kept_viewtagshift (arg : Z) (s : WM) : linked s → kept s (viewtagshift cfg arg s).
Proof.
  intros H. unfold viewtagshift. cbv zeta.
  match goal with |- kept s (viewshift cfg arg ?t) => assert (kept s t) as Ht end.
  { destruct (sel s) as [c|] eqn:Hsel; [|done]. apply kept_store; [done| |done].
    by apply linked_sel. }
  eapply kept_trans; [exact Ht|]. apply kept_viewshift, Ht.
Qed.

Lemma kept_togglefullscreen (s : WM) : linked s → kept s (togglefullscreen cfg s).
Proof.
  intros H. unfold togglefullscreen. destruct (sel s) as [c|] eqn:Hsel; [|done].
  pose proof H as (_ & _ & Hs & _).
  apply kept_setfullscreen; [done|]. by apply Hs.
Qed.

Lemma kept_togglefloating (s : WM) : linked s → kept s (togglefloating cfg s).
Proof.
  intros H. unfold togglefloating. cbv zeta.
  match goal with |- kept s (arrange cfg (match sel ?t with _ => _ end)) =>
    assert (kept s t) as Ht
  end.
  { destruct (sel s) as [c|] eqn:Hsel; [|done].
    destruct (Client.isfullscreen (deref s c)); [|done].
    pose proof H as (_ & _ & Hs & _).
    apply kept_setfullscreen; [done|]. by apply Hs. }
  match goal with |- kept s (arrange cfg (match sel ?t with _ => _ end)) =>
    generalize dependent t
  end.
  intros t Ht.
  match goal with |- kept s (arrange cfg ?u) => assert (kept t u) as Hu end.
  { destruct (sel t) as [c|] eqn:Hselt; [|apply kept_refl, Ht]. cbv zeta.
    assert (c ∈ clients t) as Hc by (apply linked_sel; [apply Ht|done]).
    match goal with |- kept t (if _ then resize cfg c ?x ?y ?w ?h ?v else ?v) =>
      assert (kept t v) as Hv by (apply kept_store; [apply Ht|done|done]);
      pose proof (kept_resize cfg c x y w h v (kept_linked _ _ Hv) (kept_mem _ _ _ Hv Hc))
        as Hr
    end.
    match goal with |- kept t (if ?b then _ else _) => destruct b end; [|done].
    eapply kept_trans; [exact Hv|exact Hr]. }
  pose proof (kept_trans _ _ _ Ht Hu) as H2.
  eapply kept_trans; [exact H2|]. apply kept_arrange, H2.
Qed.

Lemma kept_launcher (i : Z) (t : Session) :
  linked (wm t) → kept (wm t) (wm (launcher i t)).
Proof.
  intros H. unfold launcher. cbv zeta. cbn [wm set_wm set_barcmds barcmds].
  destruct (negb (i =? 0)); by apply kept_restack.
Qed.

Lemma kept_call (a : Action) (t : Session) :
  linked (wm t) → kept (wm t) (wm (call cfg a t)).
Proof.
  intros H. destruct a; cbn [call wm set_wm set_quitting]; try done.
  - by apply kept_focusstack.
  - by apply kept_grabresize.
  - unfold grabstack. eapply kept_trans; [|apply kept_focusstack].
    + by apply kept_same.
    + done.
  - by apply kept_launcher.
  - by apply kept_pin.
  - by apply kept_tag.
  - by apply kept_togglefloating.
  - by apply kept_togglefullscreen.
  - by apply kept_toggletag.
  - by apply kept_view.
  - by apply kept_viewshift.
  - by apply kept_viewtagshift.
  - by apply kept_zoom.
Qed.

Lemma kept_calls (l : list Action) (t : Session) :
  linked (wm t) → kept (wm t) (wm (fold_left (λ t a, call cfg a t) l t)).
Proof.
  intros H.
  enough (∀ t1, kept (wm t) (wm t1) →
                kept (wm t) (wm (fold_left (λ t a, call cfg a t) l t1))) as G
    by (apply G, kept_refl, H).
  induction l as [|a l IH]; intros t1 Hk; [done|].
  cbn [fold_left]. apply IH. eapply kept_trans; [exact Hk|]. apply kept_call, Hk.
Qed.

End Actions.

(** X16. Whatever actions bound to keys are called one after the other,
    the clients of the list stay the same clients with the same windows
    (in some order), the list has no repetition, every client of it is
    allocated, and the selected, the pinned and the raised client are
    clients of the list. *)
Theorem call_keeps_clients (cfg : Config) (l : list Action) (t : Session) :
  linked (wm t) →
  let t' := fold_left (λ t a, call cfg a t) l t in
  linked (wm t')
  ∧ clients (wm t') ≡ₚ clients (wm t)
  ∧ ∀ q, Client.win (deref (wm t') q) = Client.win (deref (wm t) q).
Proof.
  intros H. cbv zeta. destruct (kept_calls cfg l t H) as (HL & HP & HW & _). done.
Qed.

Lemma call_keeps_clients_witness :
  clients (wm (fold_left (λ t a, call Scenario.cfg a t)
                 [FocusStack 1; Zoom; ToggleFloating; Pin; ViewTagShift 1; Tag 4]
                 Scenes.session))
  ≡ₚ [Scenario.C; Scenario.B; Scenario.A].
Proof.
  destruct (call_keeps_clients Scenario.cfg
              [FocusStack 1; Zoom; ToggleFloating; Pin; ViewTagShift 1; Tag 4]
              Scenes.session) as (_ & H & _).
  - apply (bool_decide_unpack _). vm_compute. exact I.
  - rewrite H. vm_compute. reflexivity.
Defined.

(** ** Removing a client *)

Section Removal.

Variable cfg : Config.

Lemma removed_unlinks (c : ptr) (s : WM) :
  linked s →
  let s1 := restack (Some c) CliRemove s in
  linked s1 ∧ clients s1 ≡ₚ unlink c (clients s) ∧ ∀ q, deref s1 q = deref s q.
Proof.
  intros H. cbv zeta. unfold restack. cbv zeta.
  match goal with |- linked (stackwindows ?X) ∧ _ => assert (linked X) as HX end.
  { destruct H as (Hnd & Hal & Hsel & Hpin & Hrai).
    destruct (NoDup_unlink c _ Hnd) as [Hnd' Hnotin].
    split; [done|]. split; [intros q Hq%elem_of_unlink; by apply Hal|].
    cbn [sel pinned raised clients set_sel set_raised set_pinned detach set_clients].
    split; [|split].
    - intros q. case_bool_decide as Hq; [|done]. intros Hq'.
      apply elem_of_unlink_ne; [congruence|by apply Hsel].
    - intros q. case_bool_decide as Hq; [|done]. intros Hq'.
      apply elem_of_unlink_ne; [congruence|by apply Hpin].
    - intros q. case_bool_decide as Hq; [|done]. intros Hq'.
      apply elem_of_unlink_ne; [congruence|by apply Hrai]. }
  split; [by apply linked_stackwindows|]. split.
  - rewrite clients_stackwindows_perm; [done|]. apply HX.
  - intros q. by rewrite deref_stackwindows.
Qed.

Lemma deref_free (s : WM) (c q : ptr) :
  q ≠ c → deref (set_heap s (delete c (heap s))) q = deref s q.
Proof. intros Hne. unfold deref. cbn. by rewrite lookup_total_delete_ne. Qed.

Lemma unmanage_spec (c : ptr) (s : WM) :
  linked s →
  c ∈ clients s →
  let s' := unmanage cfg c s in
  linked s'
  ∧ heap s' !! c = None
  ∧ clients s' ≡ₚ unlink c (clients s)
  ∧ (c ∉ clients s')
  ∧ ∀ q, q ≠ c → Client.win (deref s' q) = Client.win (deref s q).
Proof.
  intros H Hc. cbv zeta. unfold unmanage. cbv zeta.
  destruct (removed_unlinks c s H) as (H1 & Hp1 & Hd1).
  pose proof H as (Hnd & _).
  destruct (NoDup_unlink c _ Hnd) as [_ Hnotin].
  generalize dependent (restack (Some c) CliRemove s). intros s1 H1 Hp1 Hd1.
  destruct (kept_arrange cfg s1 H1) as (H2 & Hp2 & Hw2 & _).
  generalize dependent (arrange cfg s1). intros s2 H2 Hp2 Hw2.
  assert (c ∉ clients s2) as Hc2 by (by rewrite Hp2, Hp1).
  split; [|split; [|split; [|split]]].
  - destruct H2 as (Hnd2 & Hal2 & Hrest). split; [done|]. split; [|done].
    intros q Hq. cbn [heap set_heap].
    rewrite lookup_delete_ne by (intros ->; contradiction).
    by apply Hal2.
  - cbn. by rewrite lookup_delete_eq.
  - cbn [clients set_heap]. by rewrite Hp2, Hp1.
  - done.
  - intros q Hq. rewrite deref_free by done. by rewrite Hw2, Hd1.
Qed.

End Removal.

(** X17. [unmanage] takes the client out of the list and frees its
    struct: afterwards the list holds the other clients, with the
    windows they had, and no reference of the state leads to the freed
    struct or outside of the list. *)
Theorem unmanage_frees (cfg : Config) (c : ptr) (s : WM) :
  linked s →
  c ∈ clients s →
  let s' := unmanage cfg c s in
  linked s'
  ∧ heap s' !! c = None
  ∧ clients s' ≡ₚ unlink c (clients s)
  ∧ (c ∉ clients s')
  ∧ ∀ q, q ≠ c → Client.win (deref s' q) = Client.win (deref s q).
Proof. apply unmanage_spec. Qed.

Lemma unmanage_frees_witness :
  clients (unmanage Scenario.cfg Scenario.B Scenario.tiled3) ≡ₚ [Scenario.C; Scenario.A]
  ∧ heap (unmanage Scenario.cfg Scenario.B Scenario.tiled3) !! Scenario.B = None.
Proof.
  destruct (unmanage_frees Scenario.cfg Scenario.B Scenario.tiled3)
    as (_ & Hfree & Hcl & _).
  - apply (bool_decide_unpack _). vm_compute. exact I.
  - apply (bool_decide_unpack _). vm_compute. exact I.
  - split; [|exact Hfree]. rewrite Hcl. vm_compute. reflexivity.
Defined.

(** ** Looking windows up *)

Section Lookup.

Variable cfg : Config.

Lemma wintoclient_Some (w : Window) (s : WM) (q : ptr) :
  wintoclient w s = Some q → q ∈ clients s ∧ Client.win (deref s q) = w.
Proof.
  unfold wintoclient. intros [Hin Hw]%find_some.
  split; [by apply list_elem_of_In|]. by apply bool_decide_eq_true in Hw.
Qed.

Lemma wintoclient_None (w : Window) (s : WM) :
  wintoclient w s = None ↔ w ∉ windows s (clients s).
Proof.
  unfold wintoclient, windows. split.
  - intros Hnone [q [Hw Hq]]%list_elem_of_fmap.
    apply list_elem_of_In in Hq.
    pose proof (find_none _ _ Hnone q Hq) as Hf. cbn in Hf.
    apply bool_decide_eq_false in Hf. done.
  - intros Hnotin. destruct (find _ _) as [q|] eqn:E; [|done].
    apply find_some in E as [Hin Hw]. apply bool_decide_eq_true in Hw.
    destruct Hnotin. apply list_elem_of_fmap. exists q.
    split; [done|]. by apply list_elem_of_In.
Qed.

Lemma distinct_inj (s : WM) (l : list ptr) (p q : ptr) :
  NoDup (windows s l) → p ∈ l → q ∈ l →
  Client.win (deref s p) = Client.win (deref s q) → p = q.
Proof.
  unfold windows. induction l as [|x l IH]; [by intros _ ?%elem_of_nil|].
  cbn. intros [Hx Hnd]%NoDup_cons Hp Hq Heq.
  apply elem_of_cons in Hp as [->|Hp]; apply elem_of_cons in Hq as [->|Hq].
  - done.
  - destruct Hx. rewrite Heq. apply list_elem_of_fmap. by exists q.
  - destruct Hx. rewrite <- Heq. apply list_elem_of_fmap. by exists p.
  - by apply IH.
Qed.

(** With distinct windows, the client of a window is the one client of
    the list that has it. *)
Lemma wintoclient_distinct (w : Window) (s : WM) (q : ptr) :
  distinctwindows s →
  wintoclient w s = Some q ↔ q ∈ clients s ∧ Client.win (deref s q) = w.
Proof.
  intros Hd. split; [apply wintoclient_Some|]. intros [Hq Hw].
  destruct (wintoclient w s) as [p|] eqn:E.
  - apply wintoclient_Some in E as [Hp Hpw]. f_equal.
    apply (distinct_inj s (clients s)); [done|done|done|congruence].
  - apply wintoclient_None in E. destruct E. unfold windows.
    apply list_elem_of_fmap. by exists q.
Qed.

Lemma windows_ext (s s' : WM) (l : list ptr) :
  (∀ q, q ∈ l → Client.win (deref s' q) = Client.win (deref s q)) →
  windows s' l = windows s l.
Proof.
  intros H. unfold windows. apply map_ext_in. intros q Hq%list_elem_of_In. by apply H.
Qed.

Lemma windows_perm (s : WM) (l l' : list ptr) :
  l ≡ₚ l' → windows s l ≡ₚ windows s l'.
Proof. intros H. unfold windows. by apply Permutation_map. Qed.

(** The windows of the clients after [unmanage]: the windows there were
    but the one of the client removed. *)
Lemma unmanage_windows (c : ptr) (s : WM) :
  linked s → distinctwindows s → c ∈ clients s →
  windows (unmanage cfg c s) (clients (unmanage cfg c s))
  ≡ₚ windows s (unlink c (clients s))
  ∧ NoDup (Client.win (deref s c) :: windows s (unlink c (clients s))).
Proof.
  intros H Hd Hc.
  destruct (unmanage_spec cfg c s H Hc) as (H' & _ & Hp & Hnotin & Hwin).
  generalize dependent (unmanage cfg c s). intros s' H' Hp Hnotin Hwin.
  pose proof H as (Hnd & _).
  destruct (NoDup_unlink c _ Hnd) as [Hnd' Hnotin'].
  split.
  - rewrite (windows_perm s' _ _ Hp). rewrite (windows_ext s s'); [done|].
    intros q Hq. apply Hwin. congruence.
  - change (NoDup (windows s (c :: unlink c (clients s)))).
    rewrite (windows_perm s _ _ (unlink_permutation c _ Hc)). exact Hd.
Qed.

End Lookup.

(** X18. After [destroynotify] (the clients having different windows),
    the window destroyed is the window of no client, the client of every
    other window is the one it was, and the references of the state are
    within the list; for a window of no client nothing changes. *)
Theorem destroynotify_forgets (cfg : Config) (w : Window) (s : WM) :
  linked s →
  distinctwindows s →
  let s' := destroynotify cfg w s in
  linked s'
  ∧ distinctwindows s'
  ∧ wintoclient w s' = None
  ∧ (∀ w' q, w' ≠ w → wintoclient w' s' = Some q ↔ wintoclient w' s = Some q)
  ∧ (wintoclient w s = None → s' = s).
Proof.
  intros H Hd. cbv zeta. unfold destroynotify.
  destruct (wintoclient w s) as [c|] eqn:E; [|done].
  apply wintoclient_Some in E as [Hc Hw].
  destruct (unmanage_spec cfg c s H Hc) as (H' & _ & Hp & Hnotin & Hwin).
  destruct (unmanage_windows cfg c s H Hd Hc) as (Hws & Hnd2). rewrite Hw in Hnd2.
  generalize dependent (unmanage cfg c s). intros s' H' Hp Hnotin Hwin Hws.
  pose proof H as (Hnd & _).
  destruct (NoDup_unlink c _ Hnd) as [Hnd' Hnotin'].
  apply NoDup_cons in Hnd2 as [Hw2 Hnd2].
  assert (distinctwindows s') as Hd'.
  { unfold distinctwindows. by rewrite Hws. }
  split; [done|]. split; [done|].
  split. { apply wintoclient_None. by rewrite Hws. }
  split; [|done].
  intros w' q Hw'. rewrite (wintoclient_distinct w' s' q Hd'), (wintoclient_distinct w' s q Hd).
  rewrite Hp. split.
  - intros [Hq Hqw]. split; [by apply elem_of_unlink in Hq|].
    rewrite <- Hwin; [done|]. congruence.
  - intros [Hq Hqw]. assert (q ≠ c) as Hne by congruence.
    split; [by apply elem_of_unlink_ne|]. by rewrite Hwin.
Qed.

Lemma destroynotify_forgets_witness :
  wintoclient 102 Scenario.tiled3 = Some Scenario.B
  ∧ wintoclient 102 (destroynotify Scenario.cfg 102 Scenario.tiled3) = None
  ∧ wintoclient 101 (destroynotify Scenario.cfg 102 Scenario.tiled3) = Some Scenario.A.
Proof.
  destruct (destroynotify_forgets Scenario.cfg 102 Scenario.tiled3)
    as (_ & _ & Hnone & Hother & _).
  - apply (bool_decide_unpack _). vm_compute. exact I.
  - apply (bool_decide_unpack _). vm_compute. exact I.
  - split; [vm_compute; reflexivity|]. split; [exact Hnone|].
    apply Hother; [discriminate|]. vm_compute. reflexivity.
Defined.

(** ** Mapping a window: [maprequest] *)

Section Mapping.

Variable cfg : Config.
Variable borderpx : Z.

Lemma deref_attach (c q : ptr) (s : WM) : deref (attach c s) q = deref s q.
Proof. reflexivity. Qed.

Lemma store_attach (c q : ptr) (v : Client) (s : WM) :
  store (attach c s) q v = attach c (store s q v).
Proof. reflexivity. Qed.

Lemma tagset_attach (c : ptr) (s : WM) : tagset (attach c s) = tagset s.
Proof. reflexivity. Qed.

Lemma manage_eq (w : Window) (a : XWindowAttributes) (c : ptr) (s : WM) :
  manage w a c s
  = attach c (store s c
      (Client.set_fgeom
         (Client.set_tags (Client.set_isfloating (set_win Client.zero w) true) (tagset s))
         (wa_x a) (wa_y a) (wa_width a) (wa_height a))).
Proof.
  unfold manage. cbv zeta.
  rewrite !store_attach, !deref_attach, !tagset_attach, !tagset_store.
  by rewrite !deref_store, !store_store.
Qed.

Lemma inherit_eq (trans : option Window) (c : ptr) (V : Client) (s : WM) :
  ∃ V', inherit trans c (attach c (store s c V)) = attach c (store s c V')
        ∧ ungeom (Client.set_tags V' 0) = ungeom (Client.set_tags V 0)
        ∧ remembered V' = remembered V
        ∧ geometry V' = geometry V
        ∧ (trans = None → V' = V).
Proof.
  unfold inherit. destruct trans as [tw|]; [|by exists V].
  destruct (wintoclient tw _) as [p|]; [|by exists V].
  eexists. rewrite store_attach, deref_attach, deref_store, store_store.
  split; [reflexivity|]. done.
Qed.

Lemma place_eq (mouse : option (Z * Z)) (c : ptr) (V : Client) (s : WM) :
  ∃ V', place cfg borderpx mouse c (attach c (store s c V)) = attach c (store s c V')
        ∧ Client.win V' = Client.win V ∧ Client.tags V' = Client.tags V
        ∧ Client.isfloating V' = Client.isfloating V
        ∧ Client.isfullscreen V' = Client.isfullscreen V
        ∧ Client.fw V' = Client.fw V ∧ Client.fh V' = Client.fh V
        ∧ Client.bw V' = borderpx.
Proof.
  unfold place. cbv zeta. rewrite deref_attach, deref_store.
  eexists. rewrite store_attach, store_store. split; [reflexivity|].
  repeat match goal with |- context [if ?b then _ else _] => destruct b end; done.
Qed.

Lemma updatesizehints_eq (c : ptr) (hints : option XSizeHints) (V : Client) (s : WM) :
  ∃ V', updatesizehints c hints (attach c (store s c V)) = attach c (store s c V')
        ∧ Client.win V' = Client.win V ∧ Client.tags V' = Client.tags V
        ∧ Client.isfloating V' = Client.isfloating V
        ∧ Client.isfullscreen V' = Client.isfullscreen V
        ∧ Client.fw V' = Client.fw V ∧ Client.fh V' = Client.fh V
        ∧ Client.bw V' = Client.bw V.
Proof.
  unfold updatesizehints. cbv zeta. rewrite deref_attach, deref_store.
  destruct hints as [size|]; eexists; rewrite store_attach, store_store;
    (split; [reflexivity|]); [|done].
  destruct (PBaseSize size), (PMaxSize size), (PMinSize size), (PAspect size); done.
Qed.

(** The struct of the new client when [resize] is reached. *)
Lemma maprequest_struct (w : Window) (a : XWindowAttributes) (c : ptr)
    (trans : option Window) (mouse : option (Z * Z)) (hints : option XSizeHints)
    (s : WM) :
  ∃ V,
    updatesizehints c hints (place cfg borderpx mouse c (inherit trans c (manage w a c s)))
    = attach c (store s c V)
    ∧ Client.win V = w
    ∧ Client.isfloating V = true
    ∧ Client.isfullscreen V = false
    ∧ Client.bw V = borderpx
    ∧ Client.fw V = wa_width a ∧ Client.fh V = wa_height a
    ∧ (trans = None → Client.tags V = tagset s).
Proof.
  rewrite manage_eq. set (V0 := Client.set_fgeom _ _ _ _ _).
  destruct (inherit_eq trans c V0 s) as (V1 & -> & Hun1 & Hrem1 & _ & Htr).
  destruct (place_eq mouse c V1 s) as (V2 & -> & Hw2 & Ht2 & Hfl2 & Hfs2 & Hfw2 & Hfh2 & Hbw2).
  destruct (updatesizehints_eq c hints V2 s)
    as (V3 & -> & Hw3 & Ht3 & Hfl3 & Hfs3 & Hfw3 & Hfh3 & Hbw3).
  exists V3. split; [done|].
  assert (Client.win V1 = w ∧ Client.isfloating V1 = true ∧ Client.isfullscreen V1 = false)
    as (Hw1 & Hfl1 & Hfs1).
  { destruct V1. unfold ungeom in Hun1. cbn in Hun1. simplify_eq. done. }
  unfold remembered in Hrem1. injection Hrem1 as _ _ Hfw1 Hfh1.
  split; [congruence|]. split; [congruence|]. split; [congruence|].
  split; [congruence|]. split; [by rewrite Hfw3, Hfw2, Hfw1|].
  split; [by rewrite Hfh3, Hfh2, Hfh1|].
  intros Htrans. rewrite Ht3, Ht2, (Htr Htrans). done.
Qed.

Lemma linked_attach (c : ptr) (V : Client) (s : WM) :
  linked s → c ∉ clients s → linked (attach c (store s c V)).
Proof.
  intros (Hnd & Hal & Hsel & Hpin & Hrai) Hc.
  split; [by constructor|]. split.
  - intros q Hq. cbn. apply lookup_insert_is_Some'.
    apply elem_of_cons in Hq as [->|Hq]; [by left|right; by apply Hal].
  - split; [|split]; intros q Hq; right; auto.
Qed.

Lemma tagset_restack (o : option ptr) (mode : StackAction) (s : WM) :
  tagset (restack o mode s) = tagset s.
Proof.
  unfold restack. destruct mode; cbv zeta; rewrite ?tagset_stackwindows; try done.
  - by destruct o.
  - by destruct o.
  - case_bool_decide; [done|]. unfold focus. by rewrite !tagset_stackwindows.
  - case_bool_decide; [done|]. unfold focus. by rewrite !tagset_stackwindows.
Qed.

Lemma tagset_focus (o : option ptr) (s : WM) : tagset (focus o s) = tagset s.
Proof. unfold focus. by rewrite tagset_stackwindows. Qed.

Lemma tagset_resize (c : ptr) (x y w h : Z) (s : WM) :
  tagset (resize cfg c x y w h s) = tagset s.
Proof. by destruct (shell_fields _ _ (shell_resize cfg c x y w h s)) as (_&_&_&_&_&_&->&_). Qed.

Lemma tags_resize (c q : ptr) (x y w h : Z) (s : WM) :
  Client.tags (deref (resize cfg c x y w h s) q) = Client.tags (deref s q).
Proof. apply tags_eq_ungeom, ungeom_resize. Qed.

Lemma tagset_setfullscreen (c : ptr) (f : bool) (s : WM) :
  tagset (setfullscreen cfg c f s) = tagset s.
Proof.
  unfold setfullscreen. destruct (f && _); [|destruct (negb f && _)]; cbv zeta;
    rewrite tagset_arrange, ?tagset_restack, ?tagset_resize; done.
Qed.

Lemma tags_setfullscreen (c q : ptr) (f : bool) (s : WM) :
  Client.tags (deref (setfullscreen cfg c f s) q) = Client.tags (deref s q).
Proof.
  unfold setfullscreen. destruct (f && _); [|destruct (negb f && _)]; cbv zeta;
    rewrite tags_arrange, ?deref_restack, ?tags_resize; try done.
  - destruct (decide (c = q)) as [->|Hne];
      [by rewrite deref_store|by rewrite deref_store_ne].
  - destruct (decide (c = q)) as [->|Hne];
      [by rewrite deref_store|by rewrite deref_store_ne].
Qed.

Lemma ISVISIBLE_set_barfocus (s : WM) (b : bool) (c : ptr) :
  ISVISIBLE (set_barfocus s b) c = ISVISIBLE s c.
Proof. reflexivity. Qed.

Lemma sel_set_barfocus (s : WM) (b : bool) : sel (set_barfocus s b) = sel s.
Proof. reflexivity. Qed.

(** Showing or hiding the bar keeps a visible selection. *)
Lemma sel_restack_bar (show : bool) (s : WM) (c : ptr) :
  sel s = Some c → ISVISIBLE s c = true →
  sel (restack None (if show then BarShow else BarHide) s) = Some c.
Proof.
  intros Hsel Hvis. unfold restack.
  destruct show; cbv zeta; (case_bool_decide; [done|]);
    rewrite sel_stackwindows, sel_focus, sel_set_barfocus, Hsel,
      ISVISIBLE_set_barfocus, Hvis; done.
Qed.

(** What [maprequest] does with a window that is not managed. *)
Lemma maprequest_spec (w : Window)
    (a : XWindowAttributes) (c : ptr) (trans : option Window) (mouse : option (Z * Z))
    (hints : option XSizeHints) (fullscreen : bool) (t : Session) :
  linked (wm t) →
  distinctwindows (wm t) →
  wa_override_redirect a = false →
  wintoclient w (wm t) = None →
  c ∉ clients (wm t) →
  let t' := maprequest cfg borderpx w (Some a) c trans mouse hints fullscreen t in
  linked (wm t')
  ∧ distinctwindows (wm t')
  ∧ clients (wm t') ≡ₚ c :: clients (wm t)
  ∧ wintoclient w (wm t') = Some c
  ∧ (∀ w' q, w' ≠ w → wintoclient w' (wm t') = Some q ↔ wintoclient w' (wm t) = Some q)
  ∧ barcmds t' = 0
  ∧ (ISVISIBLE (wm t') c = true → sel (wm t') = Some c)
  ∧ (trans = None → tagset (wm t) ≠ 0 → sel (wm t') = Some c)
  ∧ ∀ q, q ≠ c → heap (wm t) !! q = None → heap (wm t') !! q = None.
Proof.
  intros H Hd Hov Hnone Hc. intros t'.
  assert (∃ s9 V, wm t' = restack None BarHide
                     (focus (Some c) (restack (Some c) CliRaise
                        (if fullscreen then setfullscreen cfg c true
                           (resize cfg c (Client.fx V) (Client.fy V) (Client.fw V)
                              (Client.fh V) s9)
                         else resize cfg c (Client.fx V) (Client.fy V) (Client.fw V)
                                (Client.fh V) s9)))
                 ∧ barcmds t' = 0
                 ∧ s9 = attach c (store (wm t) c V)
                 ∧ Client.win V = w
                 ∧ (trans = None → Client.tags V = tagset (wm t)))
    as (s9 & V & Hwm & Hbar & Hs9 & Hw & Htags).
  { unfold t', maprequest. rewrite Hov, Hnone.
    rewrite bool_decide_eq_false_2 by (by intros [? ?]).
    cbn [orb]. cbv zeta.
    destruct (maprequest_struct w a c trans mouse hints (wm t))
      as (V & -> & HwV & _ & _ & _ & _ & _ & Htr).
    exists (attach c (store (wm t) c V)), V.
    rewrite !deref_attach, !deref_store.
    split; [|done]. unfold launcher. cbn [wm set_wm set_barcmds barcmds].
    by destruct fullscreen. }
  clearbody t'.
  assert (linked s9) as H9 by (rewrite Hs9; by apply linked_attach).
  assert (clients s9 = c :: clients (wm t)) as Hc9 by (by rewrite Hs9).
  assert (deref s9 c = V) as Hd9 by (rewrite Hs9, deref_attach; apply deref_store).
  assert (∀ q, q ≠ c → deref s9 q = deref (wm t) q) as Hq9.
  { intros q Hq. rewrite Hs9, deref_attach. by apply deref_store_ne. }
  assert (tagset s9 = tagset (wm t)) as Ht9 by (by rewrite Hs9).
  assert (∀ q, q ≠ c → heap (wm t) !! q = None → heap s9 !! q = None) as Hn9.
  { intros q Hq Hnone'. rewrite Hs9. cbn. by rewrite lookup_insert_ne. }
  assert (c ∈ clients s9) as Hin9 by (rewrite Hc9; left).
  clear Hs9.
  set (s10 := resize cfg c (Client.fx V) (Client.fy V) (Client.fw V) (Client.fh V) s9) in *.
  assert (kept s9 s10) as K10 by (by apply kept_resize).
  assert (tagset s10 = tagset s9 ∧ Client.tags (deref s10 c) = Client.tags (deref s9 c))
    as [T10 G10] by (split; [apply tagset_resize|apply tags_resize]).
  clearbody s10.
  set (s11 := if fullscreen then setfullscreen cfg c true s10 else s10) in *.
  assert (kept s10 s11 ∧ tagset s11 = tagset s10
          ∧ Client.tags (deref s11 c) = Client.tags (deref s10 c)) as (K11 & T11 & G11).
  { unfold s11. destruct fullscreen; [|by split; [apply kept_refl, K10|]].
    split; [|split; [apply tagset_setfullscreen|apply tags_setfullscreen]].
    apply kept_setfullscreen; [apply K10|].
    destruct K10 as (_ & -> & _). rewrite Hc9. left. }
  clearbody s11. pose proof (kept_trans _ _ _ K10 K11) as K11'.
  set (s12 := restack (Some c) CliRaise s11) in *.
  assert (kept s11 s12 ∧ tagset s12 = tagset s11 ∧ ∀ q, deref s12 q = deref s11 q)
    as (K12 & T12 & D12).
  { split; [|split; [apply tagset_restack|intros; apply deref_restack]].
    apply kept_restack; [apply K11| |done]. intros q [= <-].
    destruct K11' as (_ & -> & _). rewrite Hc9. left. }
  clearbody s12. pose proof (kept_trans _ _ _ K11' K12) as K12'.
  set (s13 := focus (Some c) s12) in *.
  assert (kept s12 s13 ∧ tagset s13 = tagset s12 ∧ (∀ q, deref s13 q = deref s12 q)
          ∧ (ISVISIBLE s12 c = true → sel s13 = Some c)) as (K13 & T13 & D13 & S13).
  { split; [|split; [apply tagset_focus|split; [intros; apply deref_focus|]]].
    - apply kept_focus; [apply K12|]. intros q [= <-].
      destruct K12' as (_ & -> & _). rewrite Hc9. left.
    - intros Hvis. unfold s13. rewrite sel_focus. by rewrite Hvis. }
  clearbody s13. pose proof (kept_trans _ _ _ K12' K13) as K13'.
  assert (kept s13 (wm t') ∧ tagset (wm t') = tagset s13
          ∧ (∀ q, deref (wm t') q = deref s13 q)
          ∧ (ISVISIBLE s13 c = true → sel s13 = Some c → sel (wm t') = Some c))
    as (K14 & T14 & D14 & S14).
  { rewrite Hwm.
    split; [|split; [apply tagset_restack|split; [intros; apply deref_restack|]]].
    - apply kept_restack; [apply K13|done|done].
    - intros Hvis Hsel. by apply (sel_restack_bar false). }
  pose proof (kept_trans _ _ _ K13' K14) as (HL & HP & HW & HN).
  generalize dependent (wm t'). intros s' _ K14 T14 D14 S14 HL HP HW HN.
  assert (ISVISIBLE s' c = ISVISIBLE s12 c) as Hvis12.
  { apply ISVISIBLE_ext; [by rewrite D14, D13|by rewrite T14, T13]. }
  assert (ISVISIBLE s13 c = ISVISIBLE s12 c) as Hvis13.
  { apply ISVISIBLE_ext; [by rewrite D13|done]. }
  assert (windows s' (clients s') ≡ₚ w :: windows (wm t) (clients (wm t))) as Hws.
  { rewrite (windows_perm s' _ _ HP), Hc9.
    change (windows s' (c :: clients (wm t)))
      with (Client.win (deref s' c) :: windows s' (clients (wm t))).
    rewrite HW, Hd9, Hw. f_equiv. rewrite (windows_ext (wm t) s'); [done|].
    intros q Hq. rewrite HW. rewrite Hq9; [done|]. congruence. }
  assert (distinctwindows s') as Hd'.
  { unfold distinctwindows. rewrite Hws. constructor; [|done].
    by apply wintoclient_None. }
  assert (c ∈ clients s') as Hc' by (rewrite HP, Hc9; left).
  split; [done|]. split; [done|]. split; [by rewrite HP, Hc9|].
  split. { apply wintoclient_distinct; [done|]. split; [done|]. by rewrite HW, Hd9. }
  split.
  { intros w' q Hw'.
    rewrite (wintoclient_distinct w' s' q Hd'), (wintoclient_distinct w' (wm t) q Hd).
    rewrite HP, Hc9. split.
    - intros [Hq Hqw]. apply elem_of_cons in Hq as [->|Hq].
      + rewrite HW, Hd9, Hw in Hqw. congruence.
      + split; [done|]. rewrite <- Hqw, HW. symmetry. apply f_equal, Hq9. congruence.
    - intros [Hq Hqw]. split; [by right|]. rewrite HW, Hq9; [done|]. congruence. }
  split; [done|].
  assert (ISVISIBLE s' c = true → sel s' = Some c) as Hselect.
  { intros Hvis. apply S14; [congruence|]. apply S13. congruence. }
  split; [done|]. split; [|intros q Hq Hnone'; by apply HN, Hn9].
  intros Htr Hnz. apply Hselect, ISVISIBLE_true.
  rewrite D14, D13, D12, G11, G10, Hd9, (Htags Htr), T14, T13, T12, T11, T10, Ht9.
  by rewrite Z.land_diag.
Qed.

End Mapping.

(** X19. [maprequest] of a window that is not managed (and not
    override-redirect) makes a client of it: the struct at the address
    [c] that [calloc] returned, with this window, joins the clients
    there were; [wintoclient] finds it for the window and finds the
    clients of the other windows as before; the list stays without
    repetition and the references within it; the launcher is closed; and
    the new client is selected when it is visible, which it is when the
    window is not transient (it takes the workspaces shown) and some
    workspace is shown. *)
Theorem maprequest_manages (cfg : Config) (borderpx : Z) (w : Window)
    (a : XWindowAttributes) (c : ptr) (trans : option Window) (mouse : option (Z * Z))
    (hints : option XSizeHints) (fullscreen : bool) (t : Session) :
  linked (wm t) →
  distinctwindows (wm t) →
  wa_override_redirect a = false →
  wintoclient w (wm t) = None →
  c ∉ clients (wm t) →
  let t' := maprequest cfg borderpx w (Some a) c trans mouse hints fullscreen t in
  linked (wm t')
  ∧ distinctwindows (wm t')
  ∧ clients (wm t') ≡ₚ c :: clients (wm t)
  ∧ wintoclient w (wm t') = Some c
  ∧ (∀ w' q, w' ≠ w → wintoclient w' (wm t') = Some q ↔ wintoclient w' (wm t) = Some q)
  ∧ barcmds t' = 0
  ∧ (ISVISIBLE (wm t') c = true → sel (wm t') = Some c)
  ∧ (trans = None → tagset (wm t) ≠ 0 → sel (wm t') = Some c).
Proof.
  intros H Hd Hov Hnone Hc.
  destruct (maprequest_spec cfg borderpx w a c trans mouse hints fullscreen t H Hd Hov Hnone Hc)
    as (H1 & H2 & H3 & H4 & H5 & H6 & H7 & H8 & _).
  done.
Qed.

Lemma maprequest_manages_witness :
  wintoclient 104 (wm Scenes.mapped) = Some Scenes.D
  ∧ sel (wm Scenes.mapped) = Some Scenes.D
  ∧ wintoclient 101 (wm Scenes.mapped) = Some Scenario.A.
Proof.
  destruct (maprequest_manages Scenario.cfg 1 104 Scenes.attrs Scenes.D None
              (Some (10, 10)) None false Scenes.session)
    as (_ & _ & _ & Hnew & Hold & _ & _ & Hsel).
  - apply (bool_decide_unpack _). vm_compute. exact I.
  - apply (bool_decide_unpack _). vm_compute. exact I.
  - reflexivity.
  - vm_compute. reflexivity.
  - apply (bool_decide_unpack _). vm_compute. exact I.
  - split; [exact Hnew|]. split.
    + apply Hsel; [reflexivity|vm_compute; discriminate].
    + apply Hold; [discriminate|]. vm_compute. reflexivity.
Defined.

(** ** The loop that ends [main] *)

Section Exit.

Variable cfg : Config.

Lemma unmanage_noalloc (c q : ptr) (s : WM) :
  linked s → c ∈ clients s → heap s !! q = None →
  heap (unmanage cfg c s) !! q = None.
Proof.
  intros H Hc Hq. pose proof H as (_ & Hal & _).
  assert (q ∉ clients s) as Hnotin.
  { intros Hin. apply Hal in Hin. rewrite Hq in Hin. by destruct Hin. }
  unfold unmanage. cbv zeta.
  destruct (removed_unlinks c s H) as (H1 & Hp1 & _).
  pose proof (heap_restack (Some c) CliRemove s) as Hh1.
  generalize dependent (restack (Some c) CliRemove s). intros s1 H1 Hp1 Hh1.
  cbn [heap set_heap]. destruct (decide (c = q)) as [->|Hne].
  - by rewrite lookup_delete_eq.
  - rewrite lookup_delete_ne by done. rewrite lookup_arrange_notin; [congruence|done|].
    rewrite Hp1. intros Hin%elem_of_unlink. done.
Qed.

Lemma unmanageall_spec (n : nat) (s : WM) :
  linked s →
  (length (clients s) ≤ n)%nat →
  clients (unmanageall cfg n s) = []
  ∧ linked (unmanageall cfg n s)
  ∧ ∀ q, q ∈ clients s ∨ heap s !! q = None → heap (unmanageall cfg n s) !! q = None.
Proof.
  revert s. induction n as [|n IH]; intros s H Hlen.
  - cbn. destruct (clients s) as [|c l] eqn:E; [|cbn in Hlen; lia].
    split; [done|]. split; [done|]. intros q [Hq|Hq]; [|done]. by apply elem_of_nil in Hq.
  - cbn [unmanageall]. destruct (clients s) as [|c l] eqn:E.
    { split; [done|]. split; [done|]. intros q [Hq|Hq]; [|done]. by apply elem_of_nil in Hq. }
    assert (c ∈ clients s) as Hc by (rewrite E; left).
    destruct (unmanage_spec cfg c s H Hc) as (H1 & Hfree & Hp & Hnotin & _).
    rewrite E, unlink_head in Hp.
    pose proof (λ q, unmanage_noalloc c q s H Hc) as Hno.
    generalize dependent (unmanage cfg c s). intros s1 H1 Hfree Hp Hnotin Hno.
    destruct (IH s1 H1) as (Hnil & Hl & Hall).
    { rewrite Hp. cbn in Hlen. lia. }
    split; [done|]. split; [done|].
    intros q [Hq|Hq].
    + apply elem_of_cons in Hq as [->|Hq]; apply Hall; [by right|left; by rewrite Hp].
    + apply Hall. right. by apply Hno.
Qed.

End Exit.

(** X20. The loop that ends [main] unmanages the head of the list until
    the list is empty: after as many rounds as there are clients, no
    client is listed, selected, pinned or raised, and the struct of
    every client there was is freed. *)
Theorem unmanageall_empties (cfg : Config) (n : nat) (s : WM) :
  linked s →
  (length (clients s) ≤ n)%nat →
  let s' := unmanageall cfg n s in
  clients s' = []
  ∧ sel s' = None ∧ pinned s' = None ∧ raised s' = None
  ∧ ∀ q, q ∈ clients s → heap s' !! q = None.
Proof.
  intros H Hlen. cbv zeta.
  destruct (unmanageall_spec cfg n s H Hlen) as (Hnil & (_ & _ & Hs & Hp & Hr) & Hall).
  rewrite Hnil in Hs, Hp, Hr.
  split; [done|].
  split. { destruct (sel _) as [c|]; [|done]. by destruct (proj1 (elem_of_nil c) (Hs c eq_refl)). }
  split. { destruct (pinned _) as [c|]; [|done]. by destruct (proj1 (elem_of_nil c) (Hp c eq_refl)). }
  split. { destruct (raised _) as [c|]; [|done]. by destruct (proj1 (elem_of_nil c) (Hr c eq_refl)). }
  intros q Hq. apply Hall. by left.
Qed.

Lemma unmanageall_empties_witness :
  clients (unmanageall Scenario.cfg 3 Scenario.tiled3) = []
  ∧ heap (unmanageall Scenario.cfg 3 Scenario.tiled3) !! Scenario.A = None.
Proof.
  destruct (unmanageall_empties Scenario.cfg 3 Scenario.tiled3) as (Hnil & _ & _ & _ & Hall).
  - apply (bool_decide_unpack _). vm_compute. exact I.
  - vm_compute. lia.
  - split; [exact Hnil|]. apply Hall. apply (bool_decide_unpack _). vm_compute. exact I.
Defined.

(** ** Dragging with the pointer: [motion] *)

Section Drag.

Variable cfg : Config.

Lemma sel_resize (c : ptr) (x y w h : Z) (s : WM) :
  sel (resize cfg c x y w h s) = sel s.
Proof. by destruct (shell_fields _ _ (shell_resize cfg c x y w h s)) as (_&_&_&->&_). Qed.

Lemma ctrlmode_resize (c : ptr) (x y w h : Z) (s : WM) :
  ctrlmode (resize cfg c x y w h s) = ctrlmode s.
Proof. by destruct (shell_fields _ _ (shell_resize cfg c x y w h s)) as (_&_&_&_&_&->&_). Qed.

(** In a move, only the first of the three statements of [motion] that
    resize applies. *)
Lemma drag_move (x y : Z) (s : WM) (c : ptr) :
  ctrlmode s = DragMove → sel s = Some c →
  drag cfg x y s
  = resize cfg c (Client.fx (deref s c) + x) (Client.fy (deref s c) + y)
      (Client.fw (deref s c)) (Client.fh (deref s c)) s.
Proof.
  intros Hmode Hsel. unfold drag. cbv zeta. rewrite Hsel, Hmode.
  rewrite (bool_decide_eq_true_2 (DragMove = DragMove)) by done.
  rewrite !sel_resize, !ctrlmode_resize, Hsel, Hmode.
  rewrite (bool_decide_eq_false_2 (DragMove = DragSize)) by done.
  rewrite !sel_resize, !ctrlmode_resize, Hsel, Hmode.
  by rewrite (bool_decide_eq_false_2 (DragMove = DragTile)) by done.
Qed.

Lemma remembered_resized_floating (cl : Client) (x y w h : Z) :
  Client.isfloating cl = true → Client.isfullscreen cl = false →
  remembered (resized cfg cl x y w h) = fit cfg cl x y w h.
Proof.
  intros Hfl Hfs. unfold resized. cbv zeta. rewrite Hfl, Hfs. cbn [andb negb].
  by destruct (fit cfg cl x y w h).
Qed.

End Drag.

(** X21. In a move ([ctrlmode] is [DragMove], the selected client floats
    and is not fullscreen), [motion] resizes the selected client to its
    remembered position moved by what the pointer moved since the last
    event, and does nothing else: no focus change, no restacking, the
    drag goes on. While the position stays within the screen, the
    remembered position follows the pointer exactly (its offset to the
    pointer stays the same), whatever the snapping does to the window
    itself. *)
Theorem motion_drags (cfg : Config) (p : Pointer) (barkey : bool) (t : Session) (c : ptr) :
  ctrlmode (wm t) = DragMove →
  sel (wm t) = Some c →
  Client.isfloating (deref (wm t) c) = true →
  Client.isfullscreen (deref (wm t) c) = false →
  let cl := deref (wm t) c in
  let t' := motion cfg (Some p) barkey t in
  wm t' = resize cfg c (Client.fx cl + (p_rx p - lx t)) (Client.fy cl + (p_ry p - ly t))
            (Client.fw cl) (Client.fh cl) (wm t)
  ∧ lx t' = p_rx p ∧ ly t' = p_ry p
  ∧ lastcw t' = lastcw t ∧ barcmds t' = barcmds t
  ∧ ctrlmode (wm t') = DragMove ∧ sel (wm t') = Some c
  ∧ (1 ≤ Client.fw cl → 1 ≤ Client.fh cl →
     1 - Client.fw cl - 2 * Client.bw cl ≤ Client.fx cl + (p_rx p - lx t) ≤ sw cfg - 1 →
     1 - Client.fh cl - 2 * Client.bw cl ≤ Client.fy cl + (p_ry p - ly t) ≤ sh cfg - 1 →
     Client.fx (deref (wm t') c) - lx t' = Client.fx cl - lx t
     ∧ Client.fy (deref (wm t') c) - ly t' = Client.fy cl - ly t
     ∧ Client.fw (deref (wm t') c) = Client.fw cl
     ∧ Client.fh (deref (wm t') c) = Client.fh cl).
Proof.
  intros Hmode Hsel Hfl Hfs. cbv zeta.
  assert (motion cfg (Some p) barkey t
          = set_wm (set_last t (p_rx p) (p_ry p))
              (resize cfg c (Client.fx (deref (wm t) c) + (p_rx p - lx t))
                 (Client.fy (deref (wm t) c) + (p_ry p - ly t))
                 (Client.fw (deref (wm t) c)) (Client.fh (deref (wm t) c)) (wm t))) as ->.
  { unfold motion. cbv zeta. cbn [wm set_last lx ly].
    rewrite (drag_move cfg _ _ (wm t) c Hmode Hsel).
    rewrite !ctrlmode_resize, Hmode.
    rewrite (bool_decide_eq_false_2 (DragMove = WinEdge)) by done. cbn [andb].
    rewrite !ctrlmode_resize, Hmode.
    by rewrite (bool_decide_eq_true_2 (DragMove ≠ CtrlNone)) by done. }
  cbn [wm set_wm set_last lx ly lastcw barcmds].
  split; [done|]. split; [done|]. split; [done|]. split; [done|]. split; [done|].
  split; [by rewrite ctrlmode_resize|]. split; [by rewrite sel_resize|].
  intros Hw Hh Hx Hy. rewrite deref_resize.
  pose proof (remembered_resized_floating cfg (deref (wm t) c)
    (Client.fx (deref (wm t) c) + (p_rx p - lx t))
    (Client.fy (deref (wm t) c) + (p_ry p - ly t))
    (Client.fw (deref (wm t) c)) (Client.fh (deref (wm t) c)) Hfl Hfs) as Hrem.
  set (cl' := resized cfg _ _ _ _ _) in *. clearbody cl'.
  pose proof (f_equal rx Hrem) as Hfx. pose proof (f_equal ry Hrem) as Hfy.
  pose proof (f_equal rw Hrem) as Hfw. pose proof (f_equal rh Hrem) as Hfh.
  unfold remembered, fit in Hfx, Hfy, Hfw, Hfh. cbn [rx ry rw rh] in Hfx, Hfy, Hfw, Hfh.
  rewrite Hfx, Hfy, Hfw, Hfh. lia.
Qed.

Lemma motion_drags_witness :
  let t := set_wm Scenes.session
             (grabresize DragMove (arrange Scenario.cfg Scenario.floating1)) in
  let t' := motion Scenario.cfg
              (Some {| p_cw := 101; p_rx := 30; p_ry := 40; p_mask := 0 |}) false t in
  ctrlmode (wm t) = DragMove
  ∧ remembered (deref (wm t') Scenario.A)
    = {| rx := 130; ry := 140; rw := 300; rh := 200 |}.
Proof.
  cbv zeta. split; [vm_compute; reflexivity|].
  destruct (motion_drags Scenario.cfg
              {| p_cw := 101; p_rx := 30; p_ry := 40; p_mask := 0 |} false
              (set_wm Scenes.session
                 (grabresize DragMove (arrange Scenario.cfg Scenario.floating1)))
              Scenario.A) as (H & _).
  - vm_compute. reflexivity.
  - vm_compute. reflexivity.
  - vm_compute. reflexivity.
  - vm_compute. reflexivity.
  - rewrite H. vm_compute. reflexivity.
Defined.

(** ** Cycling and the release of the key: [grabstack], [exthandler] *)

Section Release.

Variable cfg : Config.

Lemma ctrlmode_stackwindows (s : WM) : ctrlmode (stackwindows s) = ctrlmode s.
Proof. pose proof (settings_stackwindows s) as H. unfold settings in H. congruence. Qed.

Lemma ctrlmode_focus (o : option ptr) (s : WM) : ctrlmode (focus o s) = ctrlmode s.
Proof. unfold focus. by rewrite ctrlmode_stackwindows. Qed.

Lemma ctrlmode_raise (o : option ptr) (s : WM) :
  ctrlmode (restack o CliRaise s) = ctrlmode s.
Proof. unfold restack. by rewrite ctrlmode_stackwindows. Qed.

Lemma ctrlmode_focusstack (arg : Z) (s : WM) :
  ctrlmode (focusstack arg s) = ctrlmode s.
Proof.
  unfold focusstack. destruct (sel s) as [p|]; [|done]. cbv zeta.
  match goal with |- ctrlmode (match ?o with _ => _ end) = _ => destruct o end; [|done].
  by rewrite ctrlmode_raise, ctrlmode_focus.
Qed.

Lemma grabresizeabort_zoomstack (s : WM) :
  ctrlmode s = ZoomStack → grabresizeabort cfg s = s.
Proof.
  intros H. unfold grabresizeabort. rewrite H.
  by rewrite (bool_decide_eq_true_2 (ZoomStack = ZoomStack)), orb_true_r.
Qed.

End Release.

(** X22. [grabstack] moves the selection as [focusstack] does and leaves
    the mode [ZoomStack], which the release of a button or of another
    key does not end. The release of the key [stackrelease] ends it: the
    selected client is put at the head of the list (below only a
    floating pinned client), and it stays selected, if visible. *)
Theorem stackrelease_zooms (cfg : Config) (arg : Z) (s : WM) :
  let s1 := grabstack arg s in
  ctrlmode s1 = ZoomStack
  ∧ sel s1 = sel (focusstack arg s)
  ∧ grabresizeabort cfg s1 = s1
  ∧ rawkeyrelease cfg false s1 = s1
  ∧ ctrlmode (rawkeyrelease cfg true s1) = CtrlNone
  ∧ ∀ c, sel s1 = Some c →
         clients (rawkeyrelease cfg true s1)
         = lifted (set_clients s1 (c :: unlink c (clients s1)))
         ∧ (ISVISIBLE s1 c = true → sel (rawkeyrelease cfg true s1) = Some c).
Proof.
  cbv zeta.
  assert (ctrlmode (grabstack arg s) = ZoomStack) as Hmode.
  { unfold grabstack. by rewrite ctrlmode_focusstack. }
  assert (sel (grabstack arg s) = sel (focusstack arg s)) as Hsel.
  { unfold grabstack, focusstack. cbn [sel set_ctrlmode].
    destruct (sel s) as [p|]; [|done]. cbv zeta.
    assert (∀ q, ISVISIBLE (set_ctrlmode s ZoomStack) q = ISVISIBLE s q) as Hv by done.
    assert (cycled arg (set_ctrlmode s ZoomStack) p = cycled arg s p) as Hc
      by (by apply cycled_ext).
    unfold cycled in Hc. rewrite Hc.
    match goal with |- sel (match ?o with _ => _ end) = _ => destruct o as [c|] end; [|done].
    rewrite !sel_raise, !sel_focus. reflexivity. }
  generalize dependent (grabstack arg s). intros s1 Hmode Hsel.
  pose proof (grabresizeabort_zoomstack cfg s1 Hmode) as Habort.
  split; [done|]. split; [done|]. split; [done|].
  assert (∀ b, rawkeyrelease cfg b s1
               = if b then arrange cfg (restack (sel s1) CliZoom (set_ctrlmode s1 CtrlNone))
                 else s1) as Hkey.
  { intros b. unfold rawkeyrelease. cbv zeta. rewrite Habort, Hmode.
    rewrite (bool_decide_eq_true_2 (ZoomStack = ZoomStack)) by done.
    by destruct b. }
  rewrite !Hkey. split; [done|].
  set (s2 := restack (sel s1) CliZoom (set_ctrlmode s1 CtrlNone)).
  assert (ctrlmode s2 = CtrlNone) as Hm2.
  { unfold s2, restack. rewrite ctrlmode_stackwindows. by destruct (sel s1). }
  split; [by rewrite ctrlmode_arrange|].
  intros c Hc. unfold s2. rewrite Hc. clear s2 Hm2.
  set (s2 := restack (Some c) CliZoom (set_ctrlmode s1 CtrlNone)).
  assert (pinned s2 = pinned s1) as Hp2 by (unfold s2, restack; by rewrite pinned_stackwindows).
  assert (sel s2 = Some c) as Hsel2 by (unfold s2, restack; by rewrite sel_stackwindows).
  assert (∀ q, deref s2 q = deref s1 q) as Hd2 by (intros q; unfold s2; by rewrite deref_restack).
  assert (tagset s2 = tagset s1) as Ht2 by (unfold s2, restack; by rewrite tagset_stackwindows).
  assert (clients s2 = lifted (set_clients s1 (c :: unlink c (clients s1)))) as Hc2.
  { unfold s2, restack. rewrite clients_stackwindows. reflexivity. }
  clearbody s2. split.
  - rewrite clients_arrange. apply lifted_again; [done| |done].
    intros p _. by rewrite Hd2.
  - intros Hvis. apply sel_arrange_keep; [done|]. rewrite <- Hvis.
    apply ISVISIBLE_ext; [by rewrite Hd2|done].
Qed.

(** ** Fullscreen on one monitor *)

(** With one monitor, the two monitors that [setfullscreen] looks for
    are that one. *)
Lemma single_monitor (cfg : Config) (M : Monitor) (P P' : Monitor → bool) :
  mons cfg = [M] → 1 ≤ Monitor.mw M → 1 ≤ Monitor.mh M →
  mon cfg (scan_down cfg P (monslen cfg - 1)) = M
  ∧ mon cfg
      (if bool_decide (scan_all P' (mons cfg) 0 = monslen cfg)
          || (Monitor.mx (mon cfg (scan_all P' (mons cfg) 0))
              + Monitor.mw (mon cfg (scan_all P' (mons cfg) 0))
              <=? Monitor.mx (mon cfg (scan_down cfg P (monslen cfg - 1))))
          || (Monitor.my (mon cfg (scan_all P' (mons cfg) 0))
              + Monitor.mh (mon cfg (scan_all P' (mons cfg) 0))
              <=? Monitor.my (mon cfg (scan_down cfg P (monslen cfg - 1))))
       then scan_down cfg P (monslen cfg - 1)
       else scan_all P' (mons cfg) 0) = M.
Proof.
  intros Hmons Hw Hh. unfold monslen, mon. rewrite Hmons.
  cbn [length Nat.sub scan_down scan_all]. split; [done|].
  destruct (P' M); [|done].
  rewrite (bool_decide_eq_false_2 (0%nat = 1%nat)) by done.
  change ([M] !!! 0%nat) with M.
  destruct (Z.leb_spec (Monitor.mx M + Monitor.mw M) (Monitor.mx M)); [lia|].
  destruct (Z.leb_spec (Monitor.my M + Monitor.mh M) (Monitor.my M)); [lia|]. done.
Qed.

(** X23. With one monitor, entering fullscreen gives the client the
    rectangle of the monitor and no border, when its minimum size is not
    larger than the monitor (the monitor lying on the screen); the
    floating geometry that it remembers is kept. *)
Theorem setfullscreen_covers (cfg : Config) (c : ptr) (s : WM) (M : Monitor) :
  mons cfg = [M] →
  Client.isfullscreen (deref s c) = false →
  0 ≤ Monitor.mx M ≤ sw cfg - 1 →
  0 ≤ Monitor.my M ≤ sh cfg - 1 →
  1 ≤ Monitor.mw M → 1 ≤ Monitor.mh M →
  Client.minw (deref s c) ≤ Monitor.mw M →
  Client.minh (deref s c) ≤ Monitor.mh M →
  let cl' := deref (setfullscreen cfg c true s) c in
  geometry cl'
  = {| rx := Monitor.mx M; ry := Monitor.my M; rw := Monitor.mw M; rh := Monitor.mh M |}
  ∧ Client.bw cl' = 0
  ∧ Client.isfullscreen cl' = true
  ∧ remembered cl' = remembered (deref s c).
Proof.
  intros Hmons Hnf Hx Hy Hw Hh Hminw Hminh. cbv zeta.
  unfold setfullscreen. rewrite Hnf. cbn [andb negb]. cbv zeta.
  set (cl1 := Client.set_isfloating _ true).
  rewrite deref_arrange_floating.
  2:{ rewrite deref_restack. erewrite isfloating_ungeom by apply ungeom_resize.
      by rewrite deref_store. }
  rewrite deref_restack, deref_resize, !deref_store.
  match goal with |- context [scan_down cfg ?P _] =>
    match goal with |- context [scan_all ?P' _ _] =>
      destruct (single_monitor cfg M P P' Hmons Hw Hh) as [-> ->]
    end
  end.
  unfold resized. cbv zeta.
  assert (Client.isfloating cl1 && negb (Client.isfullscreen cl1) = false) as -> by done.
  set (r := hinted cl1 _).
  assert (r = {| rx := Monitor.mx M; ry := Monitor.my M;
                 rw := Monitor.mw M; rh := Monitor.mh M |}) as ->.
  { unfold r, hinted, fit. cbv zeta. cbn [rx ry rw rh].
    assert (Client.isfullscreen cl1 = true) as -> by done.
    assert (Client.bw cl1 = 0) as -> by done.
    assert (Client.minw cl1 = Client.minw (deref s c)) as -> by done.
    assert (Client.minh cl1 = Client.minh (deref s c)) as -> by done.
    cbn [negb]. rewrite !andb_false_r. cbn [andb].
    generalize (Client.basew cl1) (Client.baseh cl1). intros bw0 bh0.
    f_equal; lia. }
  done.
Qed.

Lemma setfullscreen_covers_witness :
  geometry (deref (setfullscreen Scenario.cfg Scenario.B true Scenario.tiled3) Scenario.B)
  = {| rx := 0; ry := 0; rw := 1920; rh := 1080 |}.
Proof.
  destruct (setfullscreen_covers Scenario.cfg Scenario.B Scenario.tiled3
              {| Monitor.mx := 0; Monitor.my := 0; Monitor.mw := 1920; Monitor.mh := 1080 |})
    as (H & _).
  - reflexivity.
  - vm_compute. reflexivity.
  - cbn. lia.
  - cbn. lia.
  - cbn. lia.
  - cbn. lia.
  - vm_compute. discriminate.
  - vm_compute. discriminate.
  - exact H.
Defined.

(** ** The monitor table: [updatemonitors] *)

(** The loop of [updatemonitors] from index [i] on: the entries of the
    table from [i] on are overwritten with the entries of [inf], as far
    as both reach, and the index returned is that of the last primary
    entry written, or the one given when none is primary. *)
Lemma setmons_spec (inf : list XRRMonitorInfo) (i : nat) (ms : list Monitor) (pri : nat) :
  (i ≤ length ms)%nat →
  ∃ pri',
    setmons inf i ms pri
    = (take i ms ++ (SETMON <$> take (length ms - i) inf) ++ drop (i + length inf) ms, pri')
    ∧ ((pri' = pri
        ∧ ∀ k R, (i + k < length ms)%nat → inf !! k = Some R → inf_primary R = false)
       ∨ ((i ≤ pri' < length ms)%nat
          ∧ (∃ R, inf !! (pri' - i)%nat = Some R ∧ inf_primary R = true)
          ∧ ∀ k R, (pri' < i + k < length ms)%nat → inf !! k = Some R →
                   inf_primary R = false)).
Proof.
  revert i ms pri. induction inf as [|R inf IH]; intros i ms pri Hi.
  - exists pri. cbn [setmons length]. rewrite take_nil, Nat.add_0_r. cbn [fmap list_fmap app].
    rewrite take_drop. split; [done|]. left. split; [done|]. intros k R ? Hk. done.
  - cbn [setmons]. case_bool_decide as Hlt.
    + destruct (IH (S i) (<[i := SETMON R]> ms) (if inf_primary R then i else pri))
        as (pri' & Heq & Hpri).
      { rewrite length_insert. lia. }
      exists pri'. rewrite Heq, length_insert in *. split.
      * f_equal. replace (length ms - i)%nat with (S (length ms - S i)) by lia.
        cbn [take fmap list_fmap length]. rewrite (take_S_r _ _ (SETMON R)).
        2:{ apply list_lookup_insert_eq. lia. }
        rewrite take_insert_ge by lia. rewrite <- app_assoc. cbn [app].
        rewrite drop_insert_lt by lia.
        replace (S i + length inf)%nat with (i + S (length inf))%nat by lia. done.
      * destruct Hpri as [[-> Hnone]|(Hr & (R' & HR' & Hp) & Hlast)].
        -- destruct (inf_primary R) eqn:E.
           ++ right. split; [lia|]. split; [exists R; by rewrite Nat.sub_diag|].
              intros k R0 Hk HR0. destruct k as [|k]; [lia|].
              apply (Hnone k); [lia|done].
           ++ left. split; [done|]. intros k R0 Hk HR0. destruct k as [|k].
              ** cbn in HR0. by injection HR0 as <-.
              ** apply (Hnone k); [lia|done].
        -- right. split; [lia|]. split.
           ++ exists R'. split; [|done].
              replace (pri' - i)%nat with (S (pri' - S i)) by lia. done.
           ++ intros k R0 Hk HR0. destruct k as [|k]; [lia|].
              apply (Hlast k); [lia|done].
    + exists pri. assert (i = length ms) as -> by lia.
      rewrite Nat.sub_diag, firstn_all. cbn [take fmap list_fmap app].
      rewrite drop_ge by lia.
      split; [by rewrite app_nil_r|]. left. split; [done|]. intros k R0 Hk. lia.
Qed.

(** X24. [updatemonitors] overwrites the first entries of the monitor
    table with the monitors that the server reports, as far as the
    table and the report both reach, and then exchanges the entry of
    the last monitor reported as primary (among those written) with the
    first entry: the primary monitor is monitor 0, and the table keeps
    its length. When none after the first is primary the table stays in
    the order reported. (The table has an entry: [mons[0]] is read and
    written in any case.) *)
Theorem updatemonitors_primary (inf : list XRRMonitorInfo) (ms : list Monitor) :
  (0 < length ms)%nat →
  let tbl := (SETMON <$> take (length ms) inf) ++ drop (length inf) ms in
  length (updatemonitors inf ms) = length ms
  ∧ ((updatemonitors inf ms = tbl
      ∧ ∀ k R, (0 < k < length ms)%nat → inf !! k = Some R → inf_primary R = false)
     ∨ ∃ pri R,
         (pri < length ms)%nat
         ∧ inf !! pri = Some R ∧ inf_primary R = true
         ∧ (∀ k R', (pri < k < length ms)%nat → inf !! k = Some R' →
                    inf_primary R' = false)
         ∧ updatemonitors inf ms = <[0%nat := tbl !!! pri]> (<[pri := tbl !!! 0%nat]> tbl)
         ∧ updatemonitors inf ms !! 0%nat = Some (SETMON R)).
Proof.
  intros Hms. cbv zeta. unfold updatemonitors.
  destruct (setmons_spec inf 0 ms 0) as (pri & -> & Hpri); [lia|].
  rewrite Nat.sub_0_r, take_0. cbn [app Nat.add].
  set (tbl := (SETMON <$> take (length ms) inf) ++ drop (length inf) ms).
  assert (length tbl = length ms) as Hlen.
  { unfold tbl. rewrite length_app, length_fmap, length_take, length_drop. lia. }
  split; [by rewrite !length_insert|].
  destruct Hpri as [[-> Hnone]|(Hr & (R & HR & Hp) & Hlast)].
  - left. split.
    + clearbody tbl. destruct tbl as [|m tbl]; [done|]. done.
    + intros k R Hk HR. apply (Hnone k); [lia|done].
  - right. rewrite Nat.sub_0_r in HR. exists pri, R.
    split; [lia|]. split; [done|]. split; [done|].
    split. { intros k R' Hk. apply (Hlast k). lia. }
    split; [done|].
    rewrite list_lookup_insert_eq by (rewrite length_insert; lia).
    f_equal. apply list_lookup_total_correct. unfold tbl.
    pose proof (lookup_lt_Some _ _ _ HR) as Hin.
    rewrite lookup_app_l by (rewrite length_fmap, length_take; lia).
    rewrite list_lookup_fmap, lookup_take_lt by lia. by rewrite HR.
Qed.

Lemma updatemonitors_primary_witness :
  let inf := [ {| inf_x := 1920; inf_y := 0; inf_width := 1280; inf_height := 1024;
                  inf_primary := false |};
               {| inf_x := 0; inf_y := 0; inf_width := 1920; inf_height := 1080;
                  inf_primary := true |} ] in
  let ms := replicate 3 {| Monitor.mx := 0; Monitor.my := 0;
                           Monitor.mw := 0; Monitor.mh := 0 |} in
  (0 < length ms)%nat ∧ length (updatemonitors inf ms) = length ms.
Proof.
  cbv zeta. split; [cbn; lia|].
  match goal with
  | |- length (updatemonitors ?inf ?ms) = _ =>
      destruct (updatemonitors_primary inf ms) as [H _]; [cbn; lia|exact H]
  end.
Defined.

(** ** The event handlers and the event loop *)

Section Events.

Variable cfg : Config.
Variable borderpx : Z.

Lemma kept_if_resize (b : bool) (c : ptr) (x y w h : Z) (s : WM) :
  linked s → c ∈ clients s → kept s (if b then resize cfg c x y w h s else s).
Proof. intros H Hc. destruct b; [by apply kept_resize|by apply kept_refl]. Qed.

Lemma kept_configurerequest (w : Window) (x y width height : Z) (s : WM) :
  linked s → kept s (configurerequest cfg w x y width height s).
Proof.
  intros H. unfold configurerequest.
  destruct (wintoclient w s) as [c|] eqn:E; [|by apply kept_refl].
  apply wintoclient_Some in E as [Hc _]. by apply kept_if_resize.
Qed.

Lemma kept_clientmessage (w : Window) (isstate : bool) (action : Z) (fullscreen : bool)
    (s : WM) :
  linked s → kept s (clientmessage cfg w isstate action fullscreen s).
Proof.
  intros H. unfold clientmessage.
  destruct (wintoclient w s) as [c|] eqn:E; [|by apply kept_refl].
  apply wintoclient_Some in E as [Hc _].
  destruct (isstate && fullscreen); [|by apply kept_refl].
  by apply kept_setfullscreen.
Qed.

Lemma kept_updatesizehints (c : ptr) (hints : option XSizeHints) (s : WM) :
  linked s → c ∈ clients s → kept s (updatesizehints c hints s).
Proof.
  intros H Hc. unfold updatesizehints. cbv zeta.
  destruct hints as [size|]; apply kept_store; try done.
  destruct (PBaseSize size), (PMaxSize size), (PMinSize size), (PAspect size); done.
Qed.

Lemma kept_propertynotify (w : Window) (deleted : bool) (atom : PropertyAtom) (s : WM) :
  linked s → kept s (propertynotify cfg w deleted atom s).
Proof.
  intros H. unfold propertynotify. destruct deleted; [by apply kept_refl|].
  destruct (wintoclient w s) as [c|] eqn:E; [|by apply kept_refl].
  apply wintoclient_Some in E as [Hc _].
  destruct atom as [hints|[|]|]; try by apply kept_refl.
  - by apply kept_updatesizehints.
  - by apply kept_setfullscreen.
Qed.

Lemma kept_buttonpress (click : Click) (t : Session) :
  linked (wm t) → kept (wm t) (wm (buttonpress cfg click t)).
Proof.
  intros H. destruct click as [acts|w x y]; cbn [buttonpress].
  - destruct (barcmds t =? 0); [by apply kept_calls|by apply kept_refl].
  - cbv zeta. pose proof (kept_launcher 0 t H) as H1.
    generalize dependent (launcher 0 t). intros t1 H1.
    cbn [wm set_wm]. eapply kept_trans; [exact H1|].
    pose proof (kept_linked _ _ H1) as L1.
    generalize dependent (wm t1). intros s1 _ L1.
    assert (kept s1 (match wintoclient w s1 with
                     | Some c =>
                         restack (Some c)
                           (if Client.isfloating (deref (focus (Some c) s1) c)
                            then CliZoom else CliRaise) (focus (Some c) s1)
                     | None => s1
                     end)) as Hclick.
    { destruct (wintoclient w s1) as [c|] eqn:E; [|by apply kept_refl].
      apply wintoclient_Some in E as [Hc _].
      assert (kept s1 (focus (Some c) s1)) as Hf.
      { apply kept_focus; [done|]. by intros q [= <-]. }
      eapply kept_trans; [exact Hf|].
      apply kept_restack; [apply Hf| |by destruct (Client.isfloating _)].
      intros q [= <-]. by apply (kept_mem _ _ _ Hf). }
    destruct (sel s1) as [c|]; [|exact Hclick].
    case_bool_decide; [|exact Hclick]. by apply kept_grabresize.
Qed.

Lemma kept_drag (x y : Z) (s : WM) : linked s → kept s (drag cfg x y s).
Proof.
  intros H. unfold drag. cbv zeta.
  match goal with |- kept s (match sel ?t with _ => _ end) =>
    match t with match sel ?u with _ => _ end =>
      assert (kept s u) as H1
    end
  end.
  { destruct (sel s) as [c|] eqn:E; [|by apply kept_refl].
    apply kept_if_resize; [done|]. by apply linked_sel. }
  match goal with |- kept s (match sel ?t with _ => _ end) =>
    match t with match sel ?u with _ => _ end => generalize dependent u end
  end.
  intros s1 H1.
  match goal with |- kept s (match sel ?t with _ => _ end) => assert (kept s1 t) as H2 end.
  { destruct (sel s1) as [c|] eqn:E; [|apply kept_refl, H1].
    apply kept_if_resize; [apply H1|]. apply linked_sel; [apply H1|done]. }
  pose proof (kept_trans _ _ _ H1 H2) as H2'.
  match goal with |- kept s (match sel ?t with _ => _ end) => generalize dependent t end.
  intros s2 _ H2. eapply kept_trans; [exact H2|].
  destruct (sel s2) as [c|] eqn:E; [|apply kept_refl, H2].
  apply kept_if_resize; [apply H2|]. apply linked_sel; [apply H2|done].
Qed.

Lemma kept_set_ctrlmode (s : WM) (m : DragMode) : linked s → kept s (set_ctrlmode s m).
Proof. intros H. by apply kept_same. Qed.

Lemma kept_rawkeyrelease (stackrelease : bool) (s : WM) :
  linked s → kept s (rawkeyrelease cfg stackrelease s).
Proof.
  intros H. unfold rawkeyrelease. cbv zeta.
  pose proof (kept_grabresizeabort cfg s H) as H1.
  generalize dependent (grabresizeabort cfg s). intros s1 H1.
  destruct (bool_decide (ctrlmode s1 = ZoomStack) && stackrelease); [|done].
  eapply kept_trans; [exact H1|].
  pose proof (kept_set_ctrlmode s1 CtrlNone (kept_linked _ _ H1)) as H2.
  change (sel (set_ctrlmode s1 CtrlNone)) with (sel s1).
  eapply kept_trans; [exact H2|].
  assert (kept (set_ctrlmode s1 CtrlNone) (restack (sel s1) CliZoom (set_ctrlmode s1 CtrlNone)))
    as H3.
  { apply kept_restack; [apply H2| |done]. intros c Hc.
    apply (linked_sel (set_ctrlmode s1 CtrlNone)); [apply H2|done]. }
  eapply kept_trans; [exact H3|]. apply kept_arrange, H3.
Qed.

Lemma kept_motion (pointer : option Pointer) (barkey : bool) (t : Session) :
  linked (wm t) → kept (wm t) (wm (motion cfg pointer barkey t)).
Proof.
  intros H. unfold motion. destruct pointer as [p|]; [|by apply kept_refl].
  cbv zeta. cbn [wm set_last barcmds lastcw].
  pose proof (kept_drag (p_rx p - lx t) (p_ry p - ly t) (wm t) H) as H1.
  generalize dependent (drag cfg (p_rx p - lx t) (p_ry p - ly t) (wm t)). intros s1 H1.
  match goal with |- context [bool_decide (ctrlmode ?u ≠ CtrlNone)] =>
    assert (kept s1 u) as H2
  end.
  { match goal with |- kept s1 (if ?b then _ else _) => destruct b end;
      [apply kept_grabresizeabort|apply kept_refl]; apply H1. }
  pose proof (kept_trans _ _ _ H1 H2) as H2'.
  match goal with |- context [bool_decide (ctrlmode ?u ≠ CtrlNone)] =>
    generalize dependent u
  end.
  intros s2 _ H2. case_bool_decide; [done|]. cbn [wm set_wm set_lastcw].
  match goal with |- context [restack None ?m s2] =>
    assert (kept s2 (restack None m s2)) as H3
      by (apply kept_restack; [apply H2|done|by destruct (_ || _)]);
    pose proof (kept_trans _ _ _ H2 H3) as H3';
    generalize dependent (restack None m s2)
  end.
  intros s3 _ H3.
  match goal with |- context [onedge ?u _ _] => assert (kept s3 u) as H4 end.
  { case_bool_decide; [|apply kept_refl, H3].
    destruct (wintoclient (p_cw p) s3) as [c|] eqn:E; [|apply kept_refl, H3].
    apply wintoclient_Some in E as [Hc _].
    case_bool_decide; [|apply kept_refl, H3].
    apply kept_focus; [apply H3|]. by intros q [= <-]. }
  pose proof (kept_trans _ _ _ H3 H4) as H4'.
  match goal with |- context [onedge ?u _ _] => generalize dependent u end.
  intros s4 _ H4. eapply kept_trans; [exact H4|].
  destruct (negb _); [apply kept_refl, H4|].
  destruct (onedge _ _ _); [apply kept_grabresize|apply kept_refl]; apply H4.
Qed.

Lemma kept_exthandler (ev : XIEvent) (t : Session) :
  linked (wm t) → kept (wm t) (wm (exthandler ev cfg t).2).
Proof.
  intros H. destruct ev; cbn [exthandler snd wm set_wm].
  - by apply kept_motion.
  - by apply kept_grabresizeabort.
  - by apply kept_rawkeyrelease.
  - by apply kept_refl.
Qed.

Lemma sound_kept (s s' : WM) : kept s s' → sound s → sound s'.
Proof.
  intros (HL & HP & HW & HN) (H & Hd & Ht). split; [done|]. split.
  - unfold distinctwindows. rewrite (windows_perm s' _ _ HP).
    rewrite (windows_ext s s'); [done|]. intros q _. apply HW.
  - intros q Hq. rewrite HP. apply Ht.
    destruct (heap s !! q) eqn:E; [done|]. rewrite (HN q E) in Hq. by destruct Hq.
Qed.

Lemma sound_unmanage (c : ptr) (s : WM) :
  sound s → c ∈ clients s → sound (unmanage cfg c s).
Proof.
  intros (H & Hd & Ht) Hc.
  destruct (unmanage_spec cfg c s H Hc) as (H' & Hfree & Hp & Hnotin & Hwin).
  destruct (unmanage_windows cfg c s H Hd Hc) as (Hws & Hnd).
  pose proof (λ q, unmanage_noalloc cfg c q s H Hc) as Hno.
  generalize dependent (unmanage cfg c s). intros s' H' Hfree Hp Hnotin Hwin Hws Hno.
  split; [done|]. split.
  - unfold distinctwindows. rewrite Hws. by apply NoDup_cons in Hnd as [_ Hnd].
  - intros q Hq. rewrite Hp.
    assert (q ≠ c) as Hne. { intros ->. rewrite Hfree in Hq. by destruct Hq. }
    apply elem_of_unlink_ne; [done|]. apply Ht.
    destruct (heap s !! q) eqn:E; [done|]. rewrite (Hno q E) in Hq. by destruct Hq.
Qed.

Lemma sound_maprequest (w : Window) (wa : option XWindowAttributes) (c : ptr)
    (trans : option Window) (mouse : option (Z * Z)) (hints : option XSizeHints)
    (fullscreen : bool) (t : Session) :
  sound (wm t) → heap (wm t) !! c = None →
  sound (wm (maprequest cfg borderpx w wa c trans mouse hints fullscreen t)).
Proof.
  intros Hs Hc. destruct wa as [a|]; [|done].
  destruct (wa_override_redirect a) eqn:Hov.
  { unfold maprequest. by rewrite Hov. }
  destruct (wintoclient w (wm t)) as [p|] eqn:Hw.
  { unfold maprequest. rewrite Hov, Hw. by rewrite bool_decide_eq_true_2. }
  destruct Hs as (H & Hd & Ht).
  pose proof (notin_unallocated (wm t) c H Hc) as Hnotin.
  destruct (maprequest_spec cfg borderpx w a c trans mouse hints fullscreen t
              H Hd Hov Hw Hnotin) as (H' & Hd' & Hp & _ & _ & _ & _ & _ & Hno).
  generalize dependent (maprequest cfg borderpx w (Some a) c trans mouse hints fullscreen t).
  intros t' H' Hd' Hp Hno.
  split; [done|]. split; [done|].
  intros q Hq. rewrite Hp. destruct (decide (q = c)) as [->|Hne]; [left|right].
  apply Ht. destruct (heap (wm t) !! q) eqn:E; [done|].
  rewrite (Hno q Hne E) in Hq. by destruct Hq.
Qed.

(** What one event does to the invariant and to the clients. *)
Lemma handle_spec (ev : XEvent) (t : Session) :
  sound (wm t) → allocfresh ev (wm t) →
  sound (wm (handle borderpx ev cfg t).2)
  ∧ (manages ev = false → kept (wm t) (wm (handle borderpx ev cfg t).2)).
Proof.
  intros Hs Hf. pose proof Hs as (H & _).
  destruct ev; cbn [handle snd wm set_wm manages allocfresh] in *.
  - pose proof (kept_buttonpress click t H) as K. split; [by apply (sound_kept _ _ K)|done].
  - pose proof (kept_clientmessage w isstate action fullscreen _ H) as K.
    split; [by apply (sound_kept _ _ K)|done].
  - pose proof (kept_configurerequest w x y width height _ H) as K.
    split; [by apply (sound_kept _ _ K)|done].
  - split; [|done]. unfold destroynotify.
    destruct (wintoclient w (wm t)) as [c|] eqn:E; [|done].
    apply wintoclient_Some in E as [Hc _]. by apply sound_unmanage.
  - pose proof (kept_exthandler ev t H) as K. split; [by apply (sound_kept _ _ K)|done].
  - pose proof (kept_call cfg a t H) as K. split; [by apply (sound_kept _ _ K)|done].
  - split; [|done]. by apply sound_maprequest.
  - pose proof (kept_propertynotify w deleted atom _ H) as K.
    split; [by apply (sound_kept _ _ K)|done].
  - split; [|done]. unfold unmapnotify.
    destruct (wintoclient w (wm t)) as [c|] eqn:E; [|done].
    apply wintoclient_Some in E as [Hc _].
    destruct (negb send_event); [|done]. by apply sound_unmanage.
Qed.

End Events.

Lemma run_spec (borderpx : Z) (evs : list XEvent) (cfg : Config) (t : Session) :
  sound (wm t) → allocsfresh borderpx evs cfg t →
  sound (wm (run borderpx evs cfg t).2).
Proof.
  revert cfg t. induction evs as [|ev evs IH]; intros cfg t Hs Hf; [done|].
  cbn [run allocsfresh] in *. destruct (quitting t); [done|]. destruct Hf as [Hf Hfs].
  destruct (handle_spec cfg borderpx ev t Hs Hf) as [Hs' _].
  destruct (handle borderpx ev cfg t) as [cfg' t']. by apply IH.
Qed.

Lemma cleanup_spec (cfg : Config) (s : WM) :
  sound s →
  heap (cleanup cfg s) = ∅ ∧ clients (cleanup cfg s) = [] ∧ linked (cleanup cfg s).
Proof.
  intros Hs.
  pose proof (sound_kept _ _ (kept_view cfg (2 ^ 32 - 1) s (proj1 Hs)) Hs) as (H1 & _ & Ht1).
  unfold cleanup. cbv zeta.
  generalize dependent (view cfg (2 ^ 32 - 1) s). intros s1 H1 Ht1.
  destruct (unmanageall_spec cfg (length (clients s1)) s1 H1) as (Hnil & Hl & Hall); [lia|].
  split; [|done]. apply map_empty. intros q. apply Hall.
  destruct (heap s1 !! q) eqn:E; [left; apply Ht1; by rewrite E|by right].
Qed.



(** X26. Whatever events the event loop handles (each [MapRequest] with
    an address from [calloc] that is not in use), the invariant holds
    when the loop ends, and what [main] does then, showing every
    workspace and unmanaging the head of the list while there is one,
    leaves no client in the list, none selected, pinned or raised, and
    no struct allocated: every client struct that was allocated has been
    freed. *)
Theorem main_frees_all (cfg : Config) (borderpx : Z) (evs : list XEvent) (t : Session) :
  sound (wm t) →
  allocsfresh borderpx evs cfg t →
  let r := run borderpx evs cfg t in
  let s' := cleanup r.1 (wm r.2) in
  sound (wm r.2)
  ∧ heap s' = ∅
  ∧ clients s' = []
  ∧ sel s' = None ∧ pinned s' = None ∧ raised s' = None.
Proof.
  intros Hs Hf. cbv zeta. pose proof (run_spec borderpx evs cfg t Hs Hf) as Hr.
  destruct (run borderpx evs cfg t) as [cfg' t']. cbn [fst snd] in *.
  destruct (cleanup_spec cfg' (wm t') Hr) as (Hh & Hnil & (_ & _ & Hsel & Hpin & Hrai)).
  rewrite Hnil in Hsel, Hpin, Hrai.
  split; [done|]. split; [done|]. split; [done|].
  split. { destruct (sel _) as [c|]; [|done]. by destruct (proj1 (elem_of_nil c) (Hsel c eq_refl)). }
  split. { destruct (pinned _) as [c|]; [|done]. by destruct (proj1 (elem_of_nil c) (Hpin c eq_refl)). }
  destruct (raised _) as [c|]; [|done]. by destruct (proj1 (elem_of_nil c) (Hrai c eq_refl)).
Qed.

Lemma main_frees_all_witness :
  let evs := [ MapRequest 104 (Some Scenes.attrs) Scenes.D None (Some (10, 10)) None false;
               KeyPress Zoom;
               GenericEvent (XI_RawMotion
                 (Some {| p_cw := 102; p_rx := 1500; p_ry := 200; p_mask := 0 |}) false);
               ButtonPress (OnWindow 102 1500 200);
               DestroyNotify 101;
               KeyPress Quit;
               KeyPress Pin ] in
  let r := run 1 evs Scenario.cfg Scenes.session in
  quitting r.2 = true
  ∧ length (clients (wm r.2)) = 3%nat
  ∧ heap (cleanup r.1 (wm r.2)) = ∅.
Proof.
  cbv zeta. split; [vm_compute; reflexivity|]. split; [vm_compute; reflexivity|].
  match goal with
  | |- heap (cleanup (run ?b ?evs ?cfg ?t).1 _) = _ =>
      destruct (main_frees_all cfg b evs t) as (_ & H & _)
  end.
  - apply (bool_decide_unpack _). vm_compute. exact I.
  - vm_compute. tauto.
  - exact H.
Defined.
